(** * Tile organizer and navigator of the point-cloud visualizer

    A shallow embedding of [static/js/main.js] (class [PointCloudVisualizer]).
    The file holds two variants of the class: the one with a grid derived from
    the data (module [Dense], tile-size multiplier 1.2) and the one with a
    constant 3x3 grid (module [Fixed3x3], multiplier 2.0).  The viewer
    without tiles of [staticfiles/js/main.js], which steps through the sorted
    files of a folder, is module [Viewer].

    Modelling conventions.
    - A JavaScript number is a value of [num]: an exact rational, [Infinity],
      [-Infinity] or [NaN].  Rounding of IEEE doubles and the sign of zero are
      not modelled; everything else ([Math.min] starting from [Infinity],
      division by zero, [Math.floor] of a non-finite value) is.
    - A number that is the result of [Math.floor] / [Math.ceil] is a [coord].
      The tile key [`${tileX},${tileY}`] is the pair of the two coordinates:
      two keys are the same string exactly when both coordinates print the
      same, that is when the pairs are equal.
    - A JavaScript [Map] that is iterated is an insertion-ordered association
      list ([jsmap]); [loadedPointClouds], which is only written and cleared,
      is a [gmap].
    - The PLY decoder and the renderer are outside the class.  What the decoder
      answers for a file is part of the file ([decoded], [loadable]); every
      [THREE.Points] object gets a fresh identity and [scene] lists the point
      clouds that were added to the THREE scene.  Of the camera only what
      [focusOnCurrentTile] sets is modelled ([Camera.t]), of the DOM only the
      text of [fileInfo] ([navigateInfo], [Viewer.fileInfo]); [console.log]
      lines are left out; [console.error], [console.warn] and [alert] are
      recorded in [console].
    - [async] methods run to completion before the next event is handled
      (the event layer serialises them); a rejected promise that is awaited
      inside a loop ends the loop, as an exception does.  A method that
      never gets to its end has the result [Hang]. *)

From Stdlib Require Import QArith Qround Qminmax Lia Lqa String Ascii Sorted.
From stdpp Require Import base list strings gmap.

Local Open Scope Z_scope.

(** ** JavaScript numbers *)

Inductive num : Type :=
| Fin (q : Q)
| PInf
| NInf
| NaN.

(** Integral numbers, as produced by [Math.floor] and [Math.ceil]. *)
Inductive coord : Type :=
| CInt (z : Z)
| CPInf
| CNInf
| CNaN.

#[global] Instance coord_eq_dec : EqDecision coord.
Proof. solve_decision. Defined.

Definition num_neg (a : num) : num :=
  match a with
  | Fin q => Fin (- q)
  | PInf => NInf
  | NInf => PInf
  | NaN => NaN
  end.

(** [a + b] *)
Definition num_add (a b : num) : num :=
  match a, b with
  | NaN, _ | _, NaN => NaN
  | Fin x, Fin y => Fin (x + y)
  | PInf, NInf | NInf, PInf => NaN
  | PInf, _ | _, PInf => PInf
  | NInf, _ | _, NInf => NInf
  end.

(** [a - b] *)
Definition num_sub (a b : num) : num := num_add a (num_neg b).

(** The sign of a rational: [Lt], [Eq] or [Gt] with respect to zero. *)
Definition Qsign (q : Q) : comparison := (q ?= 0)%Q.

Definition inf_of_sign (s : comparison) : num :=
  match s with
  | Gt => PInf
  | Lt => NInf
  | Eq => NaN
  end.

(** [a * b] *)
Definition num_mul (a b : num) : num :=
  match a, b with
  | NaN, _ | _, NaN => NaN
  | Fin x, Fin y => Fin (x * y)
  | Fin x, PInf | PInf, Fin x => inf_of_sign (Qsign x)
  | Fin x, NInf | NInf, Fin x => inf_of_sign (CompOpp (Qsign x))
  | PInf, PInf | NInf, NInf => PInf
  | PInf, NInf | NInf, PInf => NInf
  end.

(** [a / b]; a finite number divided by zero is an infinity of the sign of
    the numerator, and [0 / 0] is [NaN]. *)
Definition num_div (a b : num) : num :=
  match a, b with
  | NaN, _ | _, NaN => NaN
  | Fin x, Fin y =>
      match Qsign y with
      | Eq => inf_of_sign (Qsign x)
      | _ => Fin (x / y)
      end
  | Fin _, (PInf | NInf) => Fin 0
  | (PInf | NInf), (PInf | NInf) => NaN
  | PInf, Fin y => match Qsign y with Lt => NInf | _ => PInf end
  | NInf, Fin y => match Qsign y with Lt => PInf | _ => NInf end
  end.

(** [Math.min(a, b)] *)
Definition num_min (a b : num) : num :=
  match a, b with
  | NaN, _ | _, NaN => NaN
  | NInf, _ | _, NInf => NInf
  | PInf, c | c, PInf => c
  | Fin x, Fin y => Fin (Qmin x y)
  end.

(** [Math.max(a, b)] *)
Definition num_max (a b : num) : num :=
  match a, b with
  | NaN, _ | _, NaN => NaN
  | PInf, _ | _, PInf => PInf
  | NInf, c | c, NInf => c
  | Fin x, Fin y => Fin (Qmax x y)
  end.

(** [Math.floor(a)] *)
Definition num_floor (a : num) : coord :=
  match a with
  | Fin q => CInt (Qfloor q)
  | PInf => CPInf
  | NInf => CNInf
  | NaN => CNaN
  end.

(** [Math.ceil(a)] *)
Definition num_ceil (a : num) : coord :=
  match a with
  | Fin q => CInt (Qceiling q)
  | PInf => CPInf
  | NInf => CNInf
  | NaN => CNaN
  end.

(** Tile coordinates: [c - 1], [c + 1], [Math.floor(c / 2)], [c >= 0] and
    [a < b]; a comparison with [NaN] is false. *)
Definition coord_pred (c : coord) : coord :=
  match c with CInt z => CInt (z - 1) | _ => c end.

Definition coord_succ (c : coord) : coord :=
  match c with CInt z => CInt (z + 1) | _ => c end.

Definition coord_half (c : coord) : coord :=
  match c with CInt z => CInt (z / 2) | _ => c end.

Definition coord_ge0 (c : coord) : bool :=
  match c with
  | CInt z => bool_decide (0 <= z)
  | CPInf => true
  | CNInf | CNaN => false
  end.

Definition coord_ltb (a b : coord) : bool :=
  match a, b with
  | CNaN, _ | _, CNaN => false
  | CInt x, CInt y => bool_decide (x < y)
  | CNInf, (CInt _ | CPInf) => true
  | CInt _, CPInf => true
  | _, _ => false
  end.

(** A tile coordinate read as a number again. *)
Definition num_of_coord (c : coord) : num :=
  match c with
  | CInt z => Fin (inject_Z z)
  | CPInf => PInf
  | CNInf => NInf
  | CNaN => NaN
  end.

(** [a === 0] *)
Definition num_is_zero (a : num) : bool :=
  match a with
  | Fin q => Qeq_bool q 0
  | _ => false
  end.

(** ** Insertion-ordered maps (a JavaScript [Map] that is iterated) *)

Section jsmap_ops.
Context {K V : Type} `{EqDecision K}.

Definition jsmap := list (K * V).

(** [m.get(k)] *)
Fixpoint jsmap_get (k : K) (m : list (K * V)) : option V :=
  match m with
  | [] => None
  | (k', v) :: m' => if decide (k' = k) then Some v else jsmap_get k m'
  end.

(** [m.has(k)] *)
Definition jsmap_has (k : K) (m : list (K * V)) : bool :=
  match jsmap_get k m with Some _ => true | None => false end.

(** [m.set(k, v)]: an existing key keeps its place, a new one goes last. *)
Fixpoint jsmap_set (k : K) (v : V) (m : list (K * V)) : list (K * V) :=
  match m with
  | [] => [(k, v)]
  | (k', v') :: m' =>
      if decide (k' = k) then (k', v) :: m' else (k', v') :: jsmap_set k v m'
  end.

(** [m.keys()] and [m.values()], in iteration order. *)
Definition jsmap_keys (m : list (K * V)) : list K := map fst m.
Definition jsmap_values (m : list (K * V)) : list V := map snd m.

End jsmap_ops.

Arguments jsmap : clear implicits.

(** ** Strings: [toLowerCase] (ASCII letters) and [endsWith] *)

Definition lower_ascii (c : ascii) : ascii :=
  let n := nat_of_ascii c in
  if (bool_decide (65 <= n)%nat && bool_decide (n <= 90)%nat)%bool
  then ascii_of_nat (n + 32) else c.

Fixpoint toLowerCase (s : string) : string :=
  match s with
  | EmptyString => EmptyString
  | String c s' => String (lower_ascii c) (toLowerCase s')
  end.

Definition endsWith (s suffix : string) : bool :=
  (bool_decide (String.length suffix <= String.length s)%nat
   && String.eqb
        (substring (String.length s - String.length suffix)
                   (String.length suffix) s)
        suffix)%bool.

(** ** Data of the visualizer *)

(** [THREE.Vector3] and [THREE.Box3], as far as the class reads them. *)
Module Vector3.
Record t : Type := mk { x : num; y : num; z : num }.
End Vector3.

Module Box3.
Record t : Type := mk { min : Vector3.t; max : Vector3.t }.
End Box3.

(** A [File] of the folder input.  [fileId] is the identity of the object;
    [decoded] is the bounding box of the geometry the PLY loader produces for
    the analysis pass ([None]: the loader calls the error callback);
    [loadable] tells whether the loader succeeds when the file is loaded for
    display. *)
Record File : Type := mkFile {
  name : string;
  fileId : nat;
  decoded : option Box3.t;
  loadable : bool
}.

(** The object [extractCoordinatesFromFile] resolves with. *)
Module Coordinates.
Record t : Type := mk {
  centerX : num; centerY : num; centerZ : num;
  extentX : num; extentY : num; extentZ : num;
  minX : num; maxX : num;
  minY : num; maxY : num;
  minZ : num; maxZ : num
}.
End Coordinates.

(** The entry pushed on a tile's array by [organizeFilesIntoTiles]. *)
Record TileFile : Type := mkTileFile {
  file : File;
  originalCoords : Coordinates.t;
  tileX : coord;
  tileY : coord
}.

(** A [THREE.Points] object created by [loadFileForTile]. *)
Record Points : Type := mkPoints {
  pointsId : nat;
  source : File
}.

(** What [focusOnCurrentTile] hands to the renderer: the vector given to
    [controls.target.set] (and to [camera.lookAt]) and the one given to
    [camera.position.set]. *)
Module Camera.
Record t : Type := mk { target : Vector3.t; position : Vector3.t }.
End Camera.

(** The key of a tile. *)
Abbreviation TileKey := (coord * coord)%type.

(** What reaches the user or the console apart from [console.log]. *)
Inductive LogEntry : Type :=
| AlertNoPlyFiles                    (* alert: No .ply files found ... *)
| AlertLoadFilesFirst                (* alert: Please load PLY files first! *)
| ErrorAnalyzing (filename : string) (* console.error: Error analyzing file *)
| ErrorLoading (filename : string)   (* console.error: Error loading file *)
| WarnOnlyFiles (n : nat)            (* console.warn: Only n files available *)
| WarnNoCoordinates (filename : string). (* console.warn: No coordinates found *)

#[global] Instance LogEntry_eq_dec : EqDecision LogEntry.
Proof. solve_decision. Defined.

(** The texts [navigate] writes into the element [fileInfo]. *)
Inductive FileInfo : Type :=
| InfoFilesLoaded (tX tY : coord) (loadedFiles : nat)
    (* Current tile: (x, y) - n files loaded *)
| InfoTileFile (tX tY : coord) (filename : string)
    (* Current tile: (x, y) - name *)
| InfoNoFile (tX tY : coord).
    (* Current tile: (x, y) - No file available *)

Inductive Direction : Type := Left | Right | Up | Down.

(** The fields of [PointCloudVisualizer] ([tileGrid] is only ever cleared and
    is left out). *)
Record State : Type := mkState {
  plyFiles : list File;
  fileCoordinates : jsmap string Coordinates.t;
  currentTile : TileKey;
  tileSize : num;
  minX : num; maxX : num;
  minY : num; maxY : num;
  loadedPointClouds : gmap string Points;
  currentPointClouds : list Points;
  initialTileFiles : jsmap TileKey (list TileFile);
  allTileFiles : jsmap TileKey (list TileFile);
  initialTilesLoaded : bool;
  scene : list Points;
  nextId : nat;
  console : list LogEntry
}.

(** The state the constructor leaves. *)
Definition init_state : State :=
  {| plyFiles := []; fileCoordinates := [];
     currentTile := (CInt 0, CInt 0); tileSize := Fin 50;
     minX := Fin 0; maxX := Fin 0; minY := Fin 0; maxY := Fin 0;
     loadedPointClouds := ∅; currentPointClouds := [];
     initialTileFiles := []; allTileFiles := [];
     initialTilesLoaded := false;
     scene := []; nextId := 0%nat; console := [] |}.

(** How an [async] method ends: its promise is fulfilled, it is rejected, or
    the method never gets to its end. *)
Inductive Result : Type :=
| Done (st : State)
| Rejected (st : State)
| Hang.

Definition settled (r : Result) : option State :=
  match r with
  | Done st | Rejected st => Some st
  | Hang => None
  end.

(** Field updates ([this.f = v]). *)
Definition set_plyFiles (v : list File) (s : State) : State :=
  mkState v (fileCoordinates s) (currentTile s) (tileSize s) (minX s) (maxX s)
    (minY s) (maxY s) (loadedPointClouds s) (currentPointClouds s)
    (initialTileFiles s) (allTileFiles s) (initialTilesLoaded s) (scene s)
    (nextId s) (console s).

Definition set_fileCoordinates (v : jsmap string Coordinates.t) (s : State) : State :=
  mkState (plyFiles s) v (currentTile s) (tileSize s) (minX s) (maxX s)
    (minY s) (maxY s) (loadedPointClouds s) (currentPointClouds s)
    (initialTileFiles s) (allTileFiles s) (initialTilesLoaded s) (scene s)
    (nextId s) (console s).

Definition set_currentTile (v : TileKey) (s : State) : State :=
  mkState (plyFiles s) (fileCoordinates s) v (tileSize s) (minX s) (maxX s)
    (minY s) (maxY s) (loadedPointClouds s) (currentPointClouds s)
    (initialTileFiles s) (allTileFiles s) (initialTilesLoaded s) (scene s)
    (nextId s) (console s).

Definition set_tileSize (v : num) (s : State) : State :=
  mkState (plyFiles s) (fileCoordinates s) (currentTile s) v (minX s) (maxX s)
    (minY s) (maxY s) (loadedPointClouds s) (currentPointClouds s)
    (initialTileFiles s) (allTileFiles s) (initialTilesLoaded s) (scene s)
    (nextId s) (console s).

(** [this.minX = a; this.maxX = b; this.minY = c; this.maxY = d] *)
Definition set_bounds (a b c d : num) (s : State) : State :=
  mkState (plyFiles s) (fileCoordinates s) (currentTile s) (tileSize s) a b
    c d (loadedPointClouds s) (currentPointClouds s)
    (initialTileFiles s) (allTileFiles s) (initialTilesLoaded s) (scene s)
    (nextId s) (console s).

Definition set_loadedPointClouds (v : gmap string Points) (s : State) : State :=
  mkState (plyFiles s) (fileCoordinates s) (currentTile s) (tileSize s)
    (minX s) (maxX s) (minY s) (maxY s) v (currentPointClouds s)
    (initialTileFiles s) (allTileFiles s) (initialTilesLoaded s) (scene s)
    (nextId s) (console s).

Definition set_currentPointClouds (v : list Points) (s : State) : State :=
  mkState (plyFiles s) (fileCoordinates s) (currentTile s) (tileSize s)
    (minX s) (maxX s) (minY s) (maxY s) (loadedPointClouds s) v
    (initialTileFiles s) (allTileFiles s) (initialTilesLoaded s) (scene s)
    (nextId s) (console s).

Definition set_initialTileFiles (v : jsmap TileKey (list TileFile)) (s : State) : State :=
  mkState (plyFiles s) (fileCoordinates s) (currentTile s) (tileSize s)
    (minX s) (maxX s) (minY s) (maxY s) (loadedPointClouds s)
    (currentPointClouds s) v (allTileFiles s) (initialTilesLoaded s) (scene s)
    (nextId s) (console s).

Definition set_allTileFiles (v : jsmap TileKey (list TileFile)) (s : State) : State :=
  mkState (plyFiles s) (fileCoordinates s) (currentTile s) (tileSize s)
    (minX s) (maxX s) (minY s) (maxY s) (loadedPointClouds s)
    (currentPointClouds s) (initialTileFiles s) v (initialTilesLoaded s)
    (scene s) (nextId s) (console s).

Definition set_initialTilesLoaded (v : bool) (s : State) : State :=
  mkState (plyFiles s) (fileCoordinates s) (currentTile s) (tileSize s)
    (minX s) (maxX s) (minY s) (maxY s) (loadedPointClouds s)
    (currentPointClouds s) (initialTileFiles s) (allTileFiles s) v
    (scene s) (nextId s) (console s).

Definition set_scene (v : list Points) (s : State) : State :=
  mkState (plyFiles s) (fileCoordinates s) (currentTile s) (tileSize s)
    (minX s) (maxX s) (minY s) (maxY s) (loadedPointClouds s)
    (currentPointClouds s) (initialTileFiles s) (allTileFiles s)
    (initialTilesLoaded s) v (nextId s) (console s).

Definition set_nextId (v : nat) (s : State) : State :=
  mkState (plyFiles s) (fileCoordinates s) (currentTile s) (tileSize s)
    (minX s) (maxX s) (minY s) (maxY s) (loadedPointClouds s)
    (currentPointClouds s) (initialTileFiles s) (allTileFiles s)
    (initialTilesLoaded s) (scene s) v (console s).

(** [console.error(..)], [console.warn(..)], [alert(..)] *)
Definition emit (e : LogEntry) (s : State) : State :=
  mkState (plyFiles s) (fileCoordinates s) (currentTile s) (tileSize s)
    (minX s) (maxX s) (minY s) (maxY s) (loadedPointClouds s)
    (currentPointClouds s) (initialTileFiles s) (allTileFiles s)
    (initialTilesLoaded s) (scene s) (nextId s) (console s ++ [e]).

(** ** Methods shared by the two variants *)

(** The filter of [handleFolderSelection]:
    [file.name.toLowerCase().endsWith('.ply')]. *)
Definition is_ply (f : File) : bool := endsWith (toLowerCase (name f)) ".ply".

(** [extractCoordinatesFromFile(file)]: [Some] when the promise resolves,
    [None] when it is rejected. *)
Definition extractCoordinatesFromFile (f : File) : option Coordinates.t :=
  match decoded f with
  | None => None
  | Some bbox =>
      let bmin := Box3.min bbox in
      let bmax := Box3.max bbox in
      let two := Fin 2 in
      Some {|
        Coordinates.centerX := num_div (num_add (Vector3.x bmax) (Vector3.x bmin)) two;
        Coordinates.centerY := num_div (num_add (Vector3.y bmax) (Vector3.y bmin)) two;
        Coordinates.centerZ := num_div (num_add (Vector3.z bmax) (Vector3.z bmin)) two;
        Coordinates.extentX := num_sub (Vector3.x bmax) (Vector3.x bmin);
        Coordinates.extentY := num_sub (Vector3.y bmax) (Vector3.y bmin);
        Coordinates.extentZ := num_sub (Vector3.z bmax) (Vector3.z bmin);
        Coordinates.minX := Vector3.x bmin;
        Coordinates.maxX := Vector3.x bmax;
        Coordinates.minY := Vector3.y bmin;
        Coordinates.maxY := Vector3.y bmax;
        Coordinates.minZ := Vector3.z bmin;
        Coordinates.maxZ := Vector3.z bmax
      |}
  end.

(** One turn of the loop of [analyzeAllFiles]: the [try] and its [catch]. *)
Definition analyzeFile (s : State) (f : File) : State :=
  match extractCoordinatesFromFile f with
  | Some coordinates =>
      set_fileCoordinates (jsmap_set (name f) coordinates (fileCoordinates s)) s
  | None => emit (ErrorAnalyzing (name f)) s
  end.

(** [analyzeAllFiles()] *)
Definition analyzeAllFiles (s : State) : State :=
  fold_left analyzeFile (plyFiles s) (set_fileCoordinates [] s).

(** The first loop of [calculateGridOrganization]: the running
    [(minX, maxX, minY, maxY)]. *)
Definition boundsStep (acc : num * num * num * num) (coords : Coordinates.t)
  : num * num * num * num :=
  let '(mnX, mxX, mnY, mxY) := acc in
  (num_min mnX (Coordinates.minX coords),
   num_max mxX (Coordinates.maxX coords),
   num_min mnY (Coordinates.minY coords),
   num_max mxY (Coordinates.maxY coords)).

Definition boundsLoop (values : list Coordinates.t) : num * num * num * num :=
  fold_left boundsStep values (PInf, NInf, PInf, NInf).

(** The second loop: the running [(totalExtentX, totalExtentY, fileCount)]. *)
Definition extentStep (acc : num * num * Z) (coords : Coordinates.t)
  : num * num * Z :=
  let '(totalExtentX, totalExtentY, fileCount) := acc in
  (num_add totalExtentX (Coordinates.extentX coords),
   num_add totalExtentY (Coordinates.extentY coords),
   fileCount + 1).

Definition extentLoop (values : list Coordinates.t) : num * num * Z :=
  fold_left extentStep values (Fin 0, Fin 0, 0).

(** [calculateGridOrganization()] up to the call of [organizeFilesIntoTiles];
    [k] is the multiplier of the variant.  The caller has checked that
    [fileCoordinates] is not empty. *)
Definition computeGridFrame (k : Q) (s : State) : State :=
  let values := jsmap_values (fileCoordinates s) in
  let '(mnX, mxX, mnY, mxY) := boundsLoop values in
  let s := set_bounds mnX mxX mnY mxY s in
  let '(totalExtentX, totalExtentY, fileCount) := extentLoop values in
  let avgExtentX := num_div totalExtentX (Fin (inject_Z fileCount)) in
  let avgExtentY := num_div totalExtentY (Fin (inject_Z fileCount)) in
  set_tileSize (num_mul (num_max avgExtentX avgExtentY) (Fin k)) s.

(** [clearCurrentPointClouds()]: every current point cloud leaves the scene
    ([scene.remove] goes by object identity), then the array is replaced. *)
Definition sceneRemove (p : Points) (sc : list Points) : list Points :=
  filter (fun q => pointsId q ≠ pointsId p) sc.

Definition clearCurrentPointClouds (s : State) : State :=
  set_currentPointClouds []
    (set_scene (fold_left (fun sc p => sceneRemove p sc) (currentPointClouds s) (scene s)) s).

(** [clearAllPointClouds()] *)
Definition clearAllPointClouds (s : State) : State :=
  set_loadedPointClouds ∅ (clearCurrentPointClouds s).

(** [loadFileForTile(tileFile)]: the state when the promise settles and
    whether it was fulfilled. *)
Definition loadFileForTile (tileFile : TileFile) (s : State) : State * bool :=
  if loadable (file tileFile) then
    let points := {| pointsId := nextId s; source := file tileFile |} in
    (set_nextId (S (nextId s))
       (set_scene (scene s ++ [points])
          (set_currentPointClouds (currentPointClouds s ++ [points])
             (set_loadedPointClouds
                (<[name (file tileFile) := points]> (loadedPointClouds s)) s))),
     true)
  else (emit (ErrorLoading (name (file tileFile))) s, false).

(** [for (const tileFile of files) await this.loadFileForTile(tileFile)]:
    the first rejected load ends the loop. *)
Fixpoint loadFiles (files : list TileFile) (s : State) : State * bool :=
  match files with
  | [] => (s, true)
  | tileFile :: rest =>
      let '(s', ok) := loadFileForTile tileFile s in
      if ok then loadFiles rest s' else (s', false)
  end.

(** [newTileX--], [newTileX++], [newTileY++], [newTileY--] of [navigate]. *)
Definition destination (direction : Direction) (tile : TileKey) : TileKey :=
  let '(newTileX, newTileY) := tile in
  match direction with
  | Left => (coord_pred newTileX, newTileY)
  | Right => (coord_succ newTileX, newTileY)
  | Up => (newTileX, coord_succ newTileY)
  | Down => (newTileX, coord_pred newTileY)
  end.

(** [this.allTileFiles.get(tileKey) || []] *)
Definition tileFilesAt (key : TileKey) (m : jsmap TileKey (list TileFile)) : list TileFile :=
  default [] (jsmap_get key m).

(** ** The variant with a grid derived from the data *)

Module Dense.

(** The multiplier of [calculateGridOrganization]: 1.2. *)
Definition multiplier : Q := 6 # 5.

(** [Math.floor((coords.centerX - this.minX) / this.tileSize)] and the same
    on the y axis. *)
Definition tileOf (s : State) (coords : Coordinates.t) : TileKey :=
  (num_floor (num_div (num_sub (Coordinates.centerX coords) (minX s)) (tileSize s)),
   num_floor (num_div (num_sub (Coordinates.centerY coords) (minY s)) (tileSize s))).

(** [if (!m.has(key)) m.set(key, []); m.get(key).push(entry)] *)
Definition pushTileFile (key : TileKey) (entry : TileFile)
    (m : jsmap TileKey (list TileFile)) : jsmap TileKey (list TileFile) :=
  let m1 := if jsmap_has key m then m else jsmap_set key [] m in
  jsmap_set key (tileFilesAt key m1 ++ [entry]) m1.

(** One turn of the loop over [this.fileCoordinates]. *)
Definition organizeStep (s : State) (entry : string * Coordinates.t) : State :=
  let '(filename, coords) := entry in
  let '(tX, tY) := tileOf s coords in
  match List.find (fun f => bool_decide (name f = filename)) (plyFiles s) with
  | Some f =>
      set_allTileFiles
        (pushTileFile (tX, tY)
           {| file := f; originalCoords := coords; tileX := tX; tileY := tY |}
           (allTileFiles s)) s
  | None => s
  end.

(** [Math.ceil((this.maxX - this.minX) / this.tileSize)] and the same on the
    y axis. *)
Definition totalTilesX (s : State) : coord :=
  num_ceil (num_div (num_sub (maxX s) (minX s)) (tileSize s)).

Definition totalTilesY (s : State) : coord :=
  num_ceil (num_div (num_sub (maxY s) (minY s)) (tileSize s)).

(** [organizeFilesIntoTiles()] *)
Definition organizeFilesIntoTiles (s : State) : State :=
  let s := set_allTileFiles [] s in
  let s := fold_left organizeStep (fileCoordinates s) s in
  set_currentTile (coord_half (totalTilesX s), coord_half (totalTilesY s)) s.

(** [calculateGridOrganization()] *)
Definition calculateGridOrganization (s : State) : State :=
  match fileCoordinates s with
  | [] => s
  | _ :: _ => organizeFilesIntoTiles (computeGridFrame multiplier s)
  end.

(** [isValidTilePosition(tileX, tileY)] *)
Definition isValidTilePosition (s : State) (tX tY : coord) : bool :=
  coord_ge0 tX && coord_ltb tX (totalTilesX s)
  && coord_ge0 tY && coord_ltb tY (totalTilesY s).

(** The values [c - 1 .. c + 1] a loop [for (v = c - 1; v <= c + 1; v++)]
    runs through: none when [c] is [NaN]; no finite list when [c] is
    infinite, where the loop never ends. *)
Definition tileRange (c : coord) : option (list coord) :=
  match c with
  | CInt z => Some [CInt (z - 1); CInt z; CInt (z + 1)]
  | CNaN => Some []
  | CPInf | CNInf => None
  end.

(** The body of the two loops of [loadInitialTiles] at one tile. *)
Definition loadInitialTile (key : TileKey) (s : State) : State * bool :=
  match tileFilesAt key (allTileFiles s) with
  | [] => (s, true)
  | firstFile :: _ =>
      loadFileForTile firstFile
        (set_initialTileFiles (jsmap_set key [firstFile] (initialTileFiles s)) s)
  end.

Fixpoint loadInitialTilesAt (keys : list TileKey) (s : State) : State * bool :=
  match keys with
  | [] => (s, true)
  | key :: rest =>
      let '(s', ok) := loadInitialTile key s in
      if ok then loadInitialTilesAt rest s' else (s', false)
  end.

(** [loadInitialTiles()].  With an infinite centre coordinate the loop
    variable never passes its bound: the method ends only if a load is
    rejected. *)
Definition loadInitialTiles (s : State) : Result :=
  let s := set_initialTileFiles [] (clearCurrentPointClouds s) in
  let '(centerX, centerY) := currentTile s in
  match tileRange centerX, tileRange centerY with
  | Some [], _ => Done (set_initialTilesLoaded true s)
  | Some xs, Some ys =>
      let '(s', ok) := loadInitialTilesAt (list_prod xs ys) s in
      if ok then Done (set_initialTilesLoaded true s') else Rejected s'
  | Some (_ :: _), None => Hang
  | None, Some ys =>
      let '(s', ok) := loadInitialTilesAt (map (pair centerX) ys) s in
      if ok then Hang else Rejected s'
  | None, None => Hang
  end.

(** The list [loadCurrentTile] walks through. *)
Definition filesToLoad (s : State) : list TileFile :=
  if initialTilesLoaded s
  then tileFilesAt (currentTile s) (allTileFiles s)
  else tileFilesAt (currentTile s) (initialTileFiles s).

(** [loadCurrentTile()]: the state when its promise settles and whether it
    was fulfilled. *)
Definition loadCurrentTile (s : State) : State * bool :=
  let s := clearCurrentPointClouds s in
  loadFiles (filesToLoad s) s.

(** [navigate(direction)]; the promise of [loadCurrentTile] is not awaited,
    the state is the one after it has settled. *)
Definition navigate (direction : Direction) (s : State) : State :=
  match allTileFiles s with
  | [] => emit AlertLoadFilesFirst s
  | _ :: _ =>
      let '(newTileX, newTileY) := destination direction (currentTile s) in
      if jsmap_has (newTileX, newTileY) (allTileFiles s)
         || isValidTilePosition s newTileX newTileY
      then fst (loadCurrentTile (set_currentTile (newTileX, newTileY) s))
      else s
  end.

(** [handleFolderSelection(event)], [files] being [event.target.files]. *)
Definition handleFolderSelection (files : list File) (s : State) : Result :=
  match List.filter is_ply files with
  | [] => Done (emit AlertNoPlyFiles s)
  | (_ :: _) as files =>
      let s := set_initialTilesLoaded false (set_plyFiles files s) in
      let s := analyzeAllFiles s in
      let s := calculateGridOrganization s in
      loadInitialTiles s
  end.

(** A sequence of clicks on the four buttons. *)
Definition navigateAll (directions : list Direction) (s : State) : State :=
  fold_left (fun s d => navigate d s) directions s.

(** [focusOnCurrentTile()]: the two vectors it computes,
    [(worldX, worldY, 0)] and [(worldX, worldY, optimalDistance)]. *)
Definition focusOnCurrentTile (s : State) : Camera.t :=
  let worldX :=
    num_add (minX s)
      (num_mul (num_add (num_of_coord (currentTile s).1) (Fin 0.5)) (tileSize s)) in
  let worldY :=
    num_add (minY s)
      (num_mul (num_add (num_of_coord (currentTile s).2) (Fin 0.5)) (tileSize s)) in
  let optimalDistance := num_mul (tileSize s) (Fin 1.5) in
  {| Camera.target := Vector3.mk worldX worldY (Fin 0);
     Camera.position := Vector3.mk worldX worldY optimalDistance |}.

(** The text [navigate(direction)] leaves in [fileInfo]; [None]: the element
    is not written. *)
Definition navigateInfo (direction : Direction) (s : State) : option FileInfo :=
  match allTileFiles s with
  | [] => None
  | _ :: _ =>
      let '(newTileX, newTileY) := destination direction (currentTile s) in
      if jsmap_has (newTileX, newTileY) (allTileFiles s)
         || isValidTilePosition s newTileX newTileY
      then
        let tileFiles := tileFilesAt (newTileX, newTileY) (allTileFiles s) in
        let loadedFiles :=
          if initialTilesLoaded s then length tileFiles
          else length (tileFilesAt (newTileX, newTileY) (initialTileFiles s)) in
        Some (InfoFilesLoaded newTileX newTileY loadedFiles)
      else None
  end.

End Dense.

(** ** The variant with a constant 3x3 grid *)

Module Fixed3x3.

(** The multiplier of [calculateGridOrganization]: 2.0. *)
Definition multiplier : Q := 2.

(** The pairs [(x, y)] the two nested loops [for x in 0..2, for y in 0..2]
    visit, in order. *)
Definition gridKeys : list TileKey :=
  list_prod [CInt 0; CInt 1; CInt 2] [CInt 0; CInt 1; CInt 2].

(** One turn of the assignment loop; [fileIndex] is carried along. *)
Definition assignStep (filesToUse : list File) (acc : State * nat) (key : TileKey)
  : State * nat :=
  let '(s, fileIndex) := acc in
  match filesToUse !! fileIndex with
  | Some f =>
      match jsmap_get (name f) (fileCoordinates s) with
      | Some coords =>
          (set_allTileFiles
             (jsmap_set key
                [{| file := f; originalCoords := coords;
                    tileX := key.1; tileY := key.2 |}]
                (allTileFiles s)) s,
           S fileIndex)
      | None => (emit (WarnNoCoordinates (name f)) s, S fileIndex)
      end
  | None => (s, fileIndex)
  end.

(** [organizeFilesIntoTiles()] *)
Definition organizeFilesIntoTiles (s : State) : State :=
  let s := set_allTileFiles [] s in
  let s :=
    set_allTileFiles
      (fold_left (fun m key => jsmap_set key [] m) gridKeys (allTileFiles s)) s in
  let filesToUse := take 9 (plyFiles s) in
  let s :=
    if bool_decide (length filesToUse < 9)%nat
    then emit (WarnOnlyFiles (length filesToUse)) s else s in
  let s := fst (fold_left (assignStep filesToUse) gridKeys (s, 0%nat)) in
  set_currentTile (CInt 1, CInt 1) s.

(** [calculateGridOrganization()] *)
Definition calculateGridOrganization (s : State) : State :=
  match fileCoordinates s with
  | [] => s
  | _ :: _ => organizeFilesIntoTiles (computeGridFrame multiplier s)
  end.

(** [loadInitialTiles()]: only the centre tile. *)
Definition loadInitialTiles (s : State) : Result :=
  let s := set_initialTileFiles [] (clearCurrentPointClouds s) in
  let tileKey := currentTile s in
  match jsmap_get tileKey (allTileFiles s) with
  | Some (tileFile :: _) =>
      let s := set_initialTileFiles
                 (jsmap_set tileKey [tileFile] (initialTileFiles s)) s in
      let '(s', ok) := loadFileForTile tileFile s in
      if ok then Done (set_initialTilesLoaded true s') else Rejected s'
  | _ => Done (set_initialTilesLoaded true s)
  end.

(** [loadCurrentTile()] *)
Definition loadCurrentTile (s : State) : State * bool :=
  let s := clearCurrentPointClouds s in
  loadFiles (tileFilesAt (currentTile s) (allTileFiles s)) s.

(** The test [newTileX >= 0 && newTileX < 3 && newTileY >= 0 && newTileY < 3]. *)
Definition inGrid (tX tY : coord) : bool :=
  coord_ge0 tX && coord_ltb tX (CInt 3) && coord_ge0 tY && coord_ltb tY (CInt 3).

(** [navigate(direction)] *)
Definition navigate (direction : Direction) (s : State) : State :=
  match allTileFiles s with
  | [] => emit AlertLoadFilesFirst s
  | _ :: _ =>
      let '(newTileX, newTileY) := destination direction (currentTile s) in
      if inGrid newTileX newTileY then
        match tileFilesAt (newTileX, newTileY) (allTileFiles s) with
        | _ :: _ => fst (loadCurrentTile (set_currentTile (newTileX, newTileY) s))
        | [] => s
        end
      else s
  end.

(** [handleFolderSelection(event)] *)
Definition handleFolderSelection (files : list File) (s : State) : Result :=
  match List.filter is_ply files with
  | [] => Done (emit AlertNoPlyFiles s)
  | (_ :: _) as files =>
      let s := set_initialTilesLoaded false (set_plyFiles files s) in
      let s := analyzeAllFiles s in
      let s := calculateGridOrganization s in
      loadInitialTiles s
  end.

Definition navigateAll (directions : list Direction) (s : State) : State :=
  fold_left (fun s d => navigate d s) directions s.

(** Where [loadFileForTile(tileFile)] of this variant puts the point cloud:
    [points.position.set(offsetX, offsetY, 0)]. *)
Definition pointsPosition (tileFile : TileFile) (s : State) : Vector3.t :=
  let offsetX := num_mul (num_sub (num_of_coord (tileX tileFile)) (Fin 1)) (tileSize s) in
  let offsetY := num_mul (num_sub (num_of_coord (tileY tileFile)) (Fin 1)) (tileSize s) in
  Vector3.mk offsetX offsetY (Fin 0).

(** [focusOnCurrentTile()]: [(offsetX, offsetY, 0)] and
    [(offsetX, offsetY, optimalDistance)]. *)
Definition focusOnCurrentTile (s : State) : Camera.t :=
  let offsetX := num_mul (num_sub (num_of_coord (currentTile s).1) (Fin 1)) (tileSize s) in
  let offsetY := num_mul (num_sub (num_of_coord (currentTile s).2) (Fin 1)) (tileSize s) in
  let optimalDistance := num_mul (tileSize s) (Fin 2.0) in
  {| Camera.target := Vector3.mk offsetX offsetY (Fin 0);
     Camera.position := Vector3.mk offsetX offsetY optimalDistance |}.

(** The text [navigate(direction)] leaves in [fileInfo]; [None]: the element
    is not written. *)
Definition navigateInfo (direction : Direction) (s : State) : option FileInfo :=
  match allTileFiles s with
  | [] => None
  | _ :: _ =>
      let '(newTileX, newTileY) := destination direction (currentTile s) in
      if inGrid newTileX newTileY then
        match tileFilesAt (newTileX, newTileY) (allTileFiles s) with
        | tileFile :: _ => Some (InfoTileFile newTileX newTileY (name (file tileFile)))
        | [] => Some (InfoNoFile newTileX newTileY)
        end
      else None
  end.

End Fixed3x3.

(** ** The viewer without tiles: [staticfiles/js/main.js]

    The class of this file shows the first file of the folder and, after a
    click on one of six buttons, a second file beside it at the distance
    [mergeDistance].  The conventions are those above; in addition
    [controls.target] and the text of [fileInfo] are fields of the state. *)

Module Viewer.

Inductive Direction : Type := Right | Left | Up | Down | Forward | Backward.

(** A value of [loadedPointClouds]: [{points, geometry, offset}], the
    geometry being the one of [points]. *)
Module Entry.
Record t : Type := mk { points : Points; offset : Vector3.t }.
End Entry.

(** [currentPointCloud] and [adjacentPointCloud]: [{name, points}]. *)
Module Shown.
Record t : Type := mk { name : string; points : Points }.
End Shown.

Inductive LogEntry : Type :=
| AlertNoPlyFiles       (* alert: No .ply files found ... *)
| AlertLoadFilesFirst   (* alert: Please load PLY files first! *)
| ErrorLoadingPly       (* console.error: Error loading PLY file *)
| ErrorInLoad           (* console.error: Error in loadAndVisualizeFile *)
| ErrorLoadingAdjacent. (* console.error: Error loading adjacent file *)

Inductive FileInfo : Type :=
| InfoInitial                                (* the text of the page *)
| InfoLoaded (count : nat) (first : string)  (* Loaded n files. Current: name *)
| InfoLoadingAdjacent                        (* Loading adjacent file... *)
| InfoCurrent (filename : string) (position : Z) (count : nat)
                                             (* Current: name (i/n) *)
| InfoError.                                 (* Error loading file! ... *)

Record State : Type := mkState {
  plyFiles : list File;
  currentFileIndex : Z;
  loadedPointClouds : gmap string Entry.t;
  currentPointCloud : option Shown.t;
  adjacentPointCloud : option Shown.t;
  scene : list Points;
  controlsTarget : Vector3.t;
  fileInfo : FileInfo;
  nextId : nat;
  console : list LogEntry
}.

(** [this.mergeDistance = 15], never written again. *)
Definition mergeDistance : num := Fin 15.

(** The state the constructor leaves; the target of new [OrbitControls] is
    the origin. *)
Definition init_state : State :=
  {| plyFiles := []; currentFileIndex := 0; loadedPointClouds := ∅;
     currentPointCloud := None; adjacentPointCloud := None; scene := [];
     controlsTarget := Vector3.mk (Fin 0) (Fin 0) (Fin 0);
     fileInfo := InfoInitial; nextId := 0%nat; console := [] |}.

Definition set_fileInfo (v : FileInfo) (s : State) : State :=
  mkState (plyFiles s) (currentFileIndex s) (loadedPointClouds s)
    (currentPointCloud s) (adjacentPointCloud s) (scene s) (controlsTarget s)
    v (nextId s) (console s).

Definition set_currentFileIndex (v : Z) (s : State) : State :=
  mkState (plyFiles s) v (loadedPointClouds s)
    (currentPointCloud s) (adjacentPointCloud s) (scene s) (controlsTarget s)
    (fileInfo s) (nextId s) (console s).

Definition emit (e : LogEntry) (s : State) : State :=
  mkState (plyFiles s) (currentFileIndex s) (loadedPointClouds s)
    (currentPointCloud s) (adjacentPointCloud s) (scene s) (controlsTarget s)
    (fileInfo s) (nextId s) (console s ++ [e]).

(** [files.sort(compare)] for a comparator that answers a negative number,
    zero or a positive number: the sort is stable, so for a comparator that
    is a total preorder the result is the one of inserting each element,
    from the last one on, before the first element it does not come
    after. *)
Section sort.
Context {A : Type} (compare : A -> A -> Z).

Fixpoint sortInsert (x : A) (l : list A) : list A :=
  match l with
  | [] => [x]
  | y :: l' => if bool_decide (compare x y <= 0) then x :: y :: l'
               else y :: sortInsert x l'
  end.

Definition sort (l : list A) : list A := foldr sortInsert [] l.

End sort.

(** [clearAllPointClouds()]: every [THREE.Points] child leaves the scene. *)
Definition clearAllPointClouds (s : State) : State :=
  mkState (plyFiles s) (currentFileIndex s) ∅ None None [] (controlsTarget s)
    (fileInfo s) (nextId s) (console s).

(** [offsetX === 0 && offsetY === 0 && offsetZ === 0] *)
Definition atOrigin (offset : Vector3.t) : bool :=
  num_is_zero (Vector3.x offset) && num_is_zero (Vector3.y offset)
  && num_is_zero (Vector3.z offset).

(** [loadAndVisualizeFile(file, offsetX, offsetY, offsetZ)]: the state when
    the promise settles and whether it was fulfilled. *)
Definition loadAndVisualizeFile (f : File) (offset : Vector3.t) (s : State)
  : State * bool :=
  if loadable f then
    let points := {| pointsId := nextId s; source := f |} in
    let shown := Some (Shown.mk (name f) points) in
    let origin := atOrigin offset in
    (mkState (plyFiles s) (currentFileIndex s)
       (<[name f := Entry.mk points offset]> (loadedPointClouds s))
       (if origin then shown else currentPointCloud s)
       (if origin then adjacentPointCloud s else shown)
       (scene s ++ [points]) offset (fileInfo s) (S (nextId s)) (console s),
     true)
  else (emit ErrorLoadingPly s, false).

(** [this.plyFiles[index]] *)
Definition fileAt (index : Z) (s : State) : option File :=
  if bool_decide (0 <= index) then plyFiles s !! Z.to_nat index else None.

(** The offset and the next index [navigate] computes; [%] is the remainder
    that takes the sign of the dividend. *)
Definition step (direction : Direction) (s : State) : Vector3.t * Z :=
  let n := Z.of_nat (length (plyFiles s)) in
  let i := currentFileIndex s in
  let zero := Fin 0 in
  match direction with
  | Right => (Vector3.mk mergeDistance zero zero, Z.rem (i + 1) n)
  | Left => (Vector3.mk (num_neg mergeDistance) zero zero, Z.rem (i - 1 + n) n)
  | Up => (Vector3.mk zero mergeDistance zero, Z.rem (i + 1) n)
  | Down => (Vector3.mk zero (num_neg mergeDistance) zero, Z.rem (i - 1 + n) n)
  | Forward => (Vector3.mk zero zero mergeDistance, Z.rem (i + 1) n)
  | Backward => (Vector3.mk zero zero (num_neg mergeDistance), Z.rem (i - 1 + n) n)
  end.

(** The block [if (this.adjacentPointCloud) {...}] of [navigate]. *)
Definition removeAdjacent (s : State) : State :=
  match adjacentPointCloud s with
  | Some adjacent =>
      mkState (plyFiles s) (currentFileIndex s)
        (delete (Shown.name adjacent) (loadedPointClouds s))
        (currentPointCloud s) None
        (sceneRemove (Shown.points adjacent) (scene s)) (controlsTarget s)
        (fileInfo s) (nextId s) (console s)
  | None => s
  end.

(** [navigate(direction)], with the [then] and the [catch] of the promise.
    An index outside the array makes the call of the loader throw inside the
    [try] of [loadAndVisualizeFile]. *)
Definition navigate (direction : Direction) (s : State) : State :=
  match plyFiles s with
  | [] => emit AlertLoadFilesFirst s
  | _ :: _ =>
      let '(offset, nextIndex) := step direction s in
      let s := set_fileInfo InfoLoadingAdjacent (removeAdjacent s) in
      match fileAt nextIndex s with
      | Some f =>
          let '(s', ok) := loadAndVisualizeFile f offset s in
          if ok then
            set_fileInfo
              (InfoCurrent (name f) (nextIndex + 1) (length (plyFiles s')))
              (set_currentFileIndex nextIndex s')
          else set_fileInfo InfoError (emit ErrorLoadingAdjacent s')
      | None =>
          set_fileInfo InfoError (emit ErrorLoadingAdjacent (emit ErrorInLoad s))
      end
  end.

(** [handleFolderSelection(event)]; [localeCompare] is the comparison of
    names the browser provides.  The promise of the first load is dropped.
    The sorted array has a first element, since sorting keeps the length;
    without one the read of [this.plyFiles[0].name] would throw after the
    two assignments. *)
Definition handleFolderSelection (localeCompare : string -> string -> Z)
    (files : list File) (s : State) : State :=
  match List.filter is_ply files with
  | [] => emit AlertNoPlyFiles s
  | (_ :: _) as files =>
      let sorted := sort (fun a b => localeCompare (name a) (name b)) files in
      let s :=
        mkState sorted 0 (loadedPointClouds s) (currentPointCloud s)
          (adjacentPointCloud s) (scene s) (controlsTarget s)
          (fileInfo s) (nextId s) (console s) in
      match sorted with
      | first :: _ =>
          let s := set_fileInfo (InfoLoaded (length sorted) (name first)) s in
          let s := clearAllPointClouds s in
          (loadAndVisualizeFile first (Vector3.mk (Fin 0) (Fin 0) (Fin 0)) s).1
      | [] => s
      end
  end.

Definition navigateAll (directions : list Direction) (s : State) : State :=
  fold_left (fun s d => navigate d s) directions s.

(** The states of a session: the constructor, then folder selections and
    clicks, each handled to its end. *)
Inductive reachable (localeCompare : string -> string -> Z) : State -> Prop :=
| r_init : reachable localeCompare init_state
| r_folder files s :
    reachable localeCompare s ->
    reachable localeCompare (handleFolderSelection localeCompare files s)
| r_navigate direction s :
    reachable localeCompare s -> reachable localeCompare (navigate direction s).

End Viewer.

(** ** Views on the state *)

(** Every entry of every tile, tile after tile. *)
Definition allTiled (m : jsmap TileKey (list TileFile)) : list TileFile :=
  concat (jsmap_values m).

(** The files that sit in some tile. *)
Definition tiledFiles (s : State) : list File := file <$> allTiled (allTileFiles s).

(** The files of a tile. *)
Definition filesOfTile (key : TileKey) (s : State) : list File :=
  file <$> tileFilesAt key (allTileFiles s).

(** The files whose point clouds are in [currentPointClouds]. *)
Definition residentFiles (s : State) : list File := source <$> currentPointClouds s.

(** The files for which the analysis pass gets a bounding box. *)
Definition analyzable (f : File) : bool :=
  match decoded f with Some _ => true | None => false end.

(** The grid frame, the tile store and the current tile. *)
Definition gridOf (s : State)
  : num * num * num * num * num * jsmap TileKey (list TileFile) * TileKey :=
  (minX s, maxX s, minY s, maxY s, tileSize s, allTileFiles s, currentTile s).

(** All that the loading methods leave alone. *)
Definition catalogOf (s : State) :=
  (plyFiles s, fileCoordinates s, gridOf s, initialTileFiles s, initialTilesLoaded s).

(** The rational value of a finite number. *)
Definition finite (a : num) : option Q :=
  match a with Fin q => Some q | _ => None end.

(** The rectangle [(x0, x1, y0, y1)] a file covers in the X/Y plane, when its
    bounding box was extracted and is finite there. *)
Definition rect (f : File) : option (Q * Q * Q * Q) :=
  match decoded f with
  | Some b =>
      match finite (Vector3.x (Box3.min b)), finite (Vector3.x (Box3.max b)),
            finite (Vector3.y (Box3.min b)), finite (Vector3.y (Box3.max b)) with
      | Some x0, Some x1, Some y0, Some y1 => Some (x0, x1, y0, y1)
      | _, _, _, _ => None
      end
  | None => None
  end.

(** The rectangles of the analysed files of a folder, in input order. *)
Definition rects (files : list File) : list (Q * Q * Q * Q) :=
  omap rect files.

(** ** The organizer as the specification words it *)

Module Spec.


(** [ceil((max - min) / tileSize)] *)
Definition gridExtent (max min tileSize : Q) : Z :=
  Qceiling ((max - min) / tileSize).

Definition extent (lo hi : Q) : Q := hi - lo.

(** [m] is the least, respectively the greatest, of [xs]. *)
Definition is_minimum (m : Q) (xs : list Q) : Prop :=
  (forall x, x ∈ xs -> (m <= x)%Q) /\ (exists x, x ∈ xs /\ (x == m)%Q).

Definition is_maximum (m : Q) (xs : list Q) : Prop :=
  (forall x, x ∈ xs -> (x <= m)%Q) /\ (exists x, x ∈ xs /\ (x == m)%Q).

Definition Qsum (xs : list Q) : Q := foldr Qplus 0%Q xs.

(** [avg(xs)] *)
Definition average (xs : list Q) : Q :=
  (Qsum xs / inject_Z (Z.of_nat (length xs)))%Q.

(** [max(avg(extentX), avg(extentY)) * k] *)
Definition tileSize (k : Q) (extentsX extentsY : list Q) : Q :=
  (Qmax (average extentsX) (average extentsY) * k)%Q.

(** The tile number [i] of the 3x3 grid, the pairs being listed with [x]
    first: [(0,0), (0,1), (0,2), (1,0), ...]. *)
Definition gridTile (i : nat) : TileKey :=
  (CInt (Z.of_nat (i / 3)), CInt (Z.of_nat (i mod 3))).

End Spec.

(** ** Sessions *)

(** The states a session of the first variant goes through: the constructor,
    then folder selections and clicks on the navigation buttons, each handled
    to its end. *)
Inductive reachable_dense : State -> Prop :=
| rd_init : reachable_dense init_state
| rd_folder files s s' :
    reachable_dense s ->
    settled (Dense.handleFolderSelection files s) = Some s' ->
    reachable_dense s'
| rd_navigate direction s :
    reachable_dense s -> reachable_dense (Dense.navigate direction s).

Inductive reachable_fixed : State -> Prop :=
| rf_init : reachable_fixed init_state
| rf_folder files s s' :
    reachable_fixed s ->
    settled (Fixed3x3.handleFolderSelection files s) = Some s' ->
    reachable_fixed s'
| rf_navigate direction s :
    reachable_fixed s -> reachable_fixed (Fixed3x3.navigate direction s).

(** Every point cloud that exists was numbered before [nextId]. *)
Definition ids_fresh (s : State) : Prop :=
  forall p, p ∈ currentPointClouds s ++ scene s -> (pointsId p < nextId s)%nat.

(** What the initial pass recorded for a tile is the first entry of the tile. *)
Definition initial_consistent (s : State) : Prop :=
  forall key l, jsmap_get key (initialTileFiles s) = Some l ->
    exists firstFile rest,
      jsmap_get key (allTileFiles s) = Some (firstFile :: rest) /\ l = [firstFile].

(** Without a tile store the grid frame is the one of the constructor. *)
Definition frame_initial (s : State) : Prop :=
  allTileFiles s = [] ->
  minX s = Fin 0 /\ maxX s = Fin 0 /\ minY s = Fin 0 /\ maxY s = Fin 0
  /\ tileSize s = Fin 50.

Record session_inv (s : State) : Prop := mkSessionInv {
  inv_ids : ids_fresh s;
  inv_scene : scene s = currentPointClouds s;
  inv_initial : initial_consistent s;
  inv_frame : frame_initial s
}.

(** The test of [navigate] in the first variant: the tile has files or the
    position is valid. *)
Definition dense_admissible (s : State) (key : TileKey) : bool :=
  jsmap_has key (allTileFiles s) || Dense.isValidTilePosition s key.1 key.2.

(** The position is one of the nine of the constant grid. *)
Definition in3x3 (key : TileKey) : Prop :=
  exists x y, key = (CInt x, CInt y) /\ 0 <= x < 3 /\ 0 <= y < 3.

(** Making [tile] the active tile, as [navigate] does when it accepts a
    click: [this.currentTile = tile; this.loadCurrentTile()]. *)
Definition dense_activate (tile : TileKey) (s : State) : State :=
  (Dense.loadCurrentTile (set_currentTile tile s)).1.

(** The resident files the specification asks for after an activation:
    those the tile store assigns to the tile under the mode (the first one
    only, or all), minus the ones whose load fails. *)
Definition spec_resident (firstOnly : bool) (assigned : list File) : list File :=
  List.filter loadable (if firstOnly then take 1 assigned else assigned).

(** ** Concrete folders *)

Definition point (a b c : Q) : Vector3.t := Vector3.mk (Fin a) (Fin b) (Fin c).

Definition box (x0 x1 y0 y1 : Q) : option Box3.t :=
  Some (Box3.mk (point x0 y0 0) (point x1 y1 0)).

(** Two scans: one spanning [[0,10] x [0,10]], and a single point at
    [(12, 0)]. *)
Definition scanA : File := mkFile "a.ply" 0 (box 0 10 0 10) true.
Definition scanB : File := mkFile "b.ply" 1 (box 12 12 0 0) true.

(** The first scan again, this time one the renderer cannot load. *)
Definition scanA_unloadable : File := mkFile "a.ply" 0 (box 0 10 0 10) false.

(** Three scans of the same square, the second of which the renderer cannot
    load, and a fourth scan further right. *)
Definition scanP : File := mkFile "p.ply" 0 (box 0 10 0 10) true.
Definition scanQ : File := mkFile "q.ply" 1 (box 0 10 0 10) false.
Definition scanR : File := mkFile "r.ply" 2 (box 0 10 0 10) true.
Definition scanS : File := mkFile "s.ply" 3 (box 20 30 0 10) true.

(** A file the PLY loader rejects, and a file that is no PLY file. *)
Definition scanBad : File := mkFile "bad.ply" 7 None false.
Definition notes : File := mkFile "notes.txt" 8 None false.

(** A scan of another folder, and its entry in the tile store of that
    folder. *)
Definition scanC : File := mkFile "c.ply" 9 (box 0 4 0 4) true.

Definition entryC : TileFile :=
  {| file := scanC;
     originalCoords :=
       Coordinates.mk (Fin 2) (Fin 2) (Fin 0) (Fin 4) (Fin 4) (Fin 0)
         (Fin 0) (Fin 4) (Fin 0) (Fin 4) (Fin 0) (Fin 0);
     tileX := CInt 0; tileY := CInt 0 |}.

(** The state after the folder [files] was selected in a fresh session. *)
Definition denseSession (files : list File) : option State :=
  settled (Dense.handleFolderSelection files init_state).

Definition fixedSession (files : list File) : option State :=
  settled (Fixed3x3.handleFolderSelection files init_state).

(** Further folders and files for the examples. *)

(** Five scans in a row, one unit wide each. *)
Definition rowScan (i : nat) : File :=
  mkFile (String (ascii_of_nat (97 + i)) ".ply") i
    (box (inject_Z (Z.of_nat i)) (inject_Z (Z.of_nat i) + 1) 0 1) true.

Definition scanRow : list File := rowScan <$> seq 0 5.


(** A second file called [a.ply], further right. *)
Definition scanA2 : File := mkFile "a.ply" 5 (box 20 30 0 10) true.

(** A scan whose extension is in upper case. *)
Definition scanUpper : File := mkFile "Scan.PLY" 6 (box 0 2 0 2) true.

(** A comparison of names for the examples: the order of the character
    codes. *)
Definition codeCompare (a b : string) : Z :=
  match String.compare a b with
  | Lt => -1
  | Eq => 0
  | Gt => 1
  end.

(** ** Notions used in the statements and their proofs *)

(** Every entry sits under the key made of its own [tileX] and [tileY]. *)
Definition keyed (m : jsmap TileKey (list TileFile)) : Prop :=
  forall key l tf, (key, l) ∈ m -> tf ∈ l -> key = (tileX tf, tileY tf).

(** The entry [organizeStep] makes for an entry of [fileCoordinates], when
    [plyFiles] has a file of that name. *)
Definition tileFileFor (s : State) (entry : string * Coordinates.t) : option TileFile :=
  (fun f => {| file := f; originalCoords := entry.2;
               tileX := (Dense.tileOf s entry.2).1;
               tileY := (Dense.tileOf s entry.2).2 |})
  <$> List.find (fun f => bool_decide (name f = entry.1)) (plyFiles s).

(** The entries the analysis pass sets, file by file. *)
Definition entriesOf (files : list File) : list (string * Coordinates.t) :=
  omap (fun f => pair (name f) <$> extractCoordinatesFromFile f) files.

(** The errors the analysis pass logs, file by file. *)
Definition analysisErrors (files : list File) : list LogEntry :=
  (fun f => ErrorAnalyzing (name f)) <$> List.filter (fun f => negb (analyzable f)) files.

(** All fields but [fileCoordinates] and [console]. *)
Definition besidesAnalysis (s : State) :=
  (plyFiles s, gridOf s, loadedPointClouds s, currentPointClouds s,
   initialTileFiles s, initialTilesLoaded s, scene s, nextId s).

(** [computeGridFrame] writes the bounds and the tile size only. *)
Definition besidesFrame (s : State) :=
  (plyFiles s, fileCoordinates s, currentTile s, allTileFiles s,
   loadedPointClouds s, currentPointClouds s, initialTileFiles s,
   initialTilesLoaded s, scene s, nextId s, console s).

(** The clouds are numbered below [nextId] and the scene shows exactly the
    current ones. *)
Definition clouds_ok (s : State) : Prop :=
  ids_fresh s /\ scene s = currentPointClouds s.

(** What [calculateGridOrganization] leaves alone. *)
Definition besidesGrid (s : State) :=
  (plyFiles s, fileCoordinates s, loadedPointClouds s, currentPointClouds s,
   initialTileFiles s, initialTilesLoaded s, scene s, nextId s, console s).

(** The entries up to the first one that cannot be loaded. *)
Fixpoint loadablePrefix (files : list TileFile) : list TileFile :=
  match files with
  | [] => []
  | tf :: rest => if loadable (file tf) then tf :: loadablePrefix rest else []
  end.

(** The names under which [loadedPointClouds] has an entry. *)
Definition loadedNames (s : State) : gset string := dom (loadedPointClouds s).



(** What tile number [j], of key [key], gets: the entry of the file number
    [j] if there is one and it has coordinates. *)
Definition fixedSlot (files : list File) (fc : jsmap string Coordinates.t)
    (key : TileKey) (j : nat) : list TileFile :=
  match files !! j with
  | Some f =>
      match jsmap_get (name f) fc with
      | Some coords => [{| file := f; originalCoords := coords;
                           tileX := key.1; tileY := key.2 |}]
      | None => []
      end
  | None => []
  end.

(** The warning for a file among the first nine that has no coordinates. *)
Definition fixedWarning (files : list File) (fc : jsmap string Coordinates.t)
    (j : nat) : option LogEntry :=
  match files !! j with
  | Some f =>
      match jsmap_get (name f) fc with
      | Some _ => None
      | None => Some (WarnNoCoordinates (name f))
      end
  | None => None
  end.

(** One turn of the assignment loop with the file index given. *)
Definition assignAt (filesToUse : list File) (s : State) (kj : TileKey * nat) : State :=
  (Fixed3x3.assignStep filesToUse (s, kj.2) kj.1).1.

(** All fields but the tile store and the console. *)
Definition besidesStore (s : State) :=
  (plyFiles s, fileCoordinates s, currentTile s, tileSize s,
   (minX s, maxX s, minY s, maxY s), loadedPointClouds s, currentPointClouds s,
   initialTileFiles s, initialTilesLoaded s, scene s, nextId s).

(** The coordinates record of a file that covers the rectangle
    [(x0, x1, y0, y1)]. *)
Definition covers (c : Coordinates.t) (r : Q * Q * Q * Q) : Prop :=
  let '(x0, x1, y0, y1) := r in
  Coordinates.minX c = Fin x0 /\ Coordinates.maxX c = Fin x1
  /\ Coordinates.minY c = Fin y0 /\ Coordinates.maxY c = Fin y1
  /\ Coordinates.centerX c = Fin ((x1 + x0) / 2)
  /\ Coordinates.centerY c = Fin ((y1 + y0) / 2)
  /\ Coordinates.extentX c = Fin (x1 - x0)
  /\ Coordinates.extentY c = Fin (y1 - y0).

(** The extents of a list of rectangles on the two axes. *)
Definition extentsX (rs : list (Q * Q * Q * Q)) : list Q :=
  (fun r => Spec.extent r.1.1.1 r.1.1.2) <$> rs.

Definition extentsY (rs : list (Q * Q * Q * Q)) : list Q :=
  (fun r => Spec.extent r.1.2 r.2) <$> rs.

(** The tiling: everything [navigate] reads and never writes. *)
Definition tilingOf (s : State) :=
  (plyFiles s, fileCoordinates s, (minX s, maxX s, minY s, maxY s), tileSize s,
   allTileFiles s, initialTileFiles s, initialTilesLoaded s).


(** [this.currentTile = tile; this.loadCurrentTile()] in the 3x3 variant. *)
Definition fixed_activate (tile : TileKey) (s : State) : State :=
  (Fixed3x3.loadCurrentTile (set_currentTile tile s)).1.

(** All fields but the console. *)
Definition besidesConsole (s : State) :=
  (catalogOf s, loadedPointClouds s, currentPointClouds s, scene s, nextId s).

(** No rectangle is inverted. *)
Definition upright (rs : list (Q * Q * Q * Q)) : Prop :=
  forall r, r ∈ rs -> (r.1.1.1 <= r.1.1.2)%Q /\ (r.1.2 <= r.2)%Q.



(** Every entry can be loaded. *)
Definition allLoadable (entries : list TileFile) : bool :=
  forallb (fun tf => loadable (file tf)) entries.

(** The point clouds and their numbering. *)
Definition cloudsOf (s : State) :=
  (loadedPointClouds s, currentPointClouds s, scene s, nextId s).

(** No tile holds more than one entry. *)
Definition single_slots (m : jsmap TileKey (list TileFile)) : Prop :=
  forall key l, (key, l) ∈ m -> (length l <= 1)%nat.

(** What a session of the 3x3 variant keeps. *)
Definition fixed_inv (s : State) : Prop :=
  clouds_ok s /\ single_slots (allTileFiles s)
  /\ (length (currentPointClouds s) <= 1)%nat.

(** The coordinates of the last file of [files] that is called [nm] and can
    be analysed. *)
Definition lastCoordinates (nm : string) (files : list File) : option Coordinates.t :=
  fold_left
    (fun acc f =>
       if bool_decide (name f = nm)
       then match extractCoordinatesFromFile f with
            | Some c => Some c
            | None => acc
            end
       else acc)
    files None.

(** No key of the store holds an empty array. *)
Definition populated (m : jsmap TileKey (list TileFile)) : Prop :=
  forall key l, (key, l) ∈ m -> l ≠ [].

(** The well-formedness of a tile store. *)
Definition store_ok (m : jsmap TileKey (list TileFile)) : Prop :=
  NoDup (jsmap_keys m) /\ keyed m /\ populated m.

(** The point cloud of [currentPointCloud] or [adjacentPointCloud], if any. *)
Definition shownPoints (o : option Viewer.Shown.t) : list Points :=
  match o with
  | Some shown => [Viewer.Shown.points shown]
  | None => []
  end.

(** The step of a button on the index: [+1] or [-1]. *)
Definition indexStep (d : Viewer.Direction) : Z :=
  match d with
  | Viewer.Right | Viewer.Up | Viewer.Forward => 1
  | Viewer.Left | Viewer.Down | Viewer.Backward => -1
  end.

(** What a session of the viewer keeps. *)
Record viewer_inv (s : Viewer.State) : Prop := mkViewerInv {
  vi_index :
    (Viewer.plyFiles s = [] /\ Viewer.currentFileIndex s = 0)
    \/ 0 <= Viewer.currentFileIndex s < Z.of_nat (length (Viewer.plyFiles s));
  vi_scene :
    Viewer.scene s
    = shownPoints (Viewer.currentPointCloud s) ++ shownPoints (Viewer.adjacentPointCloud s);
  vi_fresh : forall p, p ∈ Viewer.scene s -> (pointsId p < Viewer.nextId s)%nat;
  vi_distinct : NoDup (pointsId <$> Viewer.scene s);
  vi_current : forall c,
    Viewer.currentPointCloud s = Some c ->
    Viewer.plyFiles s !! 0%nat = Some (source (Viewer.Shown.points c))
    /\ Viewer.Shown.name c = name (source (Viewer.Shown.points c));
  vi_adjacent : forall a,
    Viewer.adjacentPointCloud s = Some a ->
    Viewer.fileAt (Viewer.currentFileIndex s) s = Some (source (Viewer.Shown.points a))
    /\ Viewer.Shown.name a = name (source (Viewer.Shown.points a))
    /\ Viewer.Entry.points <$> (Viewer.loadedPointClouds s !! Viewer.Shown.name a)
       = Some (Viewer.Shown.points a);
  vi_loaded : forall nm e,
    Viewer.loadedPointClouds s !! nm = Some e ->
    Viewer.Entry.points e ∈ Viewer.scene s
    /\ name (source (Viewer.Entry.points e)) = nm
}.

(** The error [loadFiles] logs: the one of the first entry whose load
    fails, if any. *)
Definition firstFailure (entries : list TileFile) : list LogEntry :=
  match List.find (fun tf => negb (loadable (file tf))) entries with
  | Some tf => [ErrorLoading (name (file tf))]
  | None => []
  end.

(** * Properties *)

(** ** Insertion-ordered maps *)

Section jsmap_facts.
Context {K V : Type} `{EqDecision K}.
Implicit Types (m : list (K * V)) (k : K) (v : V).

Lemma jsmap_get_set_eq k v m : jsmap_get k (jsmap_set k v m) = Some v.
Proof.
  induction m as [|[k' v'] m IH]; simpl.
  - by rewrite decide_True.
  - destruct (decide (k' = k)) as [->|Hne]; simpl.
    + by rewrite decide_True.
    + by rewrite decide_False.
Qed.

Lemma jsmap_get_set_ne k k' v m :
  k ≠ k' -> jsmap_get k' (jsmap_set k v m) = jsmap_get k' m.
Proof.
  intros Hne. induction m as [|[k0 v0] m IH]; simpl.
  - by rewrite decide_False.
  - destruct (decide (k0 = k)) as [->|Hne0]; simpl.
    + by rewrite !decide_False.
    + by rewrite IH.
Qed.

Lemma jsmap_get_Some_elem k v m : jsmap_get k m = Some v -> (k, v) ∈ m.
Proof.
  induction m as [|[k' v'] m IH]; simpl; [done|].
  destruct (decide (k' = k)) as [->|Hne].
  - intros [= ->]. left.
  - intros Hg. right. by apply IH.
Qed.

Lemma jsmap_get_None_keys k m : jsmap_get k m = None <-> k ∉ jsmap_keys m.
Proof.
  induction m as [|[k' v'] m IH]; simpl.
  - split; [intros _; apply not_elem_of_nil | done].
  - rewrite not_elem_of_cons. destruct (decide (k' = k)) as [->|Hne].
    + split; [done | intros [? _]; done].
    + rewrite IH. split; [intros ?; split; [congruence | done] | by intros [_ ?]].
Qed.

Lemma jsmap_elem_get k v m :
  NoDup (jsmap_keys m) -> (k, v) ∈ m -> jsmap_get k m = Some v.
Proof.
  induction m as [|[k' v'] m IH]; simpl.
  - intros _ Hin. by apply elem_of_nil in Hin.
  - intros Hnd Hin. apply NoDup_cons in Hnd as [Hk' Hnd].
    apply elem_of_cons in Hin as [[= <- <-]|Hin].
    + by rewrite decide_True.
    + destruct (decide (k' = k)) as [->|Hne]; [|by apply IH].
      exfalso. apply Hk'. apply list_elem_of_fmap. by exists (k, v).
Qed.

Lemma jsmap_keys_set k v m :
  jsmap_keys (jsmap_set k v m)
  = if jsmap_has k m then jsmap_keys m else jsmap_keys m ++ [k].
Proof.
  unfold jsmap_has. induction m as [|[k' v'] m IH]; simpl; [done|].
  destruct (decide (k' = k)) as [->|Hne]; simpl; [done|].
  rewrite IH. by destruct (jsmap_get k m).
Qed.

Lemma jsmap_keys_set_NoDup k v m :
  NoDup (jsmap_keys m) -> NoDup (jsmap_keys (jsmap_set k v m)).
Proof.
  intros Hnd. rewrite jsmap_keys_set. unfold jsmap_has.
  destruct (jsmap_get k m) eqn:Hg; [done|].
  apply NoDup_app. split_and!; [done| |apply NoDup_singleton].
  intros x Hx ->%list_elem_of_singleton. by apply jsmap_get_None_keys in Hg.
Qed.

Lemma jsmap_set_nonempty k v m : jsmap_set k v m ≠ [].
Proof. destruct m as [|[k' v'] m]; simpl; [done|]. by destruct (decide (k' = k)). Qed.

(** Setting a key that is not there yet puts the entry last. *)
Lemma jsmap_set_new k v m : jsmap_get k m = None -> jsmap_set k v m = m ++ [(k, v)].
Proof.
  induction m as [|[k' v'] m IH]; simpl; [done|].
  destruct (decide (k' = k)); [done|]. intros Hg. by rewrite IH.
Qed.

End jsmap_facts.

(** ** What the loading methods leave alone *)

Lemma loadFileForTile_catalog tf s : catalogOf (loadFileForTile tf s).1 = catalogOf s.
Proof. unfold loadFileForTile. by destruct (loadable (file tf)). Qed.

Lemma loadFiles_catalog files s : catalogOf (loadFiles files s).1 = catalogOf s.
Proof.
  revert s. induction files as [|tf files IH]; intros s; simpl; [done|].
  pose proof (loadFileForTile_catalog tf s) as Hc.
  destruct (loadFileForTile tf s) as [s' [|]]; simpl in *.
  - by rewrite IH.
  - done.
Qed.

Lemma dense_loadCurrentTile_catalog s :
  catalogOf (Dense.loadCurrentTile s).1 = catalogOf s.
Proof. unfold Dense.loadCurrentTile. by rewrite loadFiles_catalog. Qed.

Lemma fixed_loadCurrentTile_catalog s :
  catalogOf (Fixed3x3.loadCurrentTile s).1 = catalogOf s.
Proof. unfold Fixed3x3.loadCurrentTile. by rewrite loadFiles_catalog. Qed.

(** The components of an unchanged catalog. *)
Lemma catalog_fields s s' :
  catalogOf s' = catalogOf s ->
  plyFiles s' = plyFiles s /\ fileCoordinates s' = fileCoordinates s
  /\ minX s' = minX s /\ maxX s' = maxX s /\ minY s' = minY s /\ maxY s' = maxY s
  /\ tileSize s' = tileSize s /\ allTileFiles s' = allTileFiles s
  /\ currentTile s' = currentTile s /\ initialTileFiles s' = initialTileFiles s
  /\ initialTilesLoaded s' = initialTilesLoaded s.
Proof. unfold catalogOf, gridOf. intros [= ? ? ? ? ? ? ? ? ? ? ?]. by repeat split. Qed.

(** ** Folds that keep a view *)

Lemma fold_left_preserve {A B C} (f : A -> B -> A) (g : A -> C) (l : list B) (a : A) :
  (forall a b, g (f a b) = g a) -> g (fold_left f l a) = g a.
Proof.
  intros Hf. revert a. induction l as [|b l IH]; intros a; simpl; [done|].
  by rewrite IH.
Qed.

Lemma analyzeFile_grid s f : gridOf (analyzeFile s f) = gridOf s.
Proof. unfold analyzeFile. by destruct (extractCoordinatesFromFile f). Qed.

Lemma analyzeAllFiles_grid s : gridOf (analyzeAllFiles s) = gridOf s.
Proof.
  unfold analyzeAllFiles.
  by rewrite (fold_left_preserve analyzeFile gridOf) by apply analyzeFile_grid.
Qed.

Lemma grid_of_catalog s s' : catalogOf s' = catalogOf s -> gridOf s' = gridOf s.
Proof. intros H. exact (f_equal (fun c => c.1.1.2) H). Qed.

Lemma grid_currentTile s s' : gridOf s' = gridOf s -> currentTile s' = currentTile s.
Proof. unfold gridOf. by intros [= _ _ _ _ _ _ ?]. Qed.

(** ** Navigation and the bounds of the grid (C1) *)

Lemma dense_admissible_frame s s' key :
  (gridOf s').1 = (gridOf s).1 -> dense_admissible s' key = dense_admissible s key.
Proof.
  unfold gridOf; simpl. intros [= Ha Hb Hc Hd He Hf].
  unfold dense_admissible, Dense.isValidTilePosition, Dense.totalTilesX,
    Dense.totalTilesY. by rewrite Ha, Hb, Hc, Hd, He, Hf.
Qed.

(** One click: the frame and the tile store stay; the current tile stays or
    becomes the destination, the latter only if the test of [navigate] let it
    through. *)
Lemma dense_navigate_cases d s :
  let s' := Dense.navigate d s in
  (gridOf s').1 = (gridOf s).1
  /\ (currentTile s' = currentTile s
      \/ (currentTile s' = destination d (currentTile s)
          /\ dense_admissible s (destination d (currentTile s)) = true)).
Proof.
  cbv zeta. unfold Dense.navigate.
  destruct (allTileFiles s) eqn:Hall; [split; [done|by left]|].
  rewrite <- Hall.
  destruct (destination d (currentTile s)) as [nx ny] eqn:Hdest.
  destruct (_ || _) eqn:Htest; [|split; [done|by left]].
  pose proof (dense_loadCurrentTile_catalog (set_currentTile (nx, ny) s)) as Hc.
  apply catalog_fields in Hc as (_ & _ & Ha & Hb & Hc & Hd & He & Hf & Hg & _).
  simpl in *. split.
  - unfold gridOf; simpl. by rewrite Ha, Hb, Hc, Hd, He, Hf.
  - right. split; [done|]. unfold dense_admissible; simpl. by rewrite Hall in Htest |- *.
Qed.

Lemma dense_navigateAll_admissible ds s :
  let s' := Dense.navigateAll ds s in
  (gridOf s').1 = (gridOf s).1
  /\ (currentTile s' = currentTile s
      \/ dense_admissible s' (currentTile s') = true).
Proof.
  simpl. revert s. induction ds as [|d ds IH] using rev_ind; intros s.
  - split; [done|by left].
  - unfold Dense.navigateAll in *. rewrite fold_left_app; simpl.
    destruct (IH s) as [Hf Ht].
    destruct (dense_navigate_cases d (fold_left (fun s d => Dense.navigate d s) ds s))
      as [Hf' Ht']; simpl in *.
    split; [congruence|].
    destruct Ht' as [Ht'|[Ht' Hadm]].
    + rewrite Ht'. destruct Ht as [Ht|Ht]; [by left|right].
      by rewrite (dense_admissible_frame _ _ _ Hf').
    + right. rewrite Ht'. by rewrite (dense_admissible_frame _ _ _ Hf').
Qed.

Lemma dense_navigate_rejects d s :
  dense_admissible s (destination d (currentTile s)) = false ->
  currentTile (Dense.navigate d s) = currentTile s.
Proof.
  intros Hadm. destruct (dense_navigate_cases d s) as [_ [H|[_ H]]]; [done|].
  congruence.
Qed.

Lemma dense_navigate_accepts d s :
  allTileFiles s ≠ [] ->
  dense_admissible s (destination d (currentTile s)) = true ->
  currentTile (Dense.navigate d s) = destination d (currentTile s).
Proof.
  intros Hne Hadm. unfold Dense.navigate, dense_admissible in *.
  destruct (allTileFiles s) as [|e es] eqn:Hall; [done|]. rewrite <- Hall.
  destruct (destination d (currentTile s)) as [nx ny]. simpl in Hadm.
  rewrite Hall, Hadm.
  pose proof (dense_loadCurrentTile_catalog (set_currentTile (nx, ny) s)) as Hc.
  by apply grid_of_catalog, grid_currentTile in Hc.
Qed.

Lemma inGrid_in3x3 tX tY : Fixed3x3.inGrid tX tY = true -> in3x3 (tX, tY).
Proof.
  unfold Fixed3x3.inGrid. intros H.
  repeat (apply andb_prop in H as [H ?]).
  destruct tX as [x| | |]; try done. destruct tY as [y| | |]; try done.
  simpl in *. exists x, y.
  repeat match goal with H : bool_decide _ = true |- _ => apply bool_decide_eq_true in H end.
  split; [done|lia].
Qed.

Lemma fixed_navigate_cases d s :
  let s' := Fixed3x3.navigate d s in
  currentTile s' = currentTile s
  \/ (currentTile s' = destination d (currentTile s)
      /\ Fixed3x3.inGrid (destination d (currentTile s)).1
           (destination d (currentTile s)).2 = true
      /\ tileFilesAt (destination d (currentTile s)) (allTileFiles s) ≠ []).
Proof.
  cbv zeta. unfold Fixed3x3.navigate.
  destruct (allTileFiles s) eqn:Hall; [by left|]. rewrite <- Hall.
  destruct (destination d (currentTile s)) as [nx ny] eqn:Hdest.
  destruct (Fixed3x3.inGrid nx ny) eqn:Hin; [|by left].
  destruct (tileFilesAt (nx, ny) (allTileFiles s)) eqn:Hfiles; [by left|].
  right. split; [|done].
  pose proof (fixed_loadCurrentTile_catalog (set_currentTile (nx, ny) s)) as Hc.
  by apply grid_of_catalog, grid_currentTile in Hc.
Qed.

Lemma fixed_loadInitialTiles_grid s s' :
  settled (Fixed3x3.loadInitialTiles s) = Some s' -> gridOf s' = gridOf s.
Proof.
  unfold Fixed3x3.loadInitialTiles; simpl.
  destruct (jsmap_get (currentTile s) (allTileFiles s)) as [[|tf l]|];
    try (by intros [= <-]).
  match goal with |- context [loadFileForTile tf ?s0] =>
    pose proof (loadFileForTile_catalog tf s0) as Hc;
    destruct (loadFileForTile tf s0) as [s1 [|]] end;
    simpl in *; intros [= <-]; apply grid_of_catalog in Hc; exact Hc.
Qed.

Lemma fixed_handleFolderSelection_tile files s s' :
  settled (Fixed3x3.handleFolderSelection files s) = Some s' ->
  currentTile s' = currentTile s \/ currentTile s' = (CInt 1, CInt 1).
Proof.
  unfold Fixed3x3.handleFolderSelection.
  destruct (List.filter is_ply files) as [|f fs]; [intros [= <-]; by left|].
  intros Hs%fixed_loadInitialTiles_grid%grid_currentTile. rewrite Hs.
  unfold Fixed3x3.calculateGridOrganization.
  destruct (fileCoordinates _); [|by right].
  left. by rewrite (grid_currentTile _ _ (analyzeAllFiles_grid _)).
Qed.

Lemma in3x3_center : in3x3 (CInt 1, CInt 1).
Proof. exists 1, 1. split; [done|lia]. Qed.

Lemma reachable_fixed_in3x3 s : reachable_fixed s -> in3x3 (currentTile s).
Proof.
  induction 1 as [|files s s' _ IH Hs|d s _ IH].
  - exists 0, 0. split; [done|lia].
  - apply fixed_handleFolderSelection_tile in Hs as [-> | ->];
      [done|apply in3x3_center].
  - destruct (fixed_navigate_cases d s) as [->|(-> & Hin & _)]; [done|].
    destruct (destination d (currentTile s)). by apply inGrid_in3x3.
Qed.

Lemma fixed_navigateAll_in3x3 ds s :
  in3x3 (currentTile s) -> in3x3 (currentTile (Fixed3x3.navigateAll ds s)).
Proof.
  revert s. induction ds as [|d ds IH]; intros s Hs; [done|].
  apply IH. destruct (fixed_navigate_cases d s) as [->|(-> & Hin & _)]; [done|].
  destruct (destination d (currentTile s)). by apply inGrid_in3x3.
Qed.

Lemma fixed_navigate_rejects d s :
  Fixed3x3.inGrid (destination d (currentTile s)).1
    (destination d (currentTile s)).2 = false ->
  currentTile (Fixed3x3.navigate d s) = currentTile s.
Proof.
  intros Hout. destruct (fixed_navigate_cases d s) as [H|(_ & H & _)]; [done|].
  congruence.
Qed.

(** C1, as the specification has it, fails in the first variant: in the
    folder of [scanA] and [scanB] the grid is 2 x 2, the organizer starts at
    [(1,1)], and the clicks down and right end on tile [(2,0)], which holds
    [scanB] and lies outside [[0,2) x [0,2)]. *)
Lemma C1_dense_leaves_grid :
  exists s0,
    denseSession [scanA; scanB] = Some s0
    /\ currentTile s0 = (CInt 1, CInt 1)
    /\ Dense.totalTilesX s0 = CInt 2 /\ Dense.totalTilesY s0 = CInt 2
    /\ currentTile (Dense.navigateAll [Down; Right] s0) = (CInt 2, CInt 0)
    /\ Dense.isValidTilePosition (Dense.navigateAll [Down; Right] s0)
         (CInt 2) (CInt 0) = false.
Proof.
  exists (default init_state (denseSession [scanA; scanB])).
  by vm_compute.
Qed.

(** C1 (amended): navigation and the bounds of the grid.  In the first
    variant, once files are organized, a click moves to the destination
    exactly when it holds files or is a valid position of the grid
    ([0 <= x < gridWidth], [0 <= y < gridHeight]); so after any sequence of
    clicks the current tile is the one the sequence started from, or holds
    files, or is inside the grid; a destination outside the grid that holds
    no file is rejected and the current tile stays.  In the 3x3 variant the
    current tile of every reachable state, and after any sequence of clicks
    from a tile of the grid, is in [[0,3) x [0,3)], and a destination
    outside is rejected. *)
Theorem C1_navigation_bounds :
  (forall ds s,
      let s' := Dense.navigateAll ds s in
      currentTile s' = currentTile s \/ dense_admissible s' (currentTile s') = true)
  /\ (forall d s,
        allTileFiles s ≠ [] ->
        dense_admissible s (destination d (currentTile s)) = true ->
        currentTile (Dense.navigate d s) = destination d (currentTile s))
  /\ (forall d s,
        dense_admissible s (destination d (currentTile s)) = false ->
        currentTile (Dense.navigate d s) = currentTile s)
  /\ (forall s, reachable_fixed s -> in3x3 (currentTile s))
  /\ (forall ds s,
        in3x3 (currentTile s) -> in3x3 (currentTile (Fixed3x3.navigateAll ds s)))
  /\ (forall d s,
        Fixed3x3.inGrid (destination d (currentTile s)).1
          (destination d (currentTile s)).2 = false ->
        currentTile (Fixed3x3.navigate d s) = currentTile s).
Proof.
  split_and!.
  - intros ds s. apply dense_navigateAll_admissible.
  - apply dense_navigate_accepts.
  - apply dense_navigate_rejects.
  - apply reachable_fixed_in3x3.
  - apply fixed_navigateAll_in3x3.
  - apply fixed_navigate_rejects.
Qed.

(** The theorem at the two sessions of [scanA] and [scanB]: in the first
    variant the click right from [(1,0)] is accepted (tile [(2,0)] holds a
    file) and the click up from [(1,1)] is rejected; in the 3x3 variant the
    current tile stays in the grid. *)
Lemma C1_navigation_bounds_witness :
  let sd := default init_state (denseSession [scanA; scanB]) in
  let sf := default init_state (fixedSession [scanA; scanB]) in
  currentTile (Dense.navigate Right (Dense.navigate Down sd)) = (CInt 2, CInt 0)
  /\ currentTile (Dense.navigate Up sd) = currentTile sd
  /\ in3x3 (currentTile (Fixed3x3.navigate Left sf))
  /\ in3x3 (currentTile (Fixed3x3.navigateAll [Left; Left; Down] sf))
  /\ currentTile (Fixed3x3.navigate Left (Fixed3x3.navigate Left sf))
     = currentTile (Fixed3x3.navigate Left sf).
Proof.
  destruct C1_navigation_bounds as (_ & Ha & Hd & Hr & Hs & Hf).
  split_and!.
  - rewrite Ha; by vm_compute.
  - apply Hd. by vm_compute.
  - apply Hr. apply rf_navigate.
    apply (rf_folder [scanA; scanB] init_state); [apply rf_init|by vm_compute].
  - apply Hs. exists 1, 1. split; [by vm_compute|lia].
  - apply Hf. by vm_compute.
Defined.

(** ** The tile store of the first variant *)

Lemma allTiled_app m1 m2 : allTiled (m1 ++ m2) = allTiled m1 ++ allTiled m2.
Proof. unfold allTiled, jsmap_values. by rewrite map_app, concat_app. Qed.

Lemma allTiled_set_app key l (x : TileFile) m :
  jsmap_get key m = Some l ->
  allTiled (jsmap_set key (l ++ [x]) m) ≡ₚ allTiled m ++ [x].
Proof.
  induction m as [|[k' v'] m IH]; simpl; [done|].
  destruct (decide (k' = key)) as [->|Hne].
  - intros [= ->]. unfold allTiled; simpl.
    rewrite <- !(assoc_L (++)). f_equiv. apply Permutation_app_comm.
  - intros Hg. unfold allTiled in *; simpl. rewrite (IH Hg).
    by rewrite (assoc_L (++)).
Qed.

Lemma pushTileFile_get key tf m :
  jsmap_get key (Dense.pushTileFile key tf m) = Some (tileFilesAt key m ++ [tf]).
Proof.
  unfold Dense.pushTileFile, jsmap_has, tileFilesAt.
  destruct (jsmap_get key m) eqn:Hg; simpl.
  - by rewrite jsmap_get_set_eq, Hg.
  - by rewrite !jsmap_get_set_eq.
Qed.

Lemma pushTileFile_get_ne key key' tf m :
  key ≠ key' -> jsmap_get key' (Dense.pushTileFile key tf m) = jsmap_get key' m.
Proof.
  intros Hne. unfold Dense.pushTileFile, jsmap_has.
  destruct (jsmap_get key m); by rewrite !jsmap_get_set_ne.
Qed.

Lemma pushTileFile_perm key tf m :
  allTiled (Dense.pushTileFile key tf m) ≡ₚ allTiled m ++ [tf].
Proof.
  unfold Dense.pushTileFile, jsmap_has, tileFilesAt.
  destruct (jsmap_get key m) as [l|] eqn:Hg; simpl.
  - rewrite Hg; simpl. by apply allTiled_set_app.
  - rewrite jsmap_get_set_eq; simpl.
    rewrite (allTiled_set_app key [] tf) by apply jsmap_get_set_eq.
    rewrite (jsmap_set_new _ _ _ Hg), allTiled_app.
    unfold allTiled at 2; simpl. by rewrite !app_nil_r.
Qed.

Lemma pushTileFile_keys_NoDup key tf m :
  NoDup (jsmap_keys m) -> NoDup (jsmap_keys (Dense.pushTileFile key tf m)).
Proof.
  intros Hnd. unfold Dense.pushTileFile.
  destruct (jsmap_has key m); by repeat apply jsmap_keys_set_NoDup.
Qed.

Lemma pushTileFile_nonempty key tf m : Dense.pushTileFile key tf m ≠ [].
Proof. unfold Dense.pushTileFile. apply jsmap_set_nonempty. Qed.

Lemma pushTileFile_keyed key tf m :
  NoDup (jsmap_keys m) -> key = (tileX tf, tileY tf) -> keyed m ->
  keyed (Dense.pushTileFile key tf m).
Proof.
  intros Hnd Hkey Hm k l x Hin Hx.
  assert (Hnd' := pushTileFile_keys_NoDup key tf m Hnd).
  apply (jsmap_elem_get _ _ _ Hnd') in Hin.
  destruct (decide (key = k)) as [<-|Hne].
  - rewrite pushTileFile_get in Hin. injection Hin as <-.
    apply elem_of_app in Hx as [Hx|Hx%list_elem_of_singleton]; [|by subst].
    unfold tileFilesAt in Hx. destruct (jsmap_get key m) as [l0|] eqn:Hg; simpl in Hx.
    + eapply Hm; [|done]. by apply jsmap_get_Some_elem.
    + by apply elem_of_nil in Hx.
  - rewrite pushTileFile_get_ne in Hin by done.
    eapply Hm; [|done]. by apply jsmap_get_Some_elem.
Qed.

Lemma organizeStep_unfold s m entry :
  Dense.organizeStep (set_allTileFiles m s) entry
  = set_allTileFiles
      (match tileFileFor s entry with
       | Some tf => Dense.pushTileFile (tileX tf, tileY tf) tf m
       | None => m
       end) s.
Proof.
  destruct entry as [filename coords].
  unfold Dense.organizeStep, tileFileFor; simpl.
  by destruct (List.find _ _).
Qed.

(** The loop of [organizeFilesIntoTiles] touches the tile store only; the
    store gains the entries of the files, each under its own key. *)
Lemma organize_fold entries s m :
  exists m',
    fold_left Dense.organizeStep entries (set_allTileFiles m s)
    = set_allTileFiles m' s
    /\ allTiled m' ≡ₚ allTiled m ++ omap (tileFileFor s) entries
    /\ (NoDup (jsmap_keys m) -> NoDup (jsmap_keys m'))
    /\ (NoDup (jsmap_keys m) -> keyed m -> keyed m')
    /\ (m ≠ [] -> m' ≠ []).
Proof.
  revert m. induction entries as [|entry entries IH]; intros m; simpl.
  - exists m. rewrite app_nil_r. by split_and!.
  - rewrite organizeStep_unfold.
    destruct (tileFileFor s entry) as [tf|] eqn:Htf; [|apply IH].
    destruct (IH (Dense.pushTileFile (tileX tf, tileY tf) tf m))
      as (m' & Hfold & Hperm & Hnd & Hkeyed & Hne).
    exists m'. split_and!; [done| | | |].
    + rewrite Hperm, pushTileFile_perm. by rewrite <- (assoc_L (++)).
    + intros H. by apply Hnd, pushTileFile_keys_NoDup.
    + intros H1 H2. apply Hkeyed.
      * by apply pushTileFile_keys_NoDup.
      * by apply pushTileFile_keyed.
    + intros _. apply Hne, pushTileFile_nonempty.
Qed.

(** ** The analysis pass *)

Lemma analyzeFile_cases s f :
  (exists c, extractCoordinatesFromFile f = Some c /\ analyzable f = true
     /\ analyzeFile s f
        = set_fileCoordinates (jsmap_set (name f) c (fileCoordinates s)) s)
  \/ (extractCoordinatesFromFile f = None /\ analyzable f = false
      /\ analyzeFile s f = emit (ErrorAnalyzing (name f)) s).
Proof.
  unfold analyzeFile, analyzable, extractCoordinatesFromFile.
  destruct (decoded f); [left; by eexists|by right].
Qed.

Lemma analyze_fold fs s :
  let s' := fold_left analyzeFile fs s in
  console s' = console s ++ analysisErrors fs
  /\ besidesAnalysis s' = besidesAnalysis s
  /\ (forall nm, nm ∈ jsmap_keys (fileCoordinates s') ->
        nm ∈ jsmap_keys (fileCoordinates s) \/ exists f, f ∈ fs /\ name f = nm)
  /\ (NoDup (jsmap_keys (fileCoordinates s) ++ (name <$> fs)) ->
        fileCoordinates s' = fileCoordinates s ++ entriesOf fs).
Proof.
  revert s. induction fs as [|f fs IH]; intros s; simpl.
  - rewrite !app_nil_r. split_and!; [done|done|by left|done].
  - destruct (IH (analyzeFile s f)) as (Hc & Hb & Hk & Hf). clear IH.
    unfold analysisErrors, entriesOf in *; simpl.
    destruct (analyzeFile_cases s f) as [(c & Hex & Han & Hstep)|(Hex & Han & Hstep)];
      rewrite Hstep in *; rewrite Hex, Han; simpl in *.
    + split_and!; [done|done| |].
      * intros nm [Hin|[g [Hg <-]]]%Hk; [|right; exists g; split; [by right|done]].
        rewrite jsmap_keys_set in Hin. destruct (jsmap_has _ _); [by left|].
        apply elem_of_app in Hin as [?| ->%list_elem_of_singleton]; [by left|].
        right. exists f. split; [by left|done].
      * intros Hnd. apply NoDup_app in Hnd as (Hnd1 & Hdisj & Hnd2).
        apply NoDup_cons in Hnd2 as [Hf1 Hf2].
        assert (Hnone : jsmap_get (name f) (fileCoordinates s) = None).
        { apply jsmap_get_None_keys. intros Hin. apply (Hdisj _ Hin). by left. }
        rewrite jsmap_set_new in Hf |- * by done.
        rewrite Hf.
        -- by rewrite <- (assoc_L (++)).
        -- unfold jsmap_keys. rewrite map_app; simpl.
           rewrite <- (assoc_L (++)); simpl.
           apply NoDup_app. split_and!; [done| |by apply NoDup_cons].
           intros x Hx. apply Hdisj in Hx. done.
    + split_and!.
      * by rewrite Hc, <- (assoc_L (++)).
      * done.
      * intros nm [Hin|[g [Hg <-]]]%Hk; [by left|].
        right; exists g; split; [by right|done].
      * intros Hnd. 
        apply Hf. apply NoDup_app in Hnd as (Hnd1 & Hdisj & Hnd2).
        apply NoDup_cons in Hnd2 as [Hf1 Hf2].
        apply NoDup_app. split_and!; [done| |done].
        intros x Hx Hx'. apply (Hdisj _ Hx). by right.
Qed.

Lemma analyzeAllFiles_spec s :
  let s' := analyzeAllFiles s in
  console s' = console s ++ analysisErrors (plyFiles s)
  /\ besidesAnalysis s' = besidesAnalysis s
  /\ (forall nm, nm ∈ jsmap_keys (fileCoordinates s') ->
        exists f, f ∈ plyFiles s /\ name f = nm)
  /\ (NoDup (name <$> plyFiles s) -> fileCoordinates s' = entriesOf (plyFiles s)).
Proof.
  unfold analyzeAllFiles.
  destruct (analyze_fold (plyFiles s) (set_fileCoordinates [] s)) as (Hc & Hb & Hk & Hf).
  simpl in *. split_and!; [done|done| |done].
  intros nm [Hin|?]%Hk; [|done]. by apply elem_of_nil in Hin.
Qed.

Lemma besidesAnalysis_plyFiles s s' :
  besidesAnalysis s' = besidesAnalysis s -> plyFiles s' = plyFiles s.
Proof. intros H. exact (f_equal (fun c => c.1.1.1.1.1.1.1) H). Qed.

Lemma find_by_name files f :
  NoDup (name <$> files) -> f ∈ files ->
  List.find (fun g => bool_decide (name g = name f)) files = Some f.
Proof.
  induction files as [|g files IH]; simpl.
  - intros _ Hin. by apply elem_of_nil in Hin.
  - intros [Hg Hnd]%NoDup_cons [->|Hin]%elem_of_cons.
    + by rewrite bool_decide_eq_true_2.
    + rewrite bool_decide_eq_false_2; [by apply IH|].
      intros Heq. apply Hg. rewrite Heq. by apply list_elem_of_fmap_2.
Qed.

Lemma find_name_is_Some files nm :
  (exists f, f ∈ files /\ name f = nm) ->
  is_Some (List.find (fun g => bool_decide (name g = nm)) files).
Proof.
  intros (f & Hin & <-). induction files as [|g files IH]; simpl.
  - by apply elem_of_nil in Hin.
  - destruct (bool_decide (name g = name f)) eqn:Hb; [by eexists|].
    apply elem_of_cons in Hin as [->|Hin]; [|by apply IH].
    by rewrite bool_decide_eq_true_2 in Hb.
Qed.

(** With distinct names every analysed file gets an entry of its own. *)
Lemma tileFiles_of_entries s fs :
  NoDup (name <$> plyFiles s) -> (forall f, f ∈ fs -> f ∈ plyFiles s) ->
  file <$> omap (tileFileFor s) (entriesOf fs) = List.filter analyzable fs.
Proof.
  intros Hnd. induction fs as [|f fs IH]; intros Hsub; [done|].
  unfold entriesOf in *; simpl.
  destruct (analyzeFile_cases s f) as [(c & -> & -> & _)|(-> & -> & _)]; simpl.
  - unfold tileFileFor at 1; simpl. rewrite find_by_name; [|done|apply Hsub; by left].
    simpl. f_equal. apply IH. intros g Hg. apply Hsub. by right.
  - apply IH. intros g Hg. apply Hsub. by right.
Qed.

Lemma dense_organize_store s :
  exists m',
    Dense.organizeFilesIntoTiles s
    = set_currentTile (coord_half (Dense.totalTilesX s), coord_half (Dense.totalTilesY s))
        (set_allTileFiles m' s)
    /\ allTiled m' ≡ₚ omap (tileFileFor s) (fileCoordinates s)
    /\ NoDup (jsmap_keys m')
    /\ keyed m'.
Proof.
  unfold Dense.organizeFilesIntoTiles; simpl.
  destruct (organize_fold (fileCoordinates s) s []) as (m' & Hfold & Hperm & Hnd & Hkeyed & _).
  exists m'. rewrite Hfold. split_and!; [done|done|apply Hnd, NoDup_nil_2|].
  apply Hkeyed; [apply NoDup_nil_2|]. intros key l tf Hin. by apply elem_of_nil in Hin.
Qed.

Lemma computeGridFrame_besides k s :
  besidesFrame (computeGridFrame k s) = besidesFrame s.
Proof.
  unfold computeGridFrame.
  destruct (boundsLoop _) as [[[a b] c] d]. by destruct (extentLoop _) as [[x y] n].
Qed.

Lemma computeGridFrame_fields k s :
  plyFiles (computeGridFrame k s) = plyFiles s
  /\ fileCoordinates (computeGridFrame k s) = fileCoordinates s
  /\ console (computeGridFrame k s) = console s.
Proof.
  pose proof (computeGridFrame_besides k s) as H. unfold besidesFrame in H.
  injection H as ? ? ? ? ? ? ? ? ? ? ?. done.
Qed.

Lemma elem_of_concat {A} (x : A) (ls : list (list A)) :
  x ∈ concat ls <-> exists l, l ∈ ls /\ x ∈ l.
Proof.
  rewrite list_elem_of_In, in_concat. split.
  - intros (l & H1 & H2). exists l. by rewrite !list_elem_of_In.
  - intros (l & H1 & H2). exists l. by rewrite <- !list_elem_of_In.
Qed.

(** The files of a tile are among the files of the store; a file that occurs
    once in the store sits in one tile only. *)
Lemma tileFilesAt_allTiled key m tf :
  tf ∈ tileFilesAt key m -> tf ∈ allTiled m.
Proof.
  unfold tileFilesAt. destruct (jsmap_get key m) as [l|] eqn:Hg; simpl.
  - intros Hin. apply jsmap_get_Some_elem in Hg.
    unfold allTiled, jsmap_values. apply elem_of_concat. exists l.
    split; [|done]. apply list_elem_of_fmap. by exists (key, l).
  - intros Hin. by apply elem_of_nil in Hin.
Qed.

Lemma allTiled_elem m tf :
  tf ∈ allTiled m -> exists key l, (key, l) ∈ m /\ tf ∈ l.
Proof.
  unfold allTiled, jsmap_values. intros (l & Hin & Hl)%elem_of_concat.
  apply list_elem_of_fmap in Hin as ([key l'] & -> & Hin). by exists key, l'.
Qed.

Lemma store_unique_tile m k1 l1 k2 l2 (f : File) :
  NoDup (file <$> allTiled m) ->
  (k1, l1) ∈ m -> (k2, l2) ∈ m -> f ∈ file <$> l1 -> f ∈ file <$> l2 ->
  NoDup (jsmap_keys m) -> k1 = k2.
Proof.
  induction m as [|[k l] m IH]; intros Hnd H1 H2 Hf1 Hf2 Hkeys.
  - by apply elem_of_nil in H1.
  - unfold allTiled in Hnd; simpl in Hnd. rewrite fmap_app in Hnd.
    apply NoDup_app in Hnd as (Hl & Hdisj & Hrest).
    apply NoDup_cons in Hkeys as [Hk Hkeys].
    assert (Hin : forall k' l', (k', l') ∈ m -> f ∈ file <$> l' ->
                    f ∈ file <$> concat (map snd m)).
    { intros k' l' Hm (tf & -> & Htf)%list_elem_of_fmap.
      apply list_elem_of_fmap_2. apply elem_of_concat. exists l'.
      split; [|done]. apply list_elem_of_fmap. by exists (k', l'). }
    apply elem_of_cons in H1 as [[= -> ->]|H1];
      apply elem_of_cons in H2 as [[= -> ->]|H2].
    + done.
    + exfalso. apply (Hdisj f Hf1). by eapply Hin.
    + exfalso. apply (Hdisj f Hf2). by eapply Hin.
    + by apply IH.
Qed.

Lemma entriesOf_nonempty fs f :
  f ∈ fs -> analyzable f = true -> entriesOf fs ≠ [].
Proof.
  induction fs as [|g fs IH]; intros Hin Hf.
  - by apply elem_of_nil in Hin.
  - unfold entriesOf; simpl.
    destruct (analyzeFile_cases init_state g) as [(c & -> & _)|(-> & Hg & _)]; [done|].
    apply elem_of_cons in Hin as [->|Hin]; [congruence|]. simpl. by apply IH.
Qed.

(** ** The partition of the analysed files into tiles (C3, C9) *)

Lemma dense_calculate_nonempty s :
  fileCoordinates s ≠ [] ->
  Dense.calculateGridOrganization s
  = Dense.organizeFilesIntoTiles (computeGridFrame Dense.multiplier s).
Proof. unfold Dense.calculateGridOrganization. by destruct (fileCoordinates s). Qed.

Lemma dense_calculate_empty s :
  fileCoordinates s = [] -> Dense.calculateGridOrganization s = s.
Proof. unfold Dense.calculateGridOrganization. by intros ->. Qed.

Lemma dense_partition s :
  NoDup (name <$> plyFiles s) ->
  fileCoordinates (analyzeAllFiles s) ≠ [] ->
  let s' := Dense.calculateGridOrganization (analyzeAllFiles s) in
  tiledFiles s' ≡ₚ List.filter analyzable (plyFiles s)
  /\ NoDup (jsmap_keys (allTileFiles s'))
  /\ keyed (allTileFiles s').
Proof.
  intros Hnd Hne. cbv zeta.
  destruct (analyzeAllFiles_spec s) as (_ & Hb%besidesAnalysis_plyFiles & _ & Hfc).
  specialize (Hfc Hnd).
  rewrite dense_calculate_nonempty by done.
  set (s2 := computeGridFrame Dense.multiplier (analyzeAllFiles s)).
  destruct (computeGridFrame_fields Dense.multiplier (analyzeAllFiles s))
    as (Hp & Hf & _). fold s2 in Hp, Hf.
  destruct (dense_organize_store s2) as (m' & -> & Hperm & Hkeys & Hkeyed).
  unfold tiledFiles; simpl. split_and!; [|done|done].
  rewrite Hperm, Hf, Hfc. rewrite tileFiles_of_entries; [done| |].
  - by rewrite Hp, Hb.
  - intros f Hin. by rewrite Hp, Hb.
Qed.

Lemma filesOfTile_tiled key s f : f ∈ filesOfTile key s -> f ∈ tiledFiles s.
Proof.
  unfold filesOfTile, tiledFiles. intros (tf & -> & Hin)%list_elem_of_fmap.
  apply list_elem_of_fmap_2. by eapply tileFilesAt_allTiled.
Qed.

Lemma tiled_in_some_tile s f :
  NoDup (jsmap_keys (allTileFiles s)) ->
  f ∈ tiledFiles s -> exists key, f ∈ filesOfTile key s.
Proof.
  unfold tiledFiles, filesOfTile. intros Hkeys (tf & -> & Hin)%list_elem_of_fmap.
  apply allTiled_elem in Hin as (key & l & Hm & Hin).
  exists key. apply list_elem_of_fmap_2. unfold tileFilesAt.
  by rewrite (jsmap_elem_get _ _ _ Hkeys Hm).
Qed.

Lemma tile_unique s f key key' :
  NoDup (tiledFiles s) -> NoDup (jsmap_keys (allTileFiles s)) ->
  f ∈ filesOfTile key s -> f ∈ filesOfTile key' s -> key' = key.
Proof.
  unfold tiledFiles, filesOfTile, tileFilesAt. intros Hnd Hkeys H1 H2.
  destruct (jsmap_get key (allTileFiles s)) as [l|] eqn:Hg;
    [|by apply elem_of_nil in H1].
  destruct (jsmap_get key' (allTileFiles s)) as [l'|] eqn:Hg';
    [|by apply elem_of_nil in H2].
  simpl in *. apply jsmap_get_Some_elem in Hg, Hg'.
  by eapply (store_unique_tile _ key' l' key l f).
Qed.

Lemma filter_analyzable_elem f fs :
  f ∈ List.filter analyzable fs <-> f ∈ fs /\ analyzable f = true.
Proof. by rewrite list_elem_of_In, filter_In, <- list_elem_of_In. Qed.

Lemma NoDup_of_names (fs : list File) : NoDup (name <$> fs) -> NoDup fs.
Proof. apply NoDup_fmap_1. Qed.

Lemma NoDup_filter_analyzable fs : NoDup fs -> NoDup (List.filter analyzable fs).
Proof.
  induction 1 as [|f fs Hf Hnd IH]; simpl; [constructor|].
  destruct (analyzable f); [|done]. constructor; [|done].
  rewrite filter_analyzable_elem. by intros [? _].
Qed.

(** C3: under the dense policy the datasets of a folder (their names are
    pairwise distinct, as the identifiers of datasets are) whose bounding
    box was extracted are partitioned by the tiles: the files of all tiles
    together are a rearrangement of these datasets, none occurs twice, and
    each sits in exactly one tile. *)
Theorem C3_dense_partition s :
  NoDup (name <$> plyFiles s) ->
  (exists f, f ∈ plyFiles s /\ analyzable f = true) ->
  let s' := Dense.calculateGridOrganization (analyzeAllFiles s) in
  tiledFiles s' ≡ₚ List.filter analyzable (plyFiles s)
  /\ NoDup (tiledFiles s')
  /\ (forall f, f ∈ plyFiles s -> analyzable f = true ->
        exists key, f ∈ filesOfTile key s'
                    /\ forall key', f ∈ filesOfTile key' s' -> key' = key)
  /\ (forall f key, f ∈ filesOfTile key s' -> f ∈ plyFiles s /\ analyzable f = true).
Proof.
  intros Hnd (f0 & Hf0 & Ha0). cbv zeta.
  assert (Hne : fileCoordinates (analyzeAllFiles s) ≠ []).
  { destruct (analyzeAllFiles_spec s) as (_ & _ & _ & Hfc).
    rewrite Hfc by done. by eapply entriesOf_nonempty. }
  destruct (dense_partition s Hnd Hne) as (Hperm & Hkeys & _).
  set (s' := Dense.calculateGridOrganization (analyzeAllFiles s)) in *.
  assert (Hnd' : NoDup (tiledFiles s')).
  { rewrite Hperm. by apply NoDup_filter_analyzable, NoDup_of_names. }
  split_and!; [done|done| |].
  - intros f Hf Ha.
    assert (Hin : f ∈ tiledFiles s') by (rewrite Hperm; by apply filter_analyzable_elem).
    destruct (tiled_in_some_tile s' f Hkeys Hin) as [key Hkey].
    exists key. split; [done|]. intros key' Hkey'. by eapply tile_unique.
  - intros f key Hin%filesOfTile_tiled. rewrite Hperm in Hin.
    by apply filter_analyzable_elem.
Qed.

(** The theorem at the folder of [scanA] and [scanB]. *)
Lemma C3_dense_partition_witness :
  let s' := Dense.calculateGridOrganization
              (analyzeAllFiles (set_plyFiles [scanA; scanB] init_state)) in
  tiledFiles s' ≡ₚ [scanA; scanB]
  /\ exists key, scanB ∈ filesOfTile key s'
                 /\ forall key', scanB ∈ filesOfTile key' s' -> key' = key.
Proof.
  assert (Hnd : NoDup (name <$> plyFiles (set_plyFiles [scanA; scanB] init_state))).
  { apply (bool_decide_unpack _). by vm_compute. }
  assert (Hex : exists f, f ∈ plyFiles (set_plyFiles [scanA; scanB] init_state)
                          /\ analyzable f = true).
  { exists scanA. split; [left|reflexivity]. }
  destruct (C3_dense_partition _ Hnd Hex) as (Hperm & _ & Hone & _).
  split; [exact Hperm|].
  apply Hone; [right; left|reflexivity].
Defined.

(** ** Extraction failures (C9) *)

Lemma name_inj_on (fs : list File) f g :
  NoDup (name <$> fs) -> f ∈ fs -> g ∈ fs -> name f = name g -> f = g.
Proof.
  induction fs as [|h fs IH]; simpl.
  - intros _ Hin. by apply elem_of_nil in Hin.
  - intros [Hh Hnd]%NoDup_cons [->|Hf]%elem_of_cons [->|Hg]%elem_of_cons Heq.
    + done.
    + exfalso. apply Hh. rewrite Heq. by apply list_elem_of_fmap_2.
    + exfalso. apply Hh. rewrite <- Heq. by apply list_elem_of_fmap_2.
    + by apply IH.
Qed.

Lemma entriesOf_keys fs :
  jsmap_keys (entriesOf fs) = name <$> List.filter analyzable fs.
Proof.
  induction fs as [|g fs IH]; [done|]. unfold entriesOf, jsmap_keys in *; simpl.
  destruct (analyzeFile_cases init_state g) as [(c & -> & -> & _)|(-> & -> & _)];
    simpl; [f_equal|]; exact IH.
Qed.

Lemma analysisErrors_cons g fs :
  analysisErrors (g :: fs)
  = if analyzable g then analysisErrors fs
    else ErrorAnalyzing (name g) :: analysisErrors fs.
Proof. unfold analysisErrors; simpl. by destruct (analyzable g). Qed.

Lemma errors_absent fs nm :
  nm ∉ name <$> fs -> filter (.= ErrorAnalyzing nm) (analysisErrors fs) = [].
Proof.
  induction fs as [|g fs IH]; [done|]. rewrite fmap_cons, not_elem_of_cons.
  intros [Hne Hnin]. rewrite analysisErrors_cons.
  destruct (analyzable g); [by apply IH|].
  rewrite filter_cons_False; [by apply IH|]. congruence.
Qed.

Lemma errors_once fs f :
  NoDup (name <$> fs) -> f ∈ fs -> analyzable f = false ->
  length (filter (.= ErrorAnalyzing (name f)) (analysisErrors fs)) = 1%nat.
Proof.
  induction fs as [|g fs IH].
  - intros _ Hin. by apply elem_of_nil in Hin.
  - rewrite fmap_cons, analysisErrors_cons.
    intros [Hg Hnd]%NoDup_cons [->|Hin]%elem_of_cons Hf.
    + rewrite Hf, filter_cons_True by done. simpl. by rewrite errors_absent.
    + assert (Hne : name g ≠ name f).
      { intros Heq. apply Hg. rewrite Heq. by apply list_elem_of_fmap_2. }
      destruct (analyzable g); [by apply IH|].
      rewrite filter_cons_False; [by apply IH|]. congruence.
Qed.

Lemma dense_calculate_console s :
  console (Dense.calculateGridOrganization s) = console s.
Proof.
  unfold Dense.calculateGridOrganization. destruct (fileCoordinates s); [done|].
  destruct (dense_organize_store (computeGridFrame Dense.multiplier s)) as (m' & -> & _).
  simpl. apply computeGridFrame_fields.
Qed.

(** C9: a dataset whose bounding box cannot be extracted (names being
    pairwise distinct) gets no entry in [fileCoordinates], the analysis goes
    on with the other files, and exactly one error about it is logged;
    unless no dataset at all is left, the organizer then runs and tiles
    exactly the other datasets, without it. *)
Theorem C9_extraction_failure s f :
  NoDup (name <$> plyFiles s) -> f ∈ plyFiles s -> analyzable f = false ->
  let s1 := analyzeAllFiles s in
  let s' := Dense.calculateGridOrganization s1 in
  (exists errs, console s' = console s ++ errs
       /\ length (filter (.= ErrorAnalyzing (name f)) errs) = 1%nat)
  /\ fileCoordinates s1 = entriesOf (plyFiles s)
  /\ jsmap_get (name f) (fileCoordinates s1) = None
  /\ (((forall g, g ∈ plyFiles s -> analyzable g = false) /\ s' = s1)
      \/ ((f ∉ tiledFiles s')
          /\ tiledFiles s' ≡ₚ List.filter analyzable (plyFiles s))).
Proof.
  intros Hnd Hf Hbad. cbv zeta.
  destruct (analyzeAllFiles_spec s) as (Hcons & _ & _ & Hfc). specialize (Hfc Hnd).
  split_and!.
  - exists (analysisErrors (plyFiles s)). rewrite dense_calculate_console.
    split; [done|]. by apply errors_once.
  - done.
  - rewrite Hfc. apply jsmap_get_None_keys. rewrite entriesOf_keys.
    intros (g & Heq & [Hg Hga]%filter_analyzable_elem)%list_elem_of_fmap.
    assert (f = g) by by eapply name_inj_on. congruence.
  - destruct (fileCoordinates (analyzeAllFiles s)) as [|e es] eqn:He.
    + left. split; [|by apply dense_calculate_empty].
      intros g Hg. destruct (analyzable g) eqn:Hga; [|done].
      exfalso. symmetry in Hfc. by eapply entriesOf_nonempty.
    + right. destruct (dense_partition s Hnd) as (Hperm & _); [by rewrite He|].
      split; [|done]. rewrite Hperm. intros [_ ?]%filter_analyzable_elem. congruence.
Qed.

(** The theorem at the folder [scanA], [scanBad], [scanB]: one error about
    [scanBad], which is in no tile, and the two other files tiled. *)
Lemma C9_extraction_failure_witness :
  let s := set_plyFiles [scanA; scanBad; scanB] init_state in
  let s' := Dense.calculateGridOrganization (analyzeAllFiles s) in
  (exists errs, console s' = console s ++ errs
       /\ length (filter (.= ErrorAnalyzing "bad.ply") errs) = 1%nat)
  /\ (scanBad ∉ tiledFiles s')
  /\ tiledFiles s' ≡ₚ [scanA; scanB].
Proof.
  assert (Hnd : NoDup (name <$> plyFiles (set_plyFiles [scanA; scanBad; scanB] init_state))).
  { apply (bool_decide_unpack _). by vm_compute. }
  assert (Hin : scanBad ∈ plyFiles (set_plyFiles [scanA; scanBad; scanB] init_state)).
  { right; left. }
  destruct (C9_extraction_failure _ scanBad Hnd Hin eq_refl) as (Herr & _ & _ & Htiles).
  split; [exact Herr|].
  destruct Htiles as [[Hnone _]|Htiles]; [|exact Htiles].
  pose proof (Hnone scanA ltac:(left)) as H. discriminate H.
Defined.

(** ** Point clouds and the scene *)

Lemma sceneRemove_fold ps sc q :
  q ∈ fold_left (fun sc p => sceneRemove p sc) ps sc
  <-> q ∈ sc /\ pointsId q ∉ pointsId <$> ps.
Proof.
  revert sc. induction ps as [|p ps IH]; intros sc; simpl.
  - split; [intros ?; split; [done|apply not_elem_of_nil]|by intros [? _]].
  - rewrite IH. unfold sceneRemove. rewrite list_elem_of_filter, not_elem_of_cons.
    tauto.
Qed.

(** [clearCurrentPointClouds] takes every current point cloud out of the
    scene. *)
Lemma clear_removes s p :
  p ∈ currentPointClouds s -> p ∉ scene (clearCurrentPointClouds s).
Proof.
  intros Hp. simpl. rewrite sceneRemove_fold.
  intros [_ Hid]. apply Hid. by apply list_elem_of_fmap_2.
Qed.

Lemma clear_scene_nil s :
  scene s = currentPointClouds s -> scene (clearCurrentPointClouds s) = [].
Proof.
  intros Hs. apply elem_of_nil_inv. intros p Hp.
  assert (Hin : p ∈ currentPointClouds s).
  { rewrite <- Hs. simpl in Hp. by apply sceneRemove_fold in Hp as [? _]. }
  by apply (clear_removes s p).
Qed.

Lemma clear_clouds_ok s : clouds_ok s -> clouds_ok (clearCurrentPointClouds s).
Proof.
  intros [Hids Hsc]. split.
  - intros p. rewrite (clear_scene_nil s Hsc). simpl.
    intros Hin. by apply elem_of_nil in Hin.
  - by rewrite clear_scene_nil.
Qed.

Lemma loadFileForTile_clouds_ok tf s :
  clouds_ok s -> clouds_ok (loadFileForTile tf s).1.
Proof.
  intros [Hids Hsc]. unfold loadFileForTile.
  destruct (loadable (file tf)); simpl; [|done].
  split; simpl; [|by rewrite Hsc].
  intros p Hp. unfold ids_fresh in Hids.
  assert (Hcases : p ∈ currentPointClouds s ++ scene s
                   \/ p = {| pointsId := nextId s; source := file tf |}).
  { simpl in Hp. rewrite !elem_of_app in Hp. rewrite !elem_of_app.
    rewrite !list_elem_of_singleton in Hp. tauto. }
  destruct Hcases as [Hold| ->]; simpl; [apply Hids in Hold; lia|lia].
Qed.

Lemma loadFiles_clouds_ok files s : clouds_ok s -> clouds_ok (loadFiles files s).1.
Proof.
  revert s. induction files as [|tf files IH]; intros s Hs; simpl; [done|].
  pose proof (loadFileForTile_clouds_ok tf s Hs) as Hs'.
  destruct (loadFileForTile tf s) as [s' [|]]; simpl in *; [by apply IH|done].
Qed.

(** ** The invariant of a session of the first variant *)

Lemma initial_consistent_catalog s s' :
  catalogOf s' = catalogOf s -> initial_consistent s -> initial_consistent s'.
Proof.
  intros (_ & _ & _ & _ & _ & _ & _ & Hall & _ & Hini & _)%catalog_fields.
  unfold initial_consistent. by rewrite Hall, Hini.
Qed.

Lemma frame_initial_grid s s' :
  gridOf s' = gridOf s -> frame_initial s -> frame_initial s'.
Proof.
  unfold gridOf, frame_initial. intros [= -> -> -> -> -> -> _]. done.
Qed.

Lemma loadInitialTile_inv key s :
  let s' := (Dense.loadInitialTile key s).1 in
  gridOf s' = gridOf s
  /\ (clouds_ok s -> clouds_ok s')
  /\ (initial_consistent s -> initial_consistent s').
Proof.
  cbv zeta. unfold Dense.loadInitialTile, tileFilesAt.
  destruct (jsmap_get key (allTileFiles s)) as [[|firstFile rest]|] eqn:Hg;
    simpl; try done.
  set (s0 := set_initialTileFiles _ s).
  pose proof (loadFileForTile_catalog firstFile s0) as Hc.
  split_and!.
  - by apply grid_of_catalog in Hc.
  - intros Hok. by apply loadFileForTile_clouds_ok.
  - intros Hini. apply (initial_consistent_catalog _ _ Hc).
    intros k l. subst s0; simpl. destruct (decide (key = k)) as [<-|Hne].
    + rewrite jsmap_get_set_eq. intros [= <-]. by exists firstFile, rest.
    + rewrite jsmap_get_set_ne by done. apply Hini.
Qed.

Lemma loadInitialTilesAt_inv keys s :
  let s' := (Dense.loadInitialTilesAt keys s).1 in
  gridOf s' = gridOf s
  /\ (clouds_ok s -> clouds_ok s')
  /\ (initial_consistent s -> initial_consistent s').
Proof.
  cbv zeta. revert s. induction keys as [|key keys IH]; intros s; simpl; [done|].
  destruct (loadInitialTile_inv key s) as (Hg & Hc & Hi).
  destruct (Dense.loadInitialTile key s) as [s1 [|]]; simpl in *; [|done].
  destruct (IH s1) as (Hg' & Hc' & Hi'). split_and!.
  - by rewrite Hg'.
  - intros ?. by apply Hc', Hc.
  - intros ?. by apply Hi', Hi.
Qed.

Lemma dense_loadInitialTiles_inv s s' :
  settled (Dense.loadInitialTiles s) = Some s' ->
  gridOf s' = gridOf s
  /\ (clouds_ok s -> clouds_ok s')
  /\ initial_consistent s'.
Proof.
  unfold Dense.loadInitialTiles.
  set (s0 := set_initialTileFiles [] (clearCurrentPointClouds s)).
  assert (H0 : gridOf s0 = gridOf s /\ (clouds_ok s -> clouds_ok s0)
               /\ initial_consistent s0).
  { split_and!; [done|apply clear_clouds_ok|]. intros k l. by subst s0. }
  destruct H0 as (Hg0 & Hc0 & Hi0).
  assert (Hloop : forall keys s1 ok, Dense.loadInitialTilesAt keys s0 = (s1, ok) ->
            gridOf s1 = gridOf s /\ (clouds_ok s -> clouds_ok s1)
            /\ initial_consistent s1).
  { intros keys s1 ok Heq. destruct (loadInitialTilesAt_inv keys s0) as (Hg & Hc & Hi).
    rewrite Heq in *; simpl in *. split_and!; [congruence|auto|auto]. }
  destruct (currentTile s0) as [cx cy].
  destruct cx as [x| | |], cy as [y| | |]; cbn [Dense.tileRange];
    try done; try (intros [= <-]; done);
    match goal with
    | |- context [Dense.loadInitialTilesAt ?ks s0] =>
        destruct (Dense.loadInitialTilesAt ks s0) as [s1 ok] eqn:Heq;
        destruct (Hloop _ _ _ Heq) as (? & ? & ?);
        destruct ok; simpl; try done; intros [= <-]; done
    end.
Qed.

Lemma dense_navigate_catalog d s :
  exists t, catalogOf (Dense.navigate d s) = catalogOf (set_currentTile t s).
Proof.
  unfold Dense.navigate. destruct (allTileFiles s); [by exists (currentTile s)|].
  destruct (destination d (currentTile s)) as [nx ny].
  destruct (_ || _); [|by exists (currentTile s)].
  exists (nx, ny). apply dense_loadCurrentTile_catalog.
Qed.

Lemma dense_navigate_clouds_ok d s : clouds_ok s -> clouds_ok (Dense.navigate d s).
Proof.
  intros Hs. unfold Dense.navigate. destruct (allTileFiles s); [done|].
  destruct (destination d (currentTile s)) as [nx ny].
  destruct (_ || _); [|done].
  unfold Dense.loadCurrentTile. apply loadFiles_clouds_ok.
  by apply (clear_clouds_ok (set_currentTile (nx, ny) s)).
Qed.

Lemma dense_navigate_inv d s : session_inv s -> session_inv (Dense.navigate d s).
Proof.
  intros [Hids Hsc Hini Hfr].
  destruct (dense_navigate_clouds_ok d s) as [Hids' Hsc']; [done|].
  destruct (dense_navigate_catalog d s) as [t Hc].
  split; [done|done| |].
  - by apply (initial_consistent_catalog _ _ Hc).
  - apply catalog_fields in Hc as (_ & _ & Ha & Hb & Hc & Hd & He & Hf & _).
    simpl in *. unfold frame_initial. by rewrite Ha, Hb, Hc, Hd, He, Hf.
Qed.

Lemma dense_calculate_besides s :
  besidesGrid (Dense.calculateGridOrganization s) = besidesGrid s.
Proof.
  unfold Dense.calculateGridOrganization. destruct (fileCoordinates s) eqn:He; [done|].
  destruct (dense_organize_store (computeGridFrame Dense.multiplier s)) as (m' & -> & _).
  pose proof (computeGridFrame_besides Dense.multiplier s) as H.
  unfold besidesFrame in H. injection H as ? ? ? ? ? ? ? ? ? ? ?.
  unfold besidesGrid; simpl. congruence.
Qed.

Lemma dense_calculate_store_nonempty s :
  (forall nm, nm ∈ jsmap_keys (fileCoordinates s) ->
     exists f, f ∈ plyFiles s /\ name f = nm) ->
  fileCoordinates s ≠ [] ->
  allTileFiles (Dense.calculateGridOrganization s) ≠ [].
Proof.
  intros Hkeys Hne. rewrite dense_calculate_nonempty by done.
  destruct (computeGridFrame_fields Dense.multiplier s) as (Hp & Hf & _).
  destruct (dense_organize_store (computeGridFrame Dense.multiplier s))
    as (m' & -> & Hperm & _).
  simpl. rewrite Hf in Hperm. intros ->.
  revert Hperm Hkeys Hne.
  destruct (fileCoordinates s) as [|[nm c] es]; intros Hperm Hkeys Hne; [done|].
  destruct (find_name_is_Some (plyFiles s) nm) as [f Hfind].
  { apply Hkeys. by left. }
  unfold allTiled in Hperm; simpl in Hperm.
  unfold tileFileFor at 1 in Hperm; simpl in Hperm. rewrite Hp, Hfind in Hperm.
  simpl in Hperm. by apply Permutation_nil_cons in Hperm.
Qed.

Lemma clouds_ok_ext s s' :
  currentPointClouds s' = currentPointClouds s -> scene s' = scene s ->
  nextId s' = nextId s -> clouds_ok s -> clouds_ok s'.
Proof. unfold clouds_ok, ids_fresh. by intros -> -> ->. Qed.

Lemma dense_handleFolderSelection_inv files s s' :
  settled (Dense.handleFolderSelection files s) = Some s' ->
  session_inv s -> session_inv s'.
Proof.
  unfold Dense.handleFolderSelection.
  destruct (List.filter is_ply files) as [|f fs] eqn:Hfiles.
  { intros [= <-] [? ? ? ?]. by split. }
  set (s1 := set_initialTilesLoaded false (set_plyFiles (f :: fs) s)).
  set (s2 := analyzeAllFiles s1).
  set (s3 := Dense.calculateGridOrganization s2).
  intros (Hg & Hc & Hi)%dense_loadInitialTiles_inv [Hids Hsc Hini Hfr].
  destruct (analyzeAllFiles_spec s1) as (_ & Hb & Hkeys & _). fold s2 in Hb, Hkeys.
  pose proof (dense_calculate_besides s2) as Hb3. fold s3 in Hb3.
  unfold besidesAnalysis in Hb. injection Hb as Hb1 Hb2 Hb4 Hb5 Hb6 Hb7 Hb8 Hb9.
  unfold besidesGrid in Hb3. injection Hb3 as ? ? ? ? ? ? ? ? ?.
  assert (Hok : clouds_ok s').
  { apply Hc. apply (clouds_ok_ext s); [| | |done]; simpl in *; congruence. }
  destruct Hok as [Hids' Hsc'].
  split; [done|done|done|].
  apply (frame_initial_grid _ _ Hg).
  destruct (fileCoordinates s2) as [|e es] eqn:He.
  - subst s3. rewrite dense_calculate_empty by done.
    unfold frame_initial. rewrite Hb2, Hb4, Hb5, Hb6, Hb7, Hb8. exact Hfr.
  - intros Hall. exfalso. revert Hall. apply dense_calculate_store_nonempty.
    + intros nm Hnm. rewrite He in Hnm. rewrite Hb1. by apply Hkeys.
    + by rewrite He.
Qed.

Lemma session_inv_init : session_inv init_state.
Proof.
  split; try done.
  intros p Hp. by apply elem_of_nil in Hp.
Qed.

Lemma reachable_dense_inv s : reachable_dense s -> session_inv s.
Proof.
  induction 1 as [|files s s' _ IH Hs|d s _ IH].
  - apply session_inv_init.
  - by eapply dense_handleFolderSelection_inv.
  - by apply dense_navigate_inv.
Qed.

(** ** Loading the files of a tile *)

Lemma loadablePrefix_all files :
  Forall (fun tf => loadable (file tf) = true) files -> loadablePrefix files = files.
Proof. induction 1 as [|tf files Htf _ IH]; simpl; [done|]. by rewrite Htf, IH. Qed.

Lemma loadablePrefix_elem files tf :
  tf ∈ loadablePrefix files -> tf ∈ files /\ loadable (file tf) = true.
Proof.
  induction files as [|tf' files IH]; simpl.
  - intros Hin. by apply elem_of_nil in Hin.
  - destruct (loadable (file tf')) eqn:Hl; [|intros Hin; by apply elem_of_nil in Hin].
    intros [->|Hin]%elem_of_cons; [split; [by left|done]|].
    destruct (IH Hin). split; [by right|done].
Qed.

Lemma loadFiles_spec files s :
  let s' := (loadFiles files s).1 in
  exists new,
    currentPointClouds s' = currentPointClouds s ++ new
    /\ scene s' = scene s ++ new
    /\ source <$> new = file <$> loadablePrefix files
    /\ (forall p, p ∈ new -> (nextId s <= pointsId p)%nat)
    /\ loadedNames s' = loadedNames s ∪ list_to_set (name <$> (source <$> new)).
Proof.
  cbv zeta. revert s. induction files as [|tf files IH]; intros s; simpl.
  - exists []. rewrite !app_nil_r. split_and!; [done|done|done| |].
    + intros p Hp. by apply elem_of_nil in Hp.
    + simpl. by rewrite (right_id_L ∅ (∪)).
  - unfold loadFileForTile. destruct (loadable (file tf)) eqn:Hl; simpl.
    + match goal with |- context [loadFiles files ?s0] =>
        destruct (IH s0) as (new & Hc & Hsc & Hsrc & Hid & Hdom) end.
      simpl in *.
      exists ({| pointsId := nextId s; source := file tf |} :: new).
      split_and!.
      * by rewrite Hc, <- (assoc_L (++)).
      * by rewrite Hsc, <- (assoc_L (++)).
      * simpl. f_equal. exact Hsrc.
      * intros p [->|Hp]%elem_of_cons; simpl; [lia|]. apply Hid in Hp. lia.
      * rewrite Hdom. unfold loadedNames; simpl. rewrite dom_insert_L.
        by rewrite (comm_L (∪) {[name (file tf)]}), <- (assoc_L (∪)).
    + exists []. rewrite !app_nil_r. split_and!; [done|done|done| |].
      * intros p Hp. by apply elem_of_nil in Hp.
      * simpl. by rewrite (right_id_L ∅ (∪)).
Qed.

(** ** Moving onto an empty tile (C7) *)

Lemma coord_lt0_false tX : coord_ge0 tX && coord_ltb tX (CInt 0) = false.
Proof.
  destruct tX as [z| | |]; simpl; try done.
  destruct (bool_decide (0 <= z)) eqn:H1; [|done]. simpl.
  apply bool_decide_eq_true in H1. apply bool_decide_eq_false. lia.
Qed.

Lemma frame_initial_no_valid s tX tY :
  frame_initial s -> allTileFiles s = [] -> Dense.isValidTilePosition s tX tY = false.
Proof.
  intros Hfr Hall. destruct (Hfr Hall) as (Ha & Hb & Hc & Hd & He).
  unfold Dense.isValidTilePosition, Dense.totalTilesX, Dense.totalTilesY.
  rewrite Ha, Hb, He.
  change (num_ceil (num_div (num_sub (Fin 0) (Fin 0)) (Fin 50))) with (CInt 0).
  by rewrite coord_lt0_false.
Qed.

Lemma initial_consistent_empty s key :
  initial_consistent s -> tileFilesAt key (allTileFiles s) = [] ->
  tileFilesAt key (initialTileFiles s) = [].
Proof.
  intros Hini Hall. unfold tileFilesAt in *.
  destruct (jsmap_get key (initialTileFiles s)) as [l|] eqn:Hg; [|done].
  destruct (Hini _ _ Hg) as (firstFile & rest & Hg' & ->).
  by rewrite Hg' in Hall.
Qed.

Lemma dense_navigate_empty d s :
  session_inv s ->
  Dense.isValidTilePosition s (destination d (currentTile s)).1
    (destination d (currentTile s)).2 = true ->
  tileFilesAt (destination d (currentTile s)) (allTileFiles s) = [] ->
  currentTile (Dense.navigate d s) = destination d (currentTile s)
  /\ currentPointClouds (Dense.navigate d s) = []
  /\ scene (Dense.navigate d s) = [].
Proof.
  intros [Hids Hsc Hini Hfr] Hvalid Hempty.
  assert (Hne : allTileFiles s ≠ []).
  { intros Hall. by rewrite frame_initial_no_valid in Hvalid. }
  unfold Dense.navigate. revert Hempty.
  destruct (allTileFiles s) as [|e es] eqn:Hall; [done|].
  rewrite <- Hall. intros Hempty.
  destruct (destination d (currentTile s)) as [nx ny]; simpl in *.
  rewrite Hvalid, orb_true_r.
  unfold Dense.loadCurrentTile, Dense.filesToLoad; simpl.
  rewrite Hempty, (initial_consistent_empty s (nx, ny) Hini Hempty).
  destruct (initialTilesLoaded s); simpl;
    (split_and!; [done|done|]);
    by rewrite <- (clear_scene_nil s Hsc).
Qed.

Lemma fixed_navigate_empty d s :
  tileFilesAt (destination d (currentTile s)) (allTileFiles s) = [] ->
  currentTile (Fixed3x3.navigate d s) = currentTile s
  /\ currentPointClouds (Fixed3x3.navigate d s) = currentPointClouds s
  /\ scene (Fixed3x3.navigate d s) = scene s.
Proof.
  unfold Fixed3x3.navigate.
  destruct (allTileFiles s) as [|e es] eqn:Hall; [done|]. rewrite <- Hall.
  intros Hempty.
  destruct (destination d (currentTile s)) as [nx ny].
  destruct (Fixed3x3.inGrid nx ny); [|done]. by rewrite Hempty.
Qed.

(** C7: a click towards a tile that is inside the grid and holds no dataset.
    In the first variant, in any state of a session, the click is accepted:
    the current tile becomes the destination and no point cloud is resident
    any more.  In the 3x3 variant the click is rejected: the current tile
    and the resident point clouds stay. *)
Theorem C7_empty_tile_move :
  (forall d s,
      reachable_dense s ->
      Dense.isValidTilePosition s (destination d (currentTile s)).1
        (destination d (currentTile s)).2 = true ->
      tileFilesAt (destination d (currentTile s)) (allTileFiles s) = [] ->
      currentTile (Dense.navigate d s) = destination d (currentTile s)
      /\ currentPointClouds (Dense.navigate d s) = []
      /\ scene (Dense.navigate d s) = [])
  /\ (forall d s,
        Fixed3x3.inGrid (destination d (currentTile s)).1
          (destination d (currentTile s)).2 = true ->
        tileFilesAt (destination d (currentTile s)) (allTileFiles s) = [] ->
        currentTile (Fixed3x3.navigate d s) = currentTile s
        /\ currentPointClouds (Fixed3x3.navigate d s) = currentPointClouds s
        /\ scene (Fixed3x3.navigate d s) = scene s).
Proof.
  split.
  - intros d s Hs%reachable_dense_inv. by apply dense_navigate_empty.
  - intros d s _. apply fixed_navigate_empty.
Qed.

(** The theorem at the two sessions of [scanA] and [scanB]: from [(1,1)] the
    click left reaches the empty tile [(0,1)] in the first variant; the
    click right, towards the empty tile [(2,1)], is rejected in the 3x3
    variant. *)
Lemma C7_empty_tile_move_witness :
  let sd := default init_state (denseSession [scanA; scanB]) in
  let sf := default init_state (fixedSession [scanA; scanB]) in
  (currentTile sd = (CInt 1, CInt 1)
   /\ currentTile (Dense.navigate Left sd) = (CInt 0, CInt 1)
   /\ currentPointClouds (Dense.navigate Left sd) = [])
  /\ (currentTile sf = (CInt 1, CInt 1)
      /\ currentTile (Fixed3x3.navigate Right sf) = (CInt 1, CInt 1)).
Proof.
  destruct C7_empty_tile_move as [Hd Hf]. split.
  - split; [by vm_compute|].
    destruct (Hd Left (default init_state (denseSession [scanA; scanB])))
      as (H1 & H2 & _).
    + apply (rd_folder [scanA; scanB] init_state); [apply rd_init|by vm_compute].
    + by vm_compute.
    + by vm_compute.
    + split; [exact H1|exact H2].
  - split; [by vm_compute|].
    destruct (Hf Right (default init_state (fixedSession [scanA; scanB])))
      as (H1 & _).
    + by vm_compute.
    + by vm_compute.
    + exact H1.
Defined.

(** ** The resident set after an activation (C2) *)

Lemma dense_activate_spec tile s :
  clouds_ok s ->
  let s' := dense_activate tile s in
  let required := Dense.filesToLoad (set_currentTile tile s) in
  residentFiles s' = file <$> loadablePrefix required
  /\ scene s' = currentPointClouds s'
  /\ (forall p, p ∈ currentPointClouds s' -> (nextId s <= pointsId p)%nat)
  /\ loadedNames s' = loadedNames s ∪ list_to_set (name <$> residentFiles s').
Proof.
  intros Hok. cbv zeta. unfold dense_activate, Dense.loadCurrentTile, residentFiles.
  set (s0 := clearCurrentPointClouds (set_currentTile tile s)).
  change (Dense.filesToLoad s0) with (Dense.filesToLoad (set_currentTile tile s)).
  destruct (loadFiles_spec (Dense.filesToLoad (set_currentTile tile s)) s0)
    as (new & Hc & Hsc & Hsrc & Hid & Hdom).
  assert (Hs0 : scene s0 = []).
  { destruct Hok as [_ Hscene]. by apply (clear_scene_nil (set_currentTile tile s)). }
  rewrite Hs0 in Hsc. simpl in Hc, Hsc. rewrite Hc, Hsc.
  split_and!; [done|done|done|]. by rewrite Hdom.
Qed.

Lemma filesToLoad_modes tile s :
  initial_consistent s ->
  Dense.filesToLoad (set_currentTile tile s)
  = if initialTilesLoaded s then tileFilesAt tile (allTileFiles s)
    else match jsmap_get tile (initialTileFiles s) with
         | Some _ => take 1 (tileFilesAt tile (allTileFiles s))
         | None => []
         end.
Proof.
  intros Hini. unfold Dense.filesToLoad; simpl.
  destruct (initialTilesLoaded s); [done|]. unfold tileFilesAt.
  destruct (jsmap_get tile (initialTileFiles s)) as [l|] eqn:Hg; [|done].
  destruct (Hini _ _ Hg) as (firstFile & rest & -> & ->). done.
Qed.

(** C2, as the specification has it, fails twice.  In the folder of
    [scanP], [scanQ], [scanR] and [scanS] the tile [(0,0)] holds the first
    three; activated after the initial pass it ends with [scanP] alone,
    although [scanR] loads as well: the load of [scanQ] fails first and
    ends the loop.  In the folder of [scanA_unloadable] and [scanB] the
    initial pass is rejected at its first tile; tile [(2,0)] holds [scanB],
    which loads, and yet activating the tile leaves nothing resident. *)
Lemma C2_resident_set_differs :
  let s := default init_state (denseSession [scanP; scanQ; scanR; scanS]) in
  let t := default init_state (denseSession [scanA_unloadable; scanB]) in
  (initialTilesLoaded s = true
   /\ filesOfTile (CInt 0, CInt 0) s = [scanP; scanQ; scanR]
   /\ Dense.navigate Left s = dense_activate (CInt 0, CInt 0) s
   /\ residentFiles (dense_activate (CInt 0, CInt 0) s) = [scanP]
   /\ spec_resident false (filesOfTile (CInt 0, CInt 0) s) = [scanP; scanR])
  /\ (initialTilesLoaded t = false
      /\ filesOfTile (CInt 2, CInt 0) t = [scanB]
      /\ Dense.navigateAll [Down; Right] t
         = dense_activate (CInt 2, CInt 0) (Dense.navigate Down t)
      /\ residentFiles (dense_activate (CInt 2, CInt 0) (Dense.navigate Down t)) = []
      /\ spec_resident true (filesOfTile (CInt 2, CInt 0) t) = [scanB]).
Proof. by vm_compute. Qed.

(** C2 (amended): activating a tile in a session of the first variant.
    The files asked for are all the files of the tile once the initial pass
    is complete and, before that, the one file the initial pass recorded
    for the tile (its first), or none if the pass recorded nothing for it.
    Every resident file afterwards is one of these and loads; when all of
    them load, the resident files are exactly these, in order; no point
    cloud that was resident before is resident afterwards; and the scene
    shows exactly the resident point clouds. *)
Theorem C2_resident_set tile s :
  reachable_dense s ->
  let s' := dense_activate tile s in
  let required := Dense.filesToLoad (set_currentTile tile s) in
  required
  = (if initialTilesLoaded s then tileFilesAt tile (allTileFiles s)
     else match jsmap_get tile (initialTileFiles s) with
          | Some _ => take 1 (tileFilesAt tile (allTileFiles s))
          | None => []
          end)
  /\ (forall f, f ∈ residentFiles s' -> f ∈ file <$> required /\ loadable f = true)
  /\ (Forall (fun tf => loadable (file tf) = true) required ->
      residentFiles s' = file <$> required)
  /\ (forall p, p ∈ currentPointClouds s -> p ∉ currentPointClouds s')
  /\ scene s' = currentPointClouds s'.
Proof.
  intros [Hids Hsc Hini Hfr]%reachable_dense_inv. cbv zeta.
  destruct (dense_activate_spec tile s) as (Hres & Hscene & Hnew & _); [done|].
  split_and!.
  - by apply filesToLoad_modes.
  - rewrite Hres. intros f (tf & -> & Htf)%list_elem_of_fmap.
    apply loadablePrefix_elem in Htf as [Hin Hl]. split; [|done].
    by apply list_elem_of_fmap_2.
  - intros Hall. by rewrite Hres, loadablePrefix_all.
  - intros p Hp Hp'. apply Hnew in Hp'.
    assert (pointsId p < nextId s)%nat; [|lia].
    apply Hids. apply elem_of_app. by left.
  - done.
Qed.

(** The theorem at the folder of [scanP], [scanQ], [scanR], [scanS], for the
    tile [(2,0)], whose only file loads. *)
Lemma C2_resident_set_witness :
  let s := default init_state (denseSession [scanP; scanQ; scanR; scanS]) in
  residentFiles (dense_activate (CInt 2, CInt 0) s) = [scanS]
  /\ scene (dense_activate (CInt 2, CInt 0) s)
     = currentPointClouds (dense_activate (CInt 2, CInt 0) s).
Proof.
  set (s := default init_state (denseSession [scanP; scanQ; scanR; scanS])).
  assert (Hr : reachable_dense s).
  { apply (rd_folder [scanP; scanQ; scanR; scanS] init_state);
      [apply rd_init|by vm_compute]. }
  destruct (C2_resident_set (CInt 2, CInt 0) s Hr) as (_ & _ & Hall & _ & Hsc).
  split; [|exact Hsc].
  rewrite Hall; [by vm_compute|].
  apply (bool_decide_unpack _). by vm_compute.
Defined.

(** ** The map of loaded point clouds (C10) *)

Lemma loadFileForTile_loaded tf s :
  loadedPointClouds (loadFileForTile tf s).1
  = if loadable (file tf)
    then <[name (file tf) := {| pointsId := nextId s; source := file tf |}]>
           (loadedPointClouds s)
    else loadedPointClouds s.
Proof. unfold loadFileForTile. by destruct (loadable (file tf)). Qed.

Lemma loadFileForTile_names tf s :
  loadedNames s ⊆ loadedNames (loadFileForTile tf s).1.
Proof.
  unfold loadedNames. rewrite loadFileForTile_loaded.
  destruct (loadable (file tf)); [|done]. rewrite dom_insert_L.
  apply union_subseteq_r.
Qed.

Lemma loadFiles_names files s : loadedNames s ⊆ loadedNames (loadFiles files s).1.
Proof.
  destruct (loadFiles_spec files s) as (new & _ & _ & _ & _ & ->).
  apply union_subseteq_l.
Qed.

Lemma loadInitialTilesAt_names keys s :
  loadedNames s ⊆ loadedNames (Dense.loadInitialTilesAt keys s).1.
Proof.
  revert s. induction keys as [|key keys IH]; intros s; simpl; [done|].
  assert (Hstep : loadedNames s ⊆ loadedNames (Dense.loadInitialTile key s).1).
  { unfold Dense.loadInitialTile. destruct (tileFilesAt _ _) as [|firstFile rest]; [done|].
    apply (loadFileForTile_names firstFile (set_initialTileFiles _ s)). }
  destruct (Dense.loadInitialTile key s) as [s1 [|]]; simpl in *; [|done].
  etrans; [exact Hstep|apply IH].
Qed.

Lemma dense_loadInitialTiles_names s s' :
  settled (Dense.loadInitialTiles s) = Some s' -> loadedNames s ⊆ loadedNames s'.
Proof.
  unfold Dense.loadInitialTiles.
  set (s0 := set_initialTileFiles [] (clearCurrentPointClouds s)).
  assert (Hloop : forall keys, loadedNames s ⊆ loadedNames (Dense.loadInitialTilesAt keys s0).1).
  { intros keys. apply (loadInitialTilesAt_names keys s0). }
  destruct (currentTile s0) as [cx cy].
  destruct cx as [x| | |], cy as [y| | |]; cbn [Dense.tileRange];
    try done; try (intros [= <-]; done);
    match goal with
    | |- context [Dense.loadInitialTilesAt ?ks s0] =>
        specialize (Hloop ks);
        destruct (Dense.loadInitialTilesAt ks s0) as [s1 ok];
        destruct ok; simpl in *; try done; intros [= <-]; done
    end.
Qed.

Lemma dense_navigate_names d s : loadedNames s ⊆ loadedNames (Dense.navigate d s).
Proof.
  unfold Dense.navigate. destruct (allTileFiles s); [done|].
  destruct (destination d (currentTile s)) as [nx ny].
  destruct (_ || _); [|done].
  unfold Dense.loadCurrentTile.
  apply (loadFiles_names _ (clearCurrentPointClouds (set_currentTile (nx, ny) s))).
Qed.

Lemma dense_handleFolderSelection_names files s s' :
  settled (Dense.handleFolderSelection files s) = Some s' ->
  loadedNames s ⊆ loadedNames s'.
Proof.
  unfold Dense.handleFolderSelection.
  destruct (List.filter is_ply files) as [|f fs]; [by intros [= <-]|].
  intros Hs%dense_loadInitialTiles_names. etrans; [|exact Hs].
  pose proof (dense_calculate_besides
    (analyzeAllFiles (set_initialTilesLoaded false (set_plyFiles (f :: fs) s)))) as Hb.
  apply (f_equal (fun c => c.1.1.1.1.1.1.2)) in Hb. simpl in Hb.
  destruct (analyzeAllFiles_spec (set_initialTilesLoaded false (set_plyFiles (f :: fs) s)))
    as (_ & Ha & _).
  apply (f_equal (fun c => c.1.1.1.1.1.2)) in Ha. simpl in Ha.
  unfold loadedNames. rewrite Hb, Ha. done.
Qed.

(** C10, as written, fails for the selection of a new folder: after the
    folder of [scanA] and [scanB], selecting the folder of [scanC] leaves
    the entries of both in [loadedPointClouds] and adds the one of
    [scanC]. *)
Lemma C10_folder_selection_keeps_entries :
  let s := default init_state (denseSession [scanA; scanB]) in
  exists s',
    Dense.handleFolderSelection [scanC] s = Done s'
    /\ loadedPointClouds s !! "a.ply" = Some {| pointsId := 0; source := scanA |}
    /\ loadedPointClouds s !! "b.ply" = Some {| pointsId := 1; source := scanB |}
    /\ loadedPointClouds s' !! "a.ply" = Some {| pointsId := 0; source := scanA |}
    /\ loadedPointClouds s' !! "b.ply" = Some {| pointsId := 1; source := scanB |}
    /\ loadedPointClouds s' !! "c.ply" = Some {| pointsId := 2; source := scanC |}
    /\ loadedPointClouds s' ≠ ∅.
Proof.
  exists (default init_state
            (settled (Dense.handleFolderSelection [scanC]
               (default init_state (denseSession [scanA; scanB]))))).
  split_and!; [by vm_compute|by vm_compute|by vm_compute|by vm_compute
              |by vm_compute|by vm_compute|].
  intros H. apply (f_equal (fun m => m !! "a.ply")) in H. by vm_compute in H.
Qed.

(** C10 (amended): [clearCurrentPointClouds] empties [currentPointClouds],
    takes those objects out of the scene and leaves [loadedPointClouds] as
    it is; every successful load puts the new point cloud under the name of
    its file, so that an activation adds the names of the files it loads
    and drops none; neither a click nor the selection of a folder removes
    an entry; only [clearAllPointClouds] empties the map. *)
Theorem C10_loaded_map_accumulates :
  (forall s,
      currentPointClouds (clearCurrentPointClouds s) = []
      /\ (forall p, p ∈ currentPointClouds s -> p ∉ scene (clearCurrentPointClouds s))
      /\ loadedPointClouds (clearCurrentPointClouds s) = loadedPointClouds s)
  /\ (forall tf s,
        loadable (file tf) = true ->
        loadedPointClouds (loadFileForTile tf s).1
        = <[name (file tf) := {| pointsId := nextId s; source := file tf |}]>
            (loadedPointClouds s))
  /\ (forall tile s,
        reachable_dense s ->
        loadedNames (dense_activate tile s)
        = loadedNames s ∪ list_to_set (name <$> residentFiles (dense_activate tile s)))
  /\ (forall d s, loadedNames s ⊆ loadedNames (Dense.navigate d s))
  /\ (forall files s s',
        settled (Dense.handleFolderSelection files s) = Some s' ->
        loadedNames s ⊆ loadedNames s')
  /\ (forall s, loadedPointClouds (clearAllPointClouds s) = ∅).
Proof.
  split_and!.
  - intros s. split_and!; [done|apply clear_removes|done].
  - intros tf s Hl. by rewrite loadFileForTile_loaded, Hl.
  - intros tile s [Hids Hsc _ _]%reachable_dense_inv.
    by destruct (dense_activate_spec tile s) as (_ & _ & _ & ?).
  - apply dense_navigate_names.
  - apply dense_handleFolderSelection_names.
  - done.
Qed.

(** The theorem at the session of [scanP], [scanQ], [scanR], [scanS]. *)
Lemma C10_loaded_map_accumulates_witness :
  let s := default init_state (denseSession [scanP; scanQ; scanR; scanS]) in
  loadedPointClouds (loadFileForTile entryC s).1 !! "c.ply"
  = Some {| pointsId := 2; source := scanC |}
  /\ "s.ply" ∈ loadedNames (dense_activate (CInt 2, CInt 0) s)
  /\ (forall s', settled (Dense.handleFolderSelection [scanC] s) = Some s' ->
        "p.ply" ∈ loadedNames s').
Proof.
  set (s := default init_state (denseSession [scanP; scanQ; scanR; scanS])).
  destruct C10_loaded_map_accumulates as (_ & Hload & Hact & _ & Hsel & _).
  assert (Hp : "p.ply" ∈ loadedNames s).
  { apply elem_of_dom. exists {| pointsId := 0; source := scanP |}. by vm_compute. }
  split_and!.
  - rewrite Hload by reflexivity. by vm_compute.
  - rewrite Hact.
    + apply elem_of_union_r.
      assert (Hres : residentFiles (dense_activate (CInt 2, CInt 0) s) = [scanS])
        by (by vm_compute).
      rewrite Hres. apply elem_of_list_to_set. left.
    + apply (rd_folder [scanP; scanQ; scanR; scanS] init_state);
        [apply rd_init|by vm_compute].
  - intros s' Hs'. by apply (Hsel _ _ _ Hs').
Defined.

(** ** An empty selection and an empty analysis (C8) *)











(** ** The assignment of the 3x3 variant (C6) *)

Lemma assign_fold_index files keys s idx i :
  (idx = i \/ (length files <= idx /\ length files <= i))%nat ->
  (fold_left (Fixed3x3.assignStep files) keys (s, idx)).1
  = fold_left (assignAt files) (zip keys (seq i (length keys))) s.
Proof.
  revert s idx i. induction keys as [|key keys IH]; intros s idx i Hidx; simpl; [done|].
  unfold assignAt at 2; simpl.
  destruct Hidx as [->|[H1 H2]].
  - destruct (files !! i) as [f|] eqn:Hf.
    + destruct (jsmap_get (name f) (fileCoordinates s)); simpl; apply IH; by left.
    + simpl. apply IH. right. apply lookup_ge_None in Hf. lia.
  - rewrite (lookup_ge_None_2 files idx), (lookup_ge_None_2 files i) by lia.
    simpl. apply IH. right. lia.
Qed.

Lemma assignAt_cases files s key j :
  besidesStore (assignAt files s (key, j)) = besidesStore s
  /\ allTileFiles (assignAt files s (key, j))
     = match fixedSlot files (fileCoordinates s) key j with
       | [] => allTileFiles s
       | l => jsmap_set key l (allTileFiles s)
       end
  /\ console (assignAt files s (key, j))
     = console s ++ option_list (fixedWarning files (fileCoordinates s) j).
Proof.
  unfold assignAt, Fixed3x3.assignStep, fixedSlot, fixedWarning; simpl.
  destruct (files !! j) as [f|]; simpl; [|by rewrite app_nil_r].
  destruct (jsmap_get (name f) (fileCoordinates s)); simpl; [|done].
  by rewrite app_nil_r.
Qed.

Lemma besidesStore_fileCoordinates s s' :
  besidesStore s' = besidesStore s -> fileCoordinates s' = fileCoordinates s.
Proof. intros H. exact (f_equal (fun c => c.1.1.1.1.1.1.1.1.1.2) H). Qed.

Lemma assignAt_fold files kjs s :
  NoDup kjs.*1 ->
  (forall key, key ∈ kjs.*1 -> is_Some (jsmap_get key (allTileFiles s))) ->
  let s' := fold_left (assignAt files) kjs s in
  besidesStore s' = besidesStore s
  /\ jsmap_keys (allTileFiles s') = jsmap_keys (allTileFiles s)
  /\ (forall key, key ∉ kjs.*1 ->
        jsmap_get key (allTileFiles s') = jsmap_get key (allTileFiles s))
  /\ (forall key j, (key, j) ∈ kjs ->
        jsmap_get key (allTileFiles s')
        = match fixedSlot files (fileCoordinates s) key j with
          | [] => jsmap_get key (allTileFiles s)
          | l => Some l
          end)
  /\ console s'
     = console s ++ omap (fun kj => fixedWarning files (fileCoordinates s) kj.2) kjs.
Proof.
  cbv zeta. revert s. induction kjs as [|[k j] kjs IH]; intros s Hnd Hkeys; simpl.
  { rewrite app_nil_r. split_and!; try done.
    intros key j' Hin. by apply elem_of_nil in Hin. }
  apply NoDup_cons in Hnd as [Hk Hnd]. simpl in Hk.
  destruct (assignAt_cases files s k j) as (Hb & Hstore & Hcons).
  pose proof (besidesStore_fileCoordinates _ _ Hb) as Hfc.
  assert (Hget : forall key, key ≠ k ->
            jsmap_get key (allTileFiles (assignAt files s (k, j)))
            = jsmap_get key (allTileFiles s)).
  { intros key Hne. rewrite Hstore.
    destruct (fixedSlot files (fileCoordinates s) k j); [done|].
    by rewrite jsmap_get_set_ne. }
  assert (Hgetk : jsmap_get k (allTileFiles (assignAt files s (k, j)))
            = match fixedSlot files (fileCoordinates s) k j with
              | [] => jsmap_get k (allTileFiles s)
              | l => Some l
              end).
  { rewrite Hstore. destruct (fixedSlot files (fileCoordinates s) k j); [done|].
    by rewrite jsmap_get_set_eq. }
  assert (Hkeys1 : jsmap_keys (allTileFiles (assignAt files s (k, j)))
                   = jsmap_keys (allTileFiles s)).
  { rewrite Hstore. destruct (fixedSlot files (fileCoordinates s) k j); [done|].
    rewrite jsmap_keys_set.
    destruct (Hkeys k) as [old Hold]; [by left|]. unfold jsmap_has. by rewrite Hold. }
  destruct (IH (assignAt files s (k, j)) Hnd) as (Hb' & Hkeys' & Hout & Hin & Hcons').
  { intros key Hkey. destruct (decide (key = k)) as [->|Hne].
    - rewrite Hgetk. destruct (fixedSlot _ _ _ _); [apply Hkeys; by left|done].
    - rewrite Hget by done. apply Hkeys. by right. }
  rewrite Hfc in Hin, Hcons'. split_and!.
  - by rewrite Hb'.
  - by rewrite Hkeys'.
  - intros key [Hne Hnin]%not_elem_of_cons. rewrite Hout by done. by apply Hget.
  - intros key j' [[= -> ->]|Hin']%elem_of_cons.
    + rewrite Hout by done. done.
    + rewrite (Hin _ _ Hin').
      destruct (fixedSlot files (fileCoordinates s) key j'); [|done].
      apply Hget. intros ->. apply Hk. apply list_elem_of_fmap. by exists (k, j').
  - rewrite Hcons', Hcons. rewrite <- (assoc_L (++)). f_equal.
    by destruct (fixedWarning files (fileCoordinates s) j).
Qed.

Lemma fixedSlot_take files fc key i :
  (i < 9)%nat -> fixedSlot (take 9 files) fc key i = fixedSlot files fc key i.
Proof. intros Hi. unfold fixedSlot. by rewrite lookup_take_lt. Qed.

Lemma fixedWarning_take files fc i :
  (i < 9)%nat -> fixedWarning (take 9 files) fc i = fixedWarning files fc i.
Proof. intros Hi. unfold fixedWarning. by rewrite lookup_take_lt. Qed.

Lemma omap_fmap_seq_take files fc :
  omap (fun kj : TileKey * nat => fixedWarning (take 9 files) fc kj.2)
    ((fun i => (Spec.gridTile i, i)) <$> seq 0 9)
  = omap (fixedWarning files fc) (seq 0 9).
Proof.
  assert (H : forall l : list nat, Forall (fun i => i < 9)%nat l ->
    omap (fun kj : TileKey * nat => fixedWarning (take 9 files) fc kj.2)
      ((fun i => (Spec.gridTile i, i)) <$> l)
    = omap (fixedWarning files fc) l).
  { induction 1 as [|i l Hi _ IH]; [done|]. rewrite fmap_cons. simpl.
    rewrite fixedWarning_take by done.
    destruct (fixedWarning files fc i); [f_equal|]; exact IH. }
  apply H. apply Forall_forall. intros i Hi%elem_of_seq. lia.
Qed.

Lemma fixed_calculate_nonempty s :
  fileCoordinates s ≠ [] ->
  Fixed3x3.calculateGridOrganization s
  = Fixed3x3.organizeFilesIntoTiles (computeGridFrame Fixed3x3.multiplier s).
Proof. unfold Fixed3x3.calculateGridOrganization. by destruct (fileCoordinates s). Qed.

Lemma fixed_organize_spec s :
  let s' := Fixed3x3.organizeFilesIntoTiles s in
  jsmap_keys (allTileFiles s') = Spec.gridTile <$> seq 0 9
  /\ (forall i, (i < 9)%nat ->
        tileFilesAt (Spec.gridTile i) (allTileFiles s')
        = fixedSlot (plyFiles s) (fileCoordinates s) (Spec.gridTile i) i)
  /\ currentTile s' = (CInt 1, CInt 1)
  /\ console s'
     = console s
       ++ (if bool_decide (length (plyFiles s) < 9)%nat
           then [WarnOnlyFiles (length (plyFiles s))] else [])
       ++ omap (fixedWarning (plyFiles s) (fileCoordinates s)) (seq 0 9).
Proof.
  cbv zeta. unfold Fixed3x3.organizeFilesIntoTiles.
  set (store0 := fold_left (fun m key => jsmap_set key [] m) Fixed3x3.gridKeys
                   (allTileFiles (set_allTileFiles [] s))).
  set (s_b := set_allTileFiles store0 (set_allTileFiles [] s)).
  set (files := take 9 (plyFiles s_b)).
  set (s_c := if bool_decide (length files < 9)%nat
              then emit (WarnOnlyFiles (length files)) s_b else s_b).
  rewrite (assign_fold_index files Fixed3x3.gridKeys s_c 0 0) by (by left).
  set (kjs := zip Fixed3x3.gridKeys (seq 0 (length Fixed3x3.gridKeys))).
  assert (Hkjs : kjs = (fun i => (Spec.gridTile i, i)) <$> seq 0 9) by reflexivity.
  assert (Hstore0 : store0 = (fun i => (Spec.gridTile i, [])) <$> seq 0 9) by reflexivity.
  assert (Hc_store : allTileFiles s_c = store0).
  { subst s_c. by destruct (bool_decide _). }
  assert (Hc_fc : fileCoordinates s_c = fileCoordinates s).
  { subst s_c. by destruct (bool_decide _). }
  assert (Hc_cons : console s_c = console s ++
            (if bool_decide (length (plyFiles s) < 9)%nat
             then [WarnOnlyFiles (length (plyFiles s))] else [])).
  { subst s_c files. change (plyFiles s_b) with (plyFiles s).
    rewrite length_take.
    destruct (decide (length (plyFiles s) < 9)%nat) as [Hlt|Hge].
    - rewrite !bool_decide_eq_true_2 by lia.
      replace (9 `min` length (plyFiles s))%nat with (length (plyFiles s)) by lia.
      done.
    - rewrite !bool_decide_eq_false_2 by lia. by rewrite app_nil_r. }
  destruct (assignAt_fold files kjs s_c) as (Hb & Hkeys & Hout & Hin & Hcons).
  { rewrite Hkjs. apply (bool_decide_unpack _). by vm_compute. }
  { intros key Hkey. rewrite Hc_store, Hstore0. rewrite Hkjs in Hkey.
    revert key Hkey. apply Forall_forall. apply (bool_decide_unpack _).
    by vm_compute. }
  split_and!.
  - cbn [allTileFiles set_currentTile]. rewrite Hkeys, Hc_store, Hstore0. reflexivity.
  - intros i Hi. cbn [allTileFiles set_currentTile]. unfold tileFilesAt.
    rewrite (Hin (Spec.gridTile i) i).
    + rewrite Hc_fc. subst files. change (plyFiles s_b) with (plyFiles s).
      rewrite fixedSlot_take by done.
      destruct (fixedSlot (plyFiles s) (fileCoordinates s) (Spec.gridTile i) i) eqn:Hslot;
        [|done].
      rewrite Hc_store, Hstore0.
      assert (Hi' : i ∈ seq 0 9) by (apply elem_of_seq; lia).
      clear -Hi'. revert i Hi'. apply Forall_forall.
      repeat (constructor; [reflexivity|]). constructor.
    + rewrite Hkjs. apply list_elem_of_fmap. exists i. split; [done|].
      apply elem_of_seq. lia.
  - done.
  - cbn [console set_currentTile].
    rewrite Hcons, Hc_cons, Hc_fc, <- (assoc_L (++)). do 2 f_equal.
    rewrite Hkjs. subst files. change (plyFiles s_b) with (plyFiles s).
    rewrite omap_fmap_seq_take. done.
Qed.

(** C6, as the specification has it, fails when a file among the first nine
    has no bounding box: of the folder [scanBad], [scanA] the second file
    alone is assigned, to the second tile [(0,1)], and the first tile
    stays empty. *)
Lemma C6_unanalysed_file_keeps_its_tile :
  let s := analyzeAllFiles (set_plyFiles [scanBad; scanA] init_state) in
  let s' := Fixed3x3.calculateGridOrganization s in
  plyFiles s = [scanBad; scanA]
  /\ jsmap_keys (fileCoordinates s) = ["a.ply"]
  /\ tiledFiles s' = [scanA]
  /\ filesOfTile (Spec.gridTile 0) s' = []
  /\ filesOfTile (Spec.gridTile 1) s' = [scanA]
  /\ Spec.gridTile 1 = (CInt 0, CInt 1)
  /\ console s' = [ErrorAnalyzing "bad.ply"; WarnOnlyFiles 2;
                   WarnNoCoordinates "bad.ply"].
Proof. by vm_compute. Qed.

(** C6 (amended): the 3x3 organizer, run after an analysis that found at
    least one bounding box.  The tile store has exactly the nine keys
    [(x,y)], [x,y] in [{0,1,2}], listed with [x] first.  Tile number [i]
    holds the file number [i] of the input, alone, when there is such a
    file and it has coordinates, and is empty otherwise; so every assigned
    file is one of the first [min(9, length)] files, at the tile of its
    own index, and files from the tenth on are never assigned.  With fewer
    than nine files one warning says so, every file among the first nine
    without coordinates gets a warning, and the organizer completes with
    the current tile [(1,1)]. *)
Theorem C6_fixed_assignment s :
  fileCoordinates s ≠ [] ->
  let s' := Fixed3x3.calculateGridOrganization s in
  let files := plyFiles s in
  jsmap_keys (allTileFiles s') = Spec.gridTile <$> seq 0 9
  /\ (forall i, (i < 9)%nat ->
        tileFilesAt (Spec.gridTile i) (allTileFiles s')
        = fixedSlot files (fileCoordinates s) (Spec.gridTile i) i)
  /\ (forall tf, tf ∈ allTiled (allTileFiles s') ->
        exists i, (i < 9 `min` length files)%nat
                  /\ files !! i = Some (file tf)
                  /\ jsmap_get (name (file tf)) (fileCoordinates s)
                     = Some (originalCoords tf)
                  /\ (tileX tf, tileY tf) = Spec.gridTile i
                  /\ tileFilesAt (Spec.gridTile i) (allTileFiles s') = [tf])
  /\ currentTile s' = (CInt 1, CInt 1)
  /\ console s'
     = console s
       ++ (if bool_decide (length files < 9)%nat
           then [WarnOnlyFiles (length files)] else [])
       ++ omap (fixedWarning files (fileCoordinates s)) (seq 0 9).
Proof.
  intros Hne. cbv zeta. rewrite fixed_calculate_nonempty by done.
  destruct (computeGridFrame_fields Fixed3x3.multiplier s) as (Hp & Hf & Hc).
  destruct (fixed_organize_spec (computeGridFrame Fixed3x3.multiplier s))
    as (Hkeys & Hslots & Htile & Hcons).
  rewrite Hp, Hf in Hslots. rewrite Hp, Hf, Hc in Hcons.
  split_and!; [done|done| |done|done].
  intros tf (key & l & Hin & Htf)%allTiled_elem.
  assert (Hkey : key ∈ Spec.gridTile <$> seq 0 9).
  { rewrite <- Hkeys. apply list_elem_of_fmap. by exists (key, l). }
  apply list_elem_of_fmap in Hkey as (i & -> & Hi%elem_of_seq).
  assert (Hi9 : (i < 9)%nat) by lia.
  assert (Hnd : NoDup (jsmap_keys (allTileFiles
            (Fixed3x3.organizeFilesIntoTiles (computeGridFrame Fixed3x3.multiplier s))))).
  { rewrite Hkeys. apply (bool_decide_unpack _). by vm_compute. }
  pose proof (jsmap_elem_get _ _ _ Hnd Hin) as Hget.
  specialize (Hslots i Hi9). unfold tileFilesAt in Hslots at 1.
  rewrite Hget in Hslots. simpl in Hslots. subst l.
  unfold fixedSlot in Htf.
  destruct (plyFiles s !! i) as [f|] eqn:Hfile; [|by apply elem_of_nil in Htf].
  destruct (jsmap_get (name f) (fileCoordinates s)) as [c|] eqn:Hcoords;
    [|by apply elem_of_nil in Htf].
  apply list_elem_of_singleton in Htf as ->. cbn [file originalCoords tileX tileY].
  exists i. split_and!; try done.
  - apply lookup_lt_Some in Hfile. lia.
  - unfold tileFilesAt. rewrite Hget. unfold fixedSlot. by rewrite Hfile, Hcoords.
Qed.

(** The theorem at the folder of [scanA] and [scanB]. *)
Lemma C6_fixed_assignment_witness :
  let s := analyzeAllFiles (set_plyFiles [scanA; scanB] init_state) in
  let s' := Fixed3x3.calculateGridOrganization s in
  filesOfTile (Spec.gridTile 1) s' = [scanB]
  /\ currentTile s' = (CInt 1, CInt 1)
  /\ console s' = [WarnOnlyFiles 2].
Proof.
  set (s := analyzeAllFiles (set_plyFiles [scanA; scanB] init_state)).
  assert (Hne : fileCoordinates s ≠ []) by (by vm_compute).
  destruct (C6_fixed_assignment s Hne) as (_ & Hslots & _ & Htile & Hcons).
  split_and!.
  - unfold filesOfTile. rewrite Hslots by lia. by vm_compute.
  - exact Htile.
  - rewrite Hcons. by vm_compute.
Defined.

(** ** Arithmetic on finite numbers *)

Lemma Qsign_pos q : (0 < q)%Q -> Qsign q = Gt.
Proof. intros H. by apply Qgt_alt. Qed.

Lemma num_div_pos a b : (0 < b)%Q -> num_div (Fin a) (Fin b) = Fin (a / b).
Proof. intros Hb. simpl. by rewrite Qsign_pos. Qed.

Lemma inject_Z_pos n : 0 < n -> (0 < inject_Z n)%Q.
Proof. intros Hn. change 0%Q with (inject_Z 0). by rewrite <- Zlt_Qlt. Qed.

Lemma Qsum_nonneg xs : (forall x, x ∈ xs -> (0 <= x)%Q) -> (0 <= Spec.Qsum xs)%Q.
Proof.
  induction xs as [|x xs IH]; intros Hall; simpl; [apply Qle_refl|].
  rewrite <- (Qplus_0_l 0). apply Qplus_le_compat.
  - apply Hall. by left.
  - apply IH. intros y Hy. apply Hall. by right.
Qed.

Lemma Qsum_pos xs x :
  (forall y, y ∈ xs -> (0 <= y)%Q) -> x ∈ xs -> (0 < x)%Q -> (0 < Spec.Qsum xs)%Q.
Proof.
  induction xs as [|y xs IH]; intros Hall Hin Hx.
  - by apply elem_of_nil in Hin.
  - simpl. apply elem_of_cons in Hin as [<-|Hin].
    + rewrite <- (Qplus_0_r 0). apply Qplus_lt_le_compat; [done|].
      apply Qsum_nonneg. intros z Hz. apply Hall. by right.
    + rewrite <- (Qplus_0_l 0), (Qplus_comm y). apply Qplus_lt_le_compat.
      * apply IH; [|done|done]. intros z Hz. apply Hall. by right.
      * apply Hall. by left.
Qed.

Lemma average_pos xs x :
  (forall y, y ∈ xs -> (0 <= y)%Q) -> x ∈ xs -> (0 < x)%Q -> (0 < Spec.average xs)%Q.
Proof.
  intros Hall Hin Hx. unfold Spec.average. apply Qlt_shift_div_l.
  - apply inject_Z_pos. destruct xs; [by apply elem_of_nil in Hin|simpl; lia].
  - rewrite Qmult_0_l. by eapply Qsum_pos.
Qed.

(** ** The loops of [calculateGridOrganization] on finite boxes *)

Lemma extract_rect f r :
  rect f = Some r ->
  exists c, extractCoordinatesFromFile f = Some c /\ covers c r.
Proof.
  unfold rect, extractCoordinatesFromFile.
  destruct (decoded f) as [[[ax ay az] [bx by_ bz]]|]; simpl; [|done].
  destruct ax as [x0| | |], bx as [x1| | |], ay as [y0| | |], by_ as [y1| | |];
    simpl; try done.
  intros [= <-]. eexists. split; [done|]. by repeat split.
Qed.

(** With finite boxes the values of [fileCoordinates] after the analysis
    cover the rectangles of the analysed files, one by one. *)
Lemma values_cover fs :
  (forall f, f ∈ fs -> analyzable f = true -> is_Some (rect f)) ->
  Forall2 covers (jsmap_values (entriesOf fs)) (rects fs).
Proof.
  induction fs as [|f fs IH]; intros Hfin; [constructor|].
  assert (IH' := IH (fun g Hg => Hfin g (list_elem_of_further _ _ _ Hg))).
  unfold entriesOf, rects, jsmap_values in *. simpl.
  destruct (rect f) as [r|] eqn:Hr.
  - destruct (extract_rect f r Hr) as (c & -> & Hc). simpl. by constructor.
  - destruct (analyzeFile_cases init_state f) as [(c & _ & Ha & _)|(-> & _)].
    + destruct (Hfin f) as [r Hr']; [by left|done|congruence].
    + exact IH'.
Qed.

Lemma extentLoop_fold values rs a b n :
  Forall2 covers values rs ->
  exists tx ty,
    fold_left extentStep values (Fin a, Fin b, n)
    = (Fin tx, Fin ty, n + Z.of_nat (length values))
    /\ (tx == a + Spec.Qsum ((fun r => Spec.extent r.1.1.1 r.1.1.2) <$> rs))%Q
    /\ (ty == b + Spec.Qsum ((fun r => Spec.extent r.1.2 r.2) <$> rs))%Q.
Proof.
  intros H. revert a b n. induction H as [|c [[[x0 x1] y0] y1] values rs Hc _ IH];
    intros a b n; simpl.
  - exists a, b. rewrite Z.add_0_r. split; [done|].
    unfold Spec.Qsum; simpl. split; ring.
  - destruct Hc as (_ & _ & _ & _ & _ & _ & -> & ->). simpl.
    destruct (IH (a + (x1 - x0))%Q (b + (y1 - y0))%Q (n + 1)) as (tx & ty & -> & Hx & Hy).
    exists tx, ty. split; [f_equal; lia|].
    unfold Spec.extent, Spec.Qsum in *; simpl in *.
    split; [rewrite Hx|rewrite Hy]; symmetry; apply Qplus_assoc.
Qed.

Lemma is_minimum_snoc m xs x :
  Spec.is_minimum m xs -> Spec.is_minimum (Qmin m x) (xs ++ [x]).
Proof.
  intros [Hle (y & Hy & Heq)]. split.
  - intros z [Hz| ->%list_elem_of_singleton]%elem_of_app.
    + eapply Qle_trans; [apply Q.le_min_l|by apply Hle].
    + apply Q.le_min_r.
  - destruct (Q.min_spec m x) as [[_ Hm]|[_ Hm]].
    + exists y. split; [apply elem_of_app; by left|]. by rewrite Hm.
    + exists x. split; [apply elem_of_app; right; by left|]. by rewrite Hm.
Qed.

Lemma is_maximum_snoc m xs x :
  Spec.is_maximum m xs -> Spec.is_maximum (Qmax m x) (xs ++ [x]).
Proof.
  intros [Hle (y & Hy & Heq)]. split.
  - intros z [Hz| ->%list_elem_of_singleton]%elem_of_app.
    + eapply Qle_trans; [by apply Hle|apply Q.le_max_l].
    + apply Q.le_max_r.
  - destruct (Q.max_spec m x) as [[_ Hm]|[_ Hm]].
    + exists x. split; [apply elem_of_app; right; by left|]. by rewrite Hm.
    + exists y. split; [apply elem_of_app; by left|]. by rewrite Hm.
Qed.

Lemma boundsLoop_snoc values c :
  boundsLoop (values ++ [c]) = boundsStep (boundsLoop values) c.
Proof. unfold boundsLoop. by rewrite fold_left_app. Qed.

Lemma boundsLoop_spec values rs :
  Forall2 covers values rs -> rs ≠ [] ->
  exists mnX mxX mnY mxY,
    boundsLoop values = (Fin mnX, Fin mxX, Fin mnY, Fin mxY)
    /\ Spec.is_minimum mnX ((fun r => r.1.1.1) <$> rs)
    /\ Spec.is_maximum mxX ((fun r => r.1.1.2) <$> rs)
    /\ Spec.is_minimum mnY ((fun r => r.1.2) <$> rs)
    /\ Spec.is_maximum mxY ((fun r => r.2) <$> rs).
Proof.
  intros H. revert values H. induction rs as [|r rs IH] using rev_ind; [done|].
  intros values H _. apply Forall2_app_inv_r in H as (vs & cs & Hvs & Hc & ->).
  apply Forall2_cons_inv_r in Hc as (c & cs' & Hc & ->%Forall2_nil_inv_r & ->).
  rewrite boundsLoop_snoc. rewrite !fmap_app. simpl.
  destruct r as [[[x0 x1] y0] y1].
  destruct Hc as (Ha & Hb & Hc & Hd & _). simpl.
  destruct rs as [|r' rs'] eqn:Hrs.
  - apply Forall2_nil_inv_r in Hvs as ->. unfold boundsLoop, boundsStep; simpl.
    rewrite Ha, Hb, Hc, Hd. exists x0, x1, y0, y1. split; [done|].
    repeat split; try (intros x ->%list_elem_of_singleton; apply Qle_refl);
      (eexists; split; [by left|reflexivity]).
  - rewrite <- Hrs in *. destruct (IH vs Hvs) as (mnX & mxX & mnY & mxY & -> & H1 & H2 & H3 & H4).
    { by rewrite Hrs. }
    unfold boundsStep. rewrite Ha, Hb, Hc, Hd. simpl.
    exists (Qmin mnX x0), (Qmax mxX x1), (Qmin mnY y0), (Qmax mxY y1).
    split; [done|]. split_and!.
    + by apply is_minimum_snoc.
    + by apply is_maximum_snoc.
    + by apply is_minimum_snoc.
    + by apply is_maximum_snoc.
Qed.

(** ** The tile size (C5) *)

Lemma computeGridFrame_tileSize k s rs :
  Forall2 covers (jsmap_values (fileCoordinates s)) rs -> rs ≠ [] ->
  exists ts, tileSize (computeGridFrame k s) = Fin ts
             /\ (ts == Spec.tileSize k (extentsX rs) (extentsY rs))%Q.
Proof.
  intros Hcov Hne. unfold computeGridFrame.
  destruct (boundsLoop _) as [[[a b] c] d].
  unfold extentLoop.
  destruct (extentLoop_fold _ _ 0%Q 0%Q 0 Hcov) as (tx & ty & -> & Hx & Hy).
  cbn [tileSize set_tileSize].
  assert (Hlen : 0 + Z.of_nat (length (jsmap_values (fileCoordinates s)))
                 = Z.of_nat (length rs)).
  { by rewrite (Forall2_length _ _ _ Hcov). }
  rewrite Hlen.
  assert (Hpos : (0 < inject_Z (Z.of_nat (length rs)))%Q).
  { apply inject_Z_pos. destruct rs; [done|simpl; lia]. }
  exists (Qmax (tx / inject_Z (Z.of_nat (length rs)))
               (ty / inject_Z (Z.of_nat (length rs))) * k)%Q.
  split; [by rewrite !num_div_pos by done|].
  unfold Spec.tileSize, Spec.average, extentsX, extentsY.
  rewrite !length_fmap. fold (extentsX rs) (extentsY rs).
  fold (extentsX rs) in Hx. fold (extentsY rs) in Hy.
  rewrite Hx, Hy, !Qplus_0_l. reflexivity.
Qed.




Lemma covers_nonempty values rs : Forall2 covers values rs -> rs ≠ [] -> values ≠ [].
Proof. intros H Hne ->. apply Forall2_nil_inv_l in H. done. Qed.

Lemma tileSize_pos k rs r :
  (0 < k)%Q ->
  (forall r, r ∈ rs -> (r.1.1.1 <= r.1.1.2)%Q /\ (r.1.2 <= r.2)%Q) ->
  r ∈ rs -> (r.1.1.1 < r.1.1.2)%Q \/ (r.1.2 < r.2)%Q ->
  (0 < Spec.tileSize k (extentsX rs) (extentsY rs))%Q.
Proof.
  intros Hk Hvalid Hin Hpos. unfold Spec.tileSize.
  apply Qmult_lt_0_compat; [|done]. apply Q.max_lt_iff.
  assert (HnX : forall y, y ∈ extentsX rs -> (0 <= y)%Q).
  { intros y (r' & -> & Hr')%list_elem_of_fmap. unfold Spec.extent.
    apply Hvalid in Hr' as [H1 H2]. by apply -> Qle_minus_iff. }
  assert (HnY : forall y, y ∈ extentsY rs -> (0 <= y)%Q).
  { intros y (r' & -> & Hr')%list_elem_of_fmap. unfold Spec.extent.
    apply Hvalid in Hr' as [H1 H2]. by apply -> Qle_minus_iff. }
  destruct Hpos as [Hx|Hy]; [left|right].
  - apply (average_pos _ (Spec.extent r.1.1.1 r.1.1.2)); [done| |].
    + apply list_elem_of_fmap. by exists r.
    + unfold Spec.extent. by apply -> Qlt_minus_iff.
  - apply (average_pos _ (Spec.extent r.1.2 r.2)); [done| |].
    + apply list_elem_of_fmap. by exists r.
    + unfold Spec.extent. by apply -> Qlt_minus_iff.
Qed.



(** ** Tile coordinates and the extent of the grid (C4) *)

Lemma num_div_nonzero a b : ~ (b == 0)%Q -> num_div (Fin a) (Fin b) = Fin (a / b).
Proof.
  intros Hb. simpl. unfold Qsign. destruct (b ?= 0)%Q eqn:Hc; try done.
  by apply Qeq_alt in Hc.
Qed.

Lemma computeGridFrame_bounds k s :
  (minX (computeGridFrame k s), maxX (computeGridFrame k s),
   minY (computeGridFrame k s), maxY (computeGridFrame k s))
  = boundsLoop (jsmap_values (fileCoordinates s)).
Proof.
  unfold computeGridFrame.
  destruct (boundsLoop _) as [[[a b] c] d]. by destruct (extentLoop _) as [[x y] n].
Qed.

Lemma entriesOf_elem f c :
  forall fs, f ∈ fs -> extractCoordinatesFromFile f = Some c ->
  (name f, c) ∈ entriesOf fs.
Proof.
  intros fs Hin Hc. unfold entriesOf. apply list_elem_of_omap.
  exists f. split; [done|]. by rewrite Hc.
Qed.

Lemma dense_valid_integers s w h x y :
  Dense.totalTilesX s = CInt w -> Dense.totalTilesY s = CInt h ->
  Dense.isValidTilePosition s (CInt x) (CInt y) = true
  <-> (0 <= x < w /\ 0 <= y < h).
Proof.
  intros Hw Hh. unfold Dense.isValidTilePosition. rewrite Hw, Hh. simpl.
  rewrite !andb_true_iff, !bool_decide_eq_true. tauto.
Qed.




(** * Further properties of the code *)

(** ** Clicks before a folder is loaded, and what clicks leave alone *)

Lemma tiling_of_catalog s s' t :
  catalogOf s' = catalogOf (set_currentTile t s) -> tilingOf s' = tilingOf s.
Proof.
  intros H. apply catalog_fields in H
    as (H1 & H2 & H3 & H4 & H5 & H6 & H7 & H8 & _ & H10 & H11).
  unfold tilingOf. simpl in *. by rewrite H1, H2, H3, H4, H5, H6, H7, H8, H10, H11.
Qed.

Lemma dense_navigate_tiling d s : tilingOf (Dense.navigate d s) = tilingOf s.
Proof.
  destruct (dense_navigate_catalog d s) as [t Ht]. by eapply tiling_of_catalog.
Qed.

Lemma fixed_navigate_tiling d s : tilingOf (Fixed3x3.navigate d s) = tilingOf s.
Proof.
  unfold Fixed3x3.navigate. destruct (allTileFiles s); [done|].
  destruct (destination d (currentTile s)) as [nx ny].
  destruct (Fixed3x3.inGrid nx ny); [|done].
  destruct (tileFilesAt (nx, ny) _); [done|].
  eapply tiling_of_catalog. apply fixed_loadCurrentTile_catalog.
Qed.

Lemma dense_navigateAll_tiling ds s : tilingOf (Dense.navigateAll ds s) = tilingOf s.
Proof.
  revert s. induction ds as [|d ds IH]; intros s; [done|].
  simpl. unfold Dense.navigateAll in IH. by rewrite IH, dense_navigate_tiling.
Qed.

Lemma fixed_navigateAll_tiling ds s : tilingOf (Fixed3x3.navigateAll ds s) = tilingOf s.
Proof.
  revert s. induction ds as [|d ds IH]; intros s; [done|].
  simpl. unfold Fixed3x3.navigateAll in IH. by rewrite IH, fixed_navigate_tiling.
Qed.

(** X1: the clicks never touch the tiling.  Whatever the state and the
    sequence of clicks, in both variants the files, their coordinates, the
    bounds, the tile size, the tile store, the record of the initial pass
    and its flag are afterwards what they were. *)
Theorem X1_navigation_keeps_tiling :
  (forall ds s, tilingOf (Dense.navigateAll ds s) = tilingOf s)
  /\ (forall ds s, tilingOf (Fixed3x3.navigateAll ds s) = tilingOf s).
Proof. split; [apply dense_navigateAll_tiling|apply fixed_navigateAll_tiling]. Qed.

Lemma navigateAll_no_store (nav : Direction -> State -> State) ds s :
  (forall d s, allTileFiles s = [] -> nav d s = emit AlertLoadFilesFirst s) ->
  allTileFiles s = [] ->
  let s' := fold_left (fun s d => nav d s) ds s in
  besidesConsole s' = besidesConsole s
  /\ console s' = console s ++ replicate (length ds) AlertLoadFilesFirst.
Proof.
  intros Hnav. revert s. induction ds as [|d ds IH]; intros s Hs; simpl.
  - by rewrite app_nil_r.
  - rewrite (Hnav d s Hs). destruct (IH (emit AlertLoadFilesFirst s) Hs) as [H1 H2].
    split; [by rewrite H1|]. rewrite H2. simpl. by rewrite <- (assoc_L (++)).
Qed.

(** X2: clicks without a tile store.  While [allTileFiles] is empty (no
    folder was organized yet) every click, in both variants, raises the
    alert and does nothing else: after [n] clicks the console has [n] more
    alerts and no other field has changed, and [fileInfo] is not written. *)
Theorem X2_clicks_without_files ds s :
  allTileFiles s = [] ->
  (besidesConsole (Dense.navigateAll ds s) = besidesConsole s
   /\ console (Dense.navigateAll ds s)
      = console s ++ replicate (length ds) AlertLoadFilesFirst)
  /\ (besidesConsole (Fixed3x3.navigateAll ds s) = besidesConsole s
      /\ console (Fixed3x3.navigateAll ds s)
         = console s ++ replicate (length ds) AlertLoadFilesFirst)
  /\ (forall d, Dense.navigateInfo d s = None /\ Fixed3x3.navigateInfo d s = None).
Proof.
  intros Hs. split_and!.
  - apply (navigateAll_no_store Dense.navigate); [|done].
    intros d s0 H0. unfold Dense.navigate. by rewrite H0.
  - apply (navigateAll_no_store Dense.navigate); [|done].
    intros d s0 H0. unfold Dense.navigate. by rewrite H0.
  - apply (navigateAll_no_store Fixed3x3.navigate); [|done].
    intros d s0 H0. unfold Fixed3x3.navigate. by rewrite H0.
  - apply (navigateAll_no_store Fixed3x3.navigate); [|done].
    intros d s0 H0. unfold Fixed3x3.navigate. by rewrite H0.
  - intros d. unfold Dense.navigateInfo, Fixed3x3.navigateInfo. by rewrite Hs.
Qed.

(** The theorem at two clicks on the state of a new page. *)
Lemma X2_clicks_without_files_witness :
  console (Dense.navigateAll [Left; Up] init_state)
  = [AlertLoadFilesFirst; AlertLoadFilesFirst]
  /\ currentTile (Fixed3x3.navigateAll [Left; Up] init_state) = (CInt 0, CInt 0).
Proof.
  destruct (X2_clicks_without_files [Left; Up] init_state eq_refl)
    as ((_ & Hc) & (Hb & _) & _).
  split; [exact Hc|].
  apply (f_equal (fun v => v.1.1.1.1)) in Hb. by apply grid_of_catalog, grid_currentTile in Hb.
Defined.

(** ** What an activation shows, and going back *)

Lemma dense_activate_resident tile s :
  residentFiles (dense_activate tile s)
  = file <$> loadablePrefix (Dense.filesToLoad (set_currentTile tile s)).
Proof.
  unfold dense_activate, Dense.loadCurrentTile, residentFiles.
  set (s0 := clearCurrentPointClouds (set_currentTile tile s)).
  change (Dense.filesToLoad s0) with (Dense.filesToLoad (set_currentTile tile s)).
  destruct (loadFiles_spec (Dense.filesToLoad (set_currentTile tile s)) s0)
    as (new & Hc & _ & Hsrc & _).
  simpl in Hc. by rewrite Hc.
Qed.

Lemma fixed_activate_resident tile s :
  residentFiles (fixed_activate tile s)
  = file <$> loadablePrefix (tileFilesAt tile (allTileFiles s)).
Proof.
  unfold fixed_activate, Fixed3x3.loadCurrentTile, residentFiles.
  set (s0 := clearCurrentPointClouds (set_currentTile tile s)).
  change (tileFilesAt (currentTile s0) (allTileFiles s0))
    with (tileFilesAt tile (allTileFiles s)).
  destruct (loadFiles_spec (tileFilesAt tile (allTileFiles s)) s0)
    as (new & Hc & _ & Hsrc & _).
  simpl in Hc. by rewrite Hc.
Qed.

Lemma tiling_fields s s' :
  tilingOf s' = tilingOf s ->
  allTileFiles s' = allTileFiles s /\ initialTileFiles s' = initialTileFiles s
  /\ initialTilesLoaded s' = initialTilesLoaded s.
Proof. unfold tilingOf. by intros [= _ _ _ _ _ _ _ ? ? ?]. Qed.

Lemma activate_same_tiling tile s1 s2 :
  tilingOf s1 = tilingOf s2 ->
  residentFiles (dense_activate tile s1) = residentFiles (dense_activate tile s2)
  /\ residentFiles (fixed_activate tile s1) = residentFiles (fixed_activate tile s2).
Proof.
  intros (Ha & Hi & Hl)%tiling_fields.
  rewrite !dense_activate_resident, !fixed_activate_resident.
  unfold Dense.filesToLoad; simpl. by rewrite Ha, Hi, Hl.
Qed.

(** X3: what a tile shows does not depend on the way to it.  In both
    variants the files resident after a tile is activated are the same
    whatever clicks were handled before: they are determined by the tile and
    the tiling alone (the identities of the point clouds are new each
    time). *)
Theorem X3_activation_ignores_history :
  (forall ds tile s,
      residentFiles (dense_activate tile (Dense.navigateAll ds s))
      = residentFiles (dense_activate tile s))
  /\ (forall ds tile s,
        residentFiles (fixed_activate tile (Fixed3x3.navigateAll ds s))
        = residentFiles (fixed_activate tile s)).
Proof.
  split; intros ds tile s.
  - by destruct (activate_same_tiling tile _ _ (dense_navigateAll_tiling ds s)).
  - by destruct (activate_same_tiling tile _ _ (fixed_navigateAll_tiling ds s)).
Qed.


Lemma dense_navigate_activate d s :
  allTileFiles s ≠ [] ->
  dense_admissible s (destination d (currentTile s)) = true ->
  Dense.navigate d s = dense_activate (destination d (currentTile s)) s.
Proof.
  intros Hne Hadm. unfold Dense.navigate, dense_activate.
  destruct (allTileFiles s) eqn:Hall; [done|]. rewrite <- Hall.
  unfold dense_admissible in Hadm.
  destruct (destination d (currentTile s)) as [nx ny]. simpl in Hadm.
  by rewrite Hadm.
Qed.


Lemma dense_activate_tile tile s : currentTile (dense_activate tile s) = tile.
Proof.
  unfold dense_activate.
  pose proof (dense_loadCurrentTile_catalog (set_currentTile tile s)) as Hc.
  by apply grid_of_catalog, grid_currentTile in Hc.
Qed.

Lemma fixed_activate_tile tile s : currentTile (fixed_activate tile s) = tile.
Proof.
  unfold fixed_activate.
  pose proof (fixed_loadCurrentTile_catalog (set_currentTile tile s)) as Hc.
  by apply grid_of_catalog, grid_currentTile in Hc.
Qed.


Lemma fixed_activate_tiling tile s : tilingOf (fixed_activate tile s) = tilingOf s.
Proof.
  unfold fixed_activate. eapply tiling_of_catalog. apply fixed_loadCurrentTile_catalog.
Qed.




(** ** The grid of the first variant on finite boxes *)

Lemma dense_calculate_shape s :
  fileCoordinates s ≠ [] ->
  let s2 := computeGridFrame Dense.multiplier s in
  exists m',
    Dense.calculateGridOrganization s
    = set_currentTile (coord_half (Dense.totalTilesX s2), coord_half (Dense.totalTilesY s2))
        (set_allTileFiles m' s2).
Proof.
  intros Hne. cbv zeta. rewrite dense_calculate_nonempty by done.
  destruct (dense_organize_store (computeGridFrame Dense.multiplier s))
    as (m' & Hm & _). by exists m'.
Qed.


(** The frame the organizer computes for a folder of distinct names and
    finite boxes. *)
Lemma dense_frame_finite s :
  NoDup (name <$> plyFiles s) ->
  (forall g, g ∈ plyFiles s -> analyzable g = true -> is_Some (rect g)) ->
  rects (plyFiles s) ≠ [] ->
  let s' := Dense.calculateGridOrganization (analyzeAllFiles s) in
  let rs := rects (plyFiles s) in
  exists mnX mxX mnY mxY ts,
    (minX s', maxX s', minY s', maxY s') = (Fin mnX, Fin mxX, Fin mnY, Fin mxY)
    /\ tileSize s' = Fin ts
    /\ (ts == Spec.tileSize Dense.multiplier (extentsX rs) (extentsY rs))%Q
    /\ Spec.is_minimum mnX ((fun r => r.1.1.1) <$> rs)
    /\ Spec.is_maximum mxX ((fun r => r.1.1.2) <$> rs)
    /\ Spec.is_minimum mnY ((fun r => r.1.2) <$> rs)
    /\ Spec.is_maximum mxY ((fun r => r.2) <$> rs)
    /\ currentTile s'
       = (coord_half (Dense.totalTilesX s'), coord_half (Dense.totalTilesY s')).
Proof.
  intros Hnd Hfin Hne. cbv zeta.
  destruct (analyzeAllFiles_spec s) as (_ & _ & _ & Hfc). specialize (Hfc Hnd).
  assert (Hvals : Forall2 covers (jsmap_values (fileCoordinates (analyzeAllFiles s)))
                    (rects (plyFiles s))).
  { rewrite Hfc. by apply values_cover. }
  assert (Hfcne : fileCoordinates (analyzeAllFiles s) ≠ []).
  { intros Hnil. apply (covers_nonempty _ _ Hvals Hne). by rewrite Hnil. }
  destruct (dense_calculate_shape _ Hfcne) as (m' & ->).
  set (s2 := computeGridFrame Dense.multiplier (analyzeAllFiles s)).
  destruct (boundsLoop_spec _ _ Hvals Hne)
    as (mnX & mxX & mnY & mxY & Hbounds & H1 & H2 & H3 & H4).
  rewrite <- (computeGridFrame_bounds Dense.multiplier) in Hbounds. fold s2 in Hbounds.
  destruct (computeGridFrame_tileSize Dense.multiplier _ _ Hvals Hne) as (ts & Hts & Hq).
  fold s2 in Hts.
  exists mnX, mxX, mnY, mxY, ts. by split_and!.
Qed.

Lemma dense_totals_finite s mnX mxX mnY mxY ts :
  (minX s, maxX s, minY s, maxY s) = (Fin mnX, Fin mxX, Fin mnY, Fin mxY) ->
  tileSize s = Fin ts -> ~ (ts == 0)%Q ->
  Dense.totalTilesX s = CInt (Spec.gridExtent mxX mnX ts)
  /\ Dense.totalTilesY s = CInt (Spec.gridExtent mxY mnY ts).
Proof.
  intros [= Ha Hb Hc Hd] Hts Hnz. unfold Dense.totalTilesX, Dense.totalTilesY.
  rewrite Ha, Hb, Hc, Hd, Hts. unfold num_sub, num_neg, num_add.
  by rewrite !num_div_nonzero.
Qed.

Lemma Qpos_nonzero q : (0 < q)%Q -> ~ (q == 0)%Q.
Proof. intros Hq Hz. rewrite Hz in Hq. by apply Qlt_irrefl in Hq. Qed.

(** ** The selection of a folder comes to an end *)




(** ** A folder of clouds without extent *)








(** ** Clouds with an extent lie inside the grid *)








Lemma gridExtent_pos mx mn ts :
  (0 < ts)%Q -> (mn < mx)%Q -> 0 < Spec.gridExtent mx mn ts.
Proof.
  intros Hts Hlt. unfold Spec.gridExtent. rewrite Zlt_Qlt.
  eapply Qlt_le_trans; [|apply Qle_ceiling]. change (inject_Z 0) with 0%Q.
  apply Qlt_shift_div_l; [done|]. lra.
Qed.

(** X8: the initial tile is a position of the grid.  First variant, for a
    folder of pairwise distinct names whose extracted boxes are finite and
    not inverted: when some box has a positive extent on X and some box has
    one on Y, the grid is at least one tile wide and high and the tile the
    organizer starts from, [(floor(w / 2), floor(h / 2))], is accepted by
    [isValidTilePosition]. *)
Theorem X8_initial_tile_valid s r r' :
  NoDup (name <$> plyFiles s) ->
  (forall g, g ∈ plyFiles s -> analyzable g = true -> is_Some (rect g)) ->
  upright (rects (plyFiles s)) ->
  r ∈ rects (plyFiles s) -> (r.1.1.1 < r.1.1.2)%Q ->
  r' ∈ rects (plyFiles s) -> (r'.1.2 < r'.2)%Q ->
  let s' := Dense.calculateGridOrganization (analyzeAllFiles s) in
  exists w h,
    Dense.totalTilesX s' = CInt w /\ Dense.totalTilesY s' = CInt h
    /\ 0 < w /\ 0 < h
    /\ currentTile s' = (CInt (w / 2), CInt (h / 2))
    /\ Dense.isValidTilePosition s' (currentTile s').1 (currentTile s').2 = true.
Proof.
  intros Hnd Hfin Hup Hr Hx Hr' Hy. cbv zeta.
  assert (Hne : rects (plyFiles s) ≠ []).
  { intros Hnil. rewrite Hnil in Hr. by apply elem_of_nil in Hr. }
  destruct (dense_frame_finite s Hnd Hfin Hne)
    as (mnX & mxX & mnY & mxY & ts & Hb & Hts & Hq & HmnX & HmxX & HmnY & HmxY & Htile).
  set (s' := Dense.calculateGridOrganization (analyzeAllFiles s)) in *.
  assert (Htspos : (0 < ts)%Q).
  { rewrite Hq. apply (tileSize_pos _ _ r); [done|done|done|by left]. }
  destruct (dense_totals_finite s' _ _ _ _ _ Hb Hts (Qpos_nonzero _ Htspos)) as [HX HY].
  assert (Hw : 0 < Spec.gridExtent mxX mnX ts).
  { apply gridExtent_pos; [done|].
    destruct HmnX as [Hmin _]. destruct HmxX as [Hmax _].
    eapply Qle_lt_trans; [apply Hmin; apply list_elem_of_fmap; by exists r|].
    eapply Qlt_le_trans; [exact Hx|]. apply Hmax. apply list_elem_of_fmap. by exists r. }
  assert (Hh : 0 < Spec.gridExtent mxY mnY ts).
  { apply gridExtent_pos; [done|].
    destruct HmnY as [Hmin _]. destruct HmxY as [Hmax _].
    eapply Qle_lt_trans; [apply Hmin; apply list_elem_of_fmap; by exists r'|].
    eapply Qlt_le_trans; [exact Hy|]. apply Hmax. apply list_elem_of_fmap. by exists r'. }
  rewrite HX, HY in Htile. cbn [coord_half] in Htile.
  exists (Spec.gridExtent mxX mnX ts), (Spec.gridExtent mxY mnY ts).
  split_and!; try done.
  rewrite Htile. cbn [fst snd]. apply (dense_valid_integers s' _ _ _ _ HX HY).
  split.
  - split; [apply Z.div_pos; lia|apply Z.div_lt_upper_bound; lia].
  - split; [apply Z.div_pos; lia|apply Z.div_lt_upper_bound; lia].
Qed.

(** The theorem at the folder of [scanA] and [scanB]: a grid of 2 x 2 tiles,
    started from [(1,1)]. *)
Lemma X8_initial_tile_valid_witness :
  let s' := Dense.calculateGridOrganization
              (analyzeAllFiles (set_plyFiles [scanA; scanB] init_state)) in
  exists w h,
    Dense.totalTilesX s' = CInt w /\ Dense.totalTilesY s' = CInt h
    /\ 0 < w /\ 0 < h
    /\ currentTile s' = (CInt (w / 2), CInt (h / 2))
    /\ Dense.isValidTilePosition s' (currentTile s').1 (currentTile s').2 = true.
Proof.
  apply (X8_initial_tile_valid (set_plyFiles [scanA; scanB] init_state)
           (0, 10, 0, 10)%Q (0, 10, 0, 10)%Q).
  - apply (bool_decide_unpack _). by vm_compute.
  - intros g Hg _. vm_compute in Hg.
    repeat (apply elem_of_cons in Hg as [->|Hg]; [by eexists|]).
    by apply elem_of_nil in Hg.
  - intros r Hr. vm_compute in Hr.
    repeat (apply elem_of_cons in Hr as [->|Hr]; [by vm_compute|]).
    by apply elem_of_nil in Hr.
  - vm_compute. left.
  - done.
  - vm_compute. left.
  - done.
Defined.

(** ** The initial pass of the first variant *)

Lemma loadablePrefix_length files : (length (loadablePrefix files) <= length files)%nat.
Proof.
  induction files as [|tf files IH]; simpl; [done|].
  destruct (loadable (file tf)); simpl; lia.
Qed.

Lemma loadFileForTile_cases tf s :
  let s' := (loadFileForTile tf s).1 in
  catalogOf s' = catalogOf s
  /\ (loadFileForTile tf s).2 = loadable (file tf)
  /\ currentPointClouds s'
     = currentPointClouds s
       ++ (if loadable (file tf)
           then [{| pointsId := nextId s; source := file tf |}] else []).
Proof.
  cbv zeta. unfold loadFileForTile. destruct (loadable (file tf)); simpl.
  - done.
  - by rewrite app_nil_r.
Qed.





(** ** The initial pass and the clouds of the 3x3 variant *)

Lemma entriesOf_get fs f :
  NoDup (name <$> fs) -> f ∈ fs ->
  jsmap_get (name f) (entriesOf fs) = extractCoordinatesFromFile f.
Proof.
  intros Hnd Hin.
  assert (Hkeys : NoDup (jsmap_keys (entriesOf fs))).
  { rewrite entriesOf_keys. apply (NoDup_fmap_2_strong name).
    - intros g h Hg%filter_analyzable_elem Hh%filter_analyzable_elem Hgh.
      by apply (name_inj_on fs); [|apply Hg|apply Hh|].
    - by apply NoDup_filter_analyzable, NoDup_of_names. }
  destruct (extractCoordinatesFromFile f) as [c|] eqn:Hc.
  - apply jsmap_elem_get; [done|]. by apply entriesOf_elem.
  - apply jsmap_get_None_keys. rewrite entriesOf_keys.
    intros (g & Hname & [Hg Ha]%filter_analyzable_elem)%list_elem_of_fmap.
    assert (f = g) by (by apply (name_inj_on fs)). subst g.
    unfold analyzable in Ha. unfold extractCoordinatesFromFile in Hc.
    by destruct (decoded f).
Qed.

Lemma fixed_loadInitialTiles_spec s :
  let slot := take 1 (tileFilesAt (currentTile s) (allTileFiles s)) in
  exists s',
    settled (Fixed3x3.loadInitialTiles s) = Some s'
    /\ gridOf s' = gridOf s
    /\ residentFiles s' = file <$> loadablePrefix slot
    /\ (Fixed3x3.loadInitialTiles s = Rejected s' <-> allLoadable slot = false)
    /\ initialTilesLoaded s' = (allLoadable slot || initialTilesLoaded s)
    /\ (clouds_ok s -> clouds_ok s').
Proof.
  cbv zeta. unfold Fixed3x3.loadInitialTiles, tileFilesAt.
  set (s0 := set_initialTileFiles [] (clearCurrentPointClouds s)).
  change (currentTile s0) with (currentTile s).
  change (allTileFiles s0) with (allTileFiles s).
  assert (Hok0 : clouds_ok s -> clouds_ok s0).
  { intros H. apply (clouds_ok_ext (clearCurrentPointClouds s)); try done.
    by apply clear_clouds_ok. }
  destruct (jsmap_get (currentTile s) (allTileFiles s)) as [[|tf l]|];
    cbn [default from_option id take allLoadable forallb loadablePrefix].
  - exists (set_initialTilesLoaded true s0).
    split_and!; [done|done|done|by split|done|].
    intros H. by apply (clouds_ok_ext s0); [| | |apply Hok0].
  - set (s1 := set_initialTileFiles _ s0).
    destruct (loadFileForTile_cases tf s1) as (Hcat & Hok & Hcur).
    pose proof (loadFileForTile_clouds_ok tf s1) as Hcl.
    destruct (loadFileForTile tf s1) as [s2 ok]. cbn [fst snd] in Hcat, Hok, Hcur, Hcl.
    subst ok.
    assert (Hcl' : clouds_ok s -> clouds_ok s2).
    { intros H. apply Hcl. by apply (clouds_ok_ext s0); [| | |apply Hok0]. }
    pose proof (grid_of_catalog _ _ Hcat) as Hgrid.
    apply catalog_fields in Hcat as (_ & _ & _ & _ & _ & _ & _ & _ & _ & _ & Hflag).
    destruct (loadable (file tf)) eqn:Hl.
    + exists (set_initialTilesLoaded true s2).
      change (residentFiles (set_initialTilesLoaded true s2)) with (residentFiles s2).
      unfold residentFiles. rewrite Hcur.
      split_and!; [done|done|done|by split|done|].
      intros H. by apply (clouds_ok_ext s2); [| | |apply Hcl'].
    + exists s2. unfold residentFiles. rewrite Hcur.
      split_and!; [done|done|done|by split|done|done].
  - exists (set_initialTilesLoaded true s0).
    split_and!; [done|done|done|by split|done|].
    intros H. by apply (clouds_ok_ext s0); [| | |apply Hok0].
Qed.

(** X10: what the 3x3 variant shows first.  When the PLY files of the
    selection have pairwise distinct names and one of them can be analysed,
    [handleFolderSelection] settles on the centre tile [(1,1)], and the
    only file that can be resident is the fifth PLY file of the selection:
    it is shown when it exists, can be analysed and loads; with fewer than
    five PLY files, or a fifth file without bounding box, nothing is
    shown; the promise is rejected exactly when the fifth file has a
    bounding box and its load fails. *)
Theorem X10_fixed_shows_fifth_file files s :
  let ply := List.filter is_ply files in
  NoDup (name <$> ply) ->
  (exists g, g ∈ ply /\ analyzable g = true) ->
  exists s',
    settled (Fixed3x3.handleFolderSelection files s) = Some s'
    /\ currentTile s' = (CInt 1, CInt 1)
    /\ residentFiles s'
       = match ply !! 4%nat with
         | Some f => if analyzable f && loadable f then [f] else []
         | None => []
         end
    /\ (Fixed3x3.handleFolderSelection files s = Rejected s'
        <-> exists f, ply !! 4%nat = Some f /\ analyzable f = true /\ loadable f = false).
Proof.
  cbv zeta. intros Hnd (g & Hg & Hga). unfold Fixed3x3.handleFolderSelection.
  destruct (List.filter is_ply files) as [|f0 fs] eqn:Hply.
  { by apply elem_of_nil in Hg. }
  rewrite <- Hply in *. set (ply := List.filter is_ply files) in *.
  set (s1 := set_initialTilesLoaded false (set_plyFiles ply s)).
  destruct (analyzeAllFiles_spec s1) as (_ & Hb%besidesAnalysis_plyFiles & _ & Hfc).
  specialize (Hfc Hnd). change (plyFiles s1) with ply in Hfc, Hb.
  assert (Hne : fileCoordinates (analyzeAllFiles s1) ≠ []).
  { rewrite Hfc. by apply (entriesOf_nonempty _ g). }
  rewrite fixed_calculate_nonempty by done.
  set (s2 := computeGridFrame Fixed3x3.multiplier (analyzeAllFiles s1)).
  destruct (computeGridFrame_fields Fixed3x3.multiplier (analyzeAllFiles s1))
    as (Hp & Hf & _). fold s2 in Hp, Hf. rewrite Hb in Hp. rewrite Hfc in Hf.
  destruct (fixed_organize_spec s2) as (_ & Hslots & Htile & _).
  specialize (Hslots 4%nat ltac:(lia)). rewrite Hp, Hf in Hslots.
  change (Spec.gridTile 4) with (CInt 1, CInt 1) in Hslots.
  set (s3 := Fixed3x3.organizeFilesIntoTiles s2) in *.
  destruct (fixed_loadInitialTiles_spec s3) as (s' & Hs' & Hgrid & Hres & Hrej & _).
  rewrite Htile, Hslots in Hres, Hrej.
  exists s'. split_and!; [done|by rewrite (grid_currentTile _ _ Hgrid)| |].
  - rewrite Hres. unfold fixedSlot.
    destruct (ply !! 4%nat) as [f|] eqn:Hf4; [|done].
    rewrite (entriesOf_get ply f Hnd (list_elem_of_lookup_2 _ _ _ Hf4)).
    unfold analyzable, extractCoordinatesFromFile. destruct (decoded f); [|done].
    cbn [take loadablePrefix file andb]. by destruct (loadable f).
  - rewrite Hrej. unfold fixedSlot.
    destruct (ply !! 4%nat) as [f|] eqn:Hf4.
    + rewrite (entriesOf_get ply f Hnd (list_elem_of_lookup_2 _ _ _ Hf4)).
      unfold extractCoordinatesFromFile. destruct (decoded f) eqn:Hd.
      * cbn [take allLoadable forallb file]. rewrite andb_true_r. split.
        -- intros Hl. exists f. unfold analyzable. by rewrite Hd.
        -- by intros (f' & [= <-] & _ & Hl).
      * cbn [take allLoadable forallb]. split; [done|].
        intros (f' & [= <-] & Ha & _). unfold analyzable in Ha. by rewrite Hd in Ha.
    + cbn [take allLoadable forallb]. split; [done|]. by intros (f' & ? & _).
Qed.

(** The theorem at the folder of [scanRow], whose fifth scan is
    [rowScan 4]. *)
Lemma X10_fixed_shows_fifth_file_witness :
  exists s',
    settled (Fixed3x3.handleFolderSelection scanRow init_state) = Some s'
    /\ currentTile s' = (CInt 1, CInt 1)
    /\ residentFiles s' = [rowScan 4].
Proof.
  destruct (X10_fixed_shows_fifth_file scanRow init_state) as (s' & Hs & Ht & Hres & _).
  - apply (bool_decide_unpack _). by vm_compute.
  - exists (rowScan 0). split; [|done]. vm_compute. left.
  - exists s'. split_and!; [done|done|].
    etrans; [exact Hres|]. by vm_compute.
Defined.

Lemma fixed_organize_clouds s :
  cloudsOf (Fixed3x3.organizeFilesIntoTiles s) = cloudsOf s.
Proof.
  unfold Fixed3x3.organizeFilesIntoTiles.
  set (store0 := fold_left (fun m key => jsmap_set key [] m) Fixed3x3.gridKeys
                   (allTileFiles (set_allTileFiles [] s))).
  set (s_b := set_allTileFiles store0 (set_allTileFiles [] s)).
  set (files := take 9 (plyFiles s_b)).
  set (s_c := if bool_decide (length files < 9)%nat
              then emit (WarnOnlyFiles (length files)) s_b else s_b).
  rewrite (assign_fold_index files Fixed3x3.gridKeys s_c 0 0) by (by left).
  set (kjs := zip Fixed3x3.gridKeys (seq 0 (length Fixed3x3.gridKeys))).
  assert (Hb : besidesStore (fold_left (assignAt files) kjs s_c) = besidesStore s_c).
  { apply (fold_left_preserve (assignAt files) besidesStore).
    intros a [key j]. apply assignAt_cases. }
  assert (Hc : besidesStore s_c = besidesStore s).
  { subst s_c. by destruct (bool_decide _). }
  rewrite Hc in Hb.
  pose proof (f_equal (fun c => (c.1.1.1.1.1.2, c.1.1.1.1.2, c.1.2, c.2)) Hb) as Hcl.
  cbn [besidesStore fst snd] in Hcl.
  unfold cloudsOf. cbn [loadedPointClouds currentPointClouds scene nextId set_currentTile].
  exact Hcl.
Qed.

Lemma fixed_calculate_clouds s :
  cloudsOf (Fixed3x3.calculateGridOrganization s) = cloudsOf s.
Proof.
  unfold Fixed3x3.calculateGridOrganization. destruct (fileCoordinates s); [done|].
  rewrite fixed_organize_clouds.
  pose proof (computeGridFrame_besides Fixed3x3.multiplier s) as Hb.
  exact (f_equal (fun c => (c.1.1.1.1.1.1.2, c.1.1.1.1.1.2, c.1.1.2, c.1.2)) Hb).
Qed.

Lemma clouds_ok_cloudsOf s s' : cloudsOf s' = cloudsOf s -> clouds_ok s -> clouds_ok s'.
Proof. unfold cloudsOf. intros [= _ ? ? ?]. by apply clouds_ok_ext. Qed.

Lemma fixed_organize_single s :
  single_slots (allTileFiles (Fixed3x3.organizeFilesIntoTiles s)).
Proof.
  destruct (fixed_organize_spec s) as (Hkeys & Hslots & _).
  intros key l Hin.
  assert (Hkey : key ∈ Spec.gridTile <$> seq 0 9).
  { rewrite <- Hkeys. apply list_elem_of_fmap. by exists (key, l). }
  apply list_elem_of_fmap in Hkey as (i & -> & Hi%elem_of_seq).
  assert (Hnd : NoDup (jsmap_keys (allTileFiles (Fixed3x3.organizeFilesIntoTiles s)))).
  { rewrite Hkeys. apply (bool_decide_unpack _). by vm_compute. }
  pose proof (jsmap_elem_get _ _ _ Hnd Hin) as Hget.
  specialize (Hslots i ltac:(lia)). unfold tileFilesAt in Hslots.
  rewrite Hget in Hslots. cbn [default from_option id] in Hslots. subst l.
  unfold fixedSlot. destruct (plyFiles s !! i) as [f|]; [|simpl; lia].
  destruct (jsmap_get (name f) (fileCoordinates s)); simpl; lia.
Qed.

Lemma single_slots_tile m key :
  single_slots m -> (length (tileFilesAt key m) <= 1)%nat.
Proof.
  intros Hm. unfold tileFilesAt. destruct (jsmap_get key m) as [l|] eqn:Hg; [|simpl; lia].
  apply jsmap_get_Some_elem in Hg. exact (Hm _ _ Hg).
Qed.

Lemma fixed_activate_inv tile s : fixed_inv s -> fixed_inv (fixed_activate tile s).
Proof.
  intros (Hok & Hsingle & _). split_and!.
  - unfold fixed_activate, Fixed3x3.loadCurrentTile.
    apply loadFiles_clouds_ok. apply clear_clouds_ok.
    by apply (clouds_ok_ext s).
  - destruct (tiling_fields _ _ (fixed_activate_tiling tile s)) as (-> & _). done.
  - pose proof (fixed_activate_resident tile s) as Hres.
    apply (f_equal length) in Hres. unfold residentFiles in Hres.
    rewrite !length_fmap in Hres. rewrite Hres.
    etrans; [apply loadablePrefix_length|]. by apply single_slots_tile.
Qed.

Lemma fixed_navigate_inv d s : fixed_inv s -> fixed_inv (Fixed3x3.navigate d s).
Proof.
  intros Hinv. unfold Fixed3x3.navigate.
  destruct (allTileFiles s) eqn:Hall.
  { destruct Hinv as (Hok & Hsingle & Hlen).
    split_and!; [by apply (clouds_ok_ext s)| |done].
    intros key l Hin. change (allTileFiles (emit AlertLoadFilesFirst s))
      with (allTileFiles s) in Hin. rewrite Hall in Hin. by apply elem_of_nil in Hin. }
  rewrite <- Hall.
  destruct (destination d (currentTile s)) as [nx ny].
  destruct (Fixed3x3.inGrid nx ny); [|done].
  destruct (tileFilesAt (nx, ny) (allTileFiles s)); [done|].
  by apply (fixed_activate_inv (nx, ny)).
Qed.

Lemma fixed_handleFolderSelection_inv files s s' :
  settled (Fixed3x3.handleFolderSelection files s) = Some s' ->
  fixed_inv s -> fixed_inv s'.
Proof.
  unfold Fixed3x3.handleFolderSelection. intros Hs (Hok & Hsingle & Hlen).
  destruct (List.filter is_ply files) as [|f0 fs].
  { injection Hs as <-. split_and!; [by apply (clouds_ok_ext s)|done|done]. }
  set (s1 := set_initialTilesLoaded false (set_plyFiles (f0 :: fs) s)) in *.
  destruct (analyzeAllFiles_spec s1) as (_ & Hb & _).
  set (s2 := analyzeAllFiles s1) in *.
  assert (Hok2 : clouds_ok s2).
  { apply (clouds_ok_ext s).
    - exact (f_equal (fun c => c.1.1.1.1.2) Hb).
    - exact (f_equal (fun c => c.1.2) Hb).
    - exact (f_equal (fun c => c.2) Hb).
    - done. }
  assert (Hstore2 : allTileFiles s2 = allTileFiles s).
  { pose proof (analyzeAllFiles_grid s1) as Hg. fold s2 in Hg.
    exact (f_equal (fun c => c.1.2) Hg). }
  set (s3 := Fixed3x3.calculateGridOrganization s2) in *.
  assert (Hok3 : clouds_ok s3).
  { apply (clouds_ok_cloudsOf s2); [apply fixed_calculate_clouds|done]. }
  assert (Hsingle3 : single_slots (allTileFiles s3)).
  { subst s3. unfold Fixed3x3.calculateGridOrganization.
    destruct (fileCoordinates s2); [by rewrite Hstore2|apply fixed_organize_single]. }
  destruct (fixed_loadInitialTiles_spec s3) as (s'' & Hs'' & Hgrid & Hres & _ & _ & Hcl).
  rewrite Hs'' in Hs. injection Hs as <-.
  split_and!.
  - by apply Hcl.
  - pose proof (f_equal (fun c => c.1.2) Hgrid) as Hst. cbn [gridOf fst snd] in Hst.
    by rewrite Hst.
  - apply (f_equal length) in Hres. unfold residentFiles in Hres.
    rewrite !length_fmap in Hres. rewrite Hres.
    etrans; [apply loadablePrefix_length|]. rewrite length_take. lia.
Qed.

(** X11: the 3x3 variant never shows more than one cloud.  In every state
    a session of this variant reaches, every tile holds at most one file,
    at most one point cloud is resident, the scene holds exactly the
    resident point clouds, and every point cloud was numbered before
    [nextId]. *)
Theorem X11_fixed_one_cloud s :
  reachable_fixed s ->
  (length (currentPointClouds s) <= 1)%nat
  /\ scene s = currentPointClouds s
  /\ (forall key, (length (tileFilesAt key (allTileFiles s)) <= 1)%nat)
  /\ ids_fresh s.
Proof.
  intros Hr.
  assert (Hinv : fixed_inv s).
  { induction Hr as [|files s s' _ IH Hs|d s _ IH].
    - split_and!; [|by intros ?? ?%elem_of_nil|simpl; lia].
      split; [|done]. by intros p ?%elem_of_nil.
    - by eapply fixed_handleFolderSelection_inv.
    - by apply fixed_navigate_inv. }
  destruct Hinv as ((Hids & Hsc) & Hsingle & Hlen).
  split_and!; try done. intros key. by apply single_slots_tile.
Qed.

(** The theorem at the session of [scanRow] after two clicks. *)
Lemma X11_fixed_one_cloud_witness :
  let s := Fixed3x3.navigateAll [Left; Down]
             (default init_state (fixedSession scanRow)) in
  (length (currentPointClouds s) <= 1)%nat /\ scene s = currentPointClouds s.
Proof.
  set (s0 := default init_state (fixedSession scanRow)).
  assert (Hr : reachable_fixed (Fixed3x3.navigateAll [Left; Down] s0)).
  { apply rf_navigate, rf_navigate.
    apply (rf_folder scanRow init_state); [apply rf_init|by vm_compute]. }
  destruct (X11_fixed_one_cloud _ Hr) as (H1 & H2 & _). by split.
Defined.

(** ** Files of the same name *)

Lemma analyze_fold_get nm fs s acc :
  jsmap_get nm (fileCoordinates s) = acc ->
  jsmap_get nm (fileCoordinates (fold_left analyzeFile fs s))
  = fold_left
      (fun acc f =>
         if bool_decide (name f = nm)
         then match extractCoordinatesFromFile f with
              | Some c => Some c
              | None => acc
              end
         else acc)
      fs acc.
Proof.
  revert s acc. induction fs as [|f fs IH]; intros s acc Hacc; [done|].
  cbn [fold_left]. apply IH.
  destruct (analyzeFile_cases s f) as [(c & -> & _ & ->)|(-> & _ & ->)].
  - cbn [fileCoordinates set_fileCoordinates]. case_bool_decide as Hnm.
    + subst nm. apply jsmap_get_set_eq.
    + by rewrite jsmap_get_set_ne.
  - cbn [fileCoordinates emit]. by destruct (bool_decide _).
Qed.

Lemma analyze_fold_keys_NoDup fs s :
  NoDup (jsmap_keys (fileCoordinates s)) ->
  NoDup (jsmap_keys (fileCoordinates (fold_left analyzeFile fs s))).
Proof.
  revert s. induction fs as [|f fs IH]; intros s Hnd; [done|].
  cbn [fold_left]. apply IH.
  destruct (analyzeFile_cases s f) as [(c & _ & _ & ->)|(_ & _ & ->)]; [|done].
  by apply jsmap_keys_set_NoDup.
Qed.

Lemma find_name files nm f :
  List.find (fun g => bool_decide (name g = nm)) files = Some f -> name f = nm.
Proof. intros [_ H]%find_some. by apply bool_decide_eq_true in H. Qed.

Lemma tileFileFor_name s entry tf :
  tileFileFor s entry = Some tf ->
  name (file tf) = entry.1 /\ originalCoords tf = entry.2
  /\ List.find (fun g => bool_decide (name g = name (file tf))) (plyFiles s)
     = Some (file tf).
Proof.
  unfold tileFileFor. destruct (List.find _ _) as [f|] eqn:Hf; [|done].
  intros [= <-]. cbn [file originalCoords].
  pose proof (find_name _ _ _ Hf) as Hn. by rewrite Hn.
Qed.

Lemma omap_names_sublist s entries :
  name <$> (file <$> omap (tileFileFor s) entries) `sublist_of` jsmap_keys entries.
Proof.
  induction entries as [|entry entries IH]; [done|].
  cbn [omap list_omap jsmap_keys map]. fold (omap (tileFileFor s) entries).
  destruct (tileFileFor s entry) as [tf|] eqn:Htf.
  - apply tileFileFor_name in Htf as (Hn & _). cbn [fmap list_fmap].
    rewrite Hn. by apply sublist_skip.
  - by apply sublist_cons.
Qed.

(** X12: files of the same name.  [fileCoordinates] is keyed by the name
    of the file: it has one entry per name, and the entry of a name holds
    the coordinates of the last file of that name that could be analysed.
    The organizer of the first variant looks the file of an entry up by
    name: every tile entry holds the first file of [plyFiles] of its name
    together with the coordinates of the last one, and no two tile entries
    have files of the same name. *)
Theorem X12_same_name s :
  let s1 := analyzeAllFiles s in
  let s' := Dense.calculateGridOrganization s1 in
  NoDup (jsmap_keys (fileCoordinates s1))
  /\ (forall nm, jsmap_get nm (fileCoordinates s1) = lastCoordinates nm (plyFiles s))
  /\ (fileCoordinates s1 ≠ [] ->
      NoDup (name <$> tiledFiles s')
      /\ forall tf, tf ∈ allTiled (allTileFiles s') ->
           List.find (fun g => bool_decide (name g = name (file tf))) (plyFiles s)
           = Some (file tf)
           /\ lastCoordinates (name (file tf)) (plyFiles s) = Some (originalCoords tf)).
Proof.
  cbv zeta.
  assert (Hnd : NoDup (jsmap_keys (fileCoordinates (analyzeAllFiles s)))).
  { unfold analyzeAllFiles. apply analyze_fold_keys_NoDup. apply NoDup_nil_2. }
  assert (Hget : forall nm, jsmap_get nm (fileCoordinates (analyzeAllFiles s))
                            = lastCoordinates nm (plyFiles s)).
  { intros nm. unfold analyzeAllFiles, lastCoordinates. by apply analyze_fold_get. }
  split_and!; [done|done|]. intros Hne.
  rewrite dense_calculate_nonempty by done.
  set (s2 := computeGridFrame Dense.multiplier (analyzeAllFiles s)).
  destruct (computeGridFrame_fields Dense.multiplier (analyzeAllFiles s)) as (Hp & Hf & _).
  fold s2 in Hp, Hf.
  destruct (analyzeAllFiles_spec s) as (_ & Hb%besidesAnalysis_plyFiles & _).
  rewrite Hb in Hp.
  destruct (dense_organize_store s2) as (m' & -> & Hperm & _).
  unfold tiledFiles. cbn [allTileFiles set_currentTile set_allTileFiles]. split.
  - rewrite Hperm. eapply sublist_NoDup; [|apply omap_names_sublist]. by rewrite Hf.
  - intros tf Htf. rewrite Hperm in Htf.
    apply list_elem_of_omap in Htf as ([nm c] & Hin & Htf).
    apply tileFileFor_name in Htf as (Hn & Hc & Hfind). cbn [fst snd] in Hn, Hc.
    rewrite Hp in Hfind. split; [done|].
    rewrite <- Hget, Hn, Hc. apply jsmap_elem_get; [done|]. by rewrite <- Hf.
Qed.

(** The theorem at a folder with two files called [a.ply]: the tile store
    holds the first of them with the box of the second. *)
Lemma X12_same_name_witness :
  let s := set_plyFiles [scanA; scanA2] init_state in
  let s' := Dense.calculateGridOrganization (analyzeAllFiles s) in
  Forall
    (fun tf =>
       List.find (fun g => bool_decide (name g = name (file tf))) [scanA; scanA2]
       = Some (file tf)
       /\ lastCoordinates (name (file tf)) [scanA; scanA2] = Some (originalCoords tf))
    (allTiled (allTileFiles s'))
  /\ tiledFiles s' = [scanA].
Proof.
  destruct (X12_same_name (set_plyFiles [scanA; scanA2] init_state)) as (_ & _ & H).
  destruct H as [_ H]; [by vm_compute|].
  split; [apply Forall_forall; exact H|vm_compute; reflexivity].
Defined.

(** ** The tile store of a session of the first variant *)

Lemma pushTileFile_populated key tf m :
  NoDup (jsmap_keys m) -> populated m -> populated (Dense.pushTileFile key tf m).
Proof.
  intros Hnd Hpop k l Hin.
  pose proof (jsmap_elem_get _ _ _ (pushTileFile_keys_NoDup key tf m Hnd) Hin) as Hget.
  destruct (decide (key = k)) as [<-|Hne].
  - rewrite pushTileFile_get in Hget. injection Hget as <-.
    intros [_ ?]%app_eq_nil. done.
  - rewrite pushTileFile_get_ne in Hget by done.
    apply jsmap_get_Some_elem in Hget. by apply (Hpop k).
Qed.

Lemma organize_fold_ok entries s m :
  store_ok m ->
  store_ok (allTileFiles (fold_left Dense.organizeStep entries (set_allTileFiles m s))).
Proof.
  revert m. induction entries as [|entry entries IH]; intros m Hm; [done|].
  cbn [fold_left]. rewrite organizeStep_unfold.
  destruct (tileFileFor s entry) as [tf|]; [|by apply IH].
  apply IH. destruct Hm as (Hnd & Hkeyed & Hpop). split_and!.
  - by apply pushTileFile_keys_NoDup.
  - by apply pushTileFile_keyed.
  - by apply pushTileFile_populated.
Qed.

Lemma store_ok_nil : store_ok [].
Proof.
  split_and!; [apply NoDup_nil_2| |]; intros key l; [intros tf|];
    by intros ?%elem_of_nil.
Qed.

Lemma dense_calculate_store_ok s :
  store_ok (allTileFiles s) -> store_ok (allTileFiles (Dense.calculateGridOrganization s)).
Proof.
  intros Hok. unfold Dense.calculateGridOrganization.
  destruct (fileCoordinates s); [done|].
  unfold Dense.organizeFilesIntoTiles. cbn [allTileFiles set_currentTile].
  set (s2 := computeGridFrame Dense.multiplier s).
  change (fileCoordinates (set_allTileFiles [] s2)) with (fileCoordinates s2).
  apply organize_fold_ok, store_ok_nil.
Qed.

Lemma gridOf_store s s' : gridOf s' = gridOf s -> allTileFiles s' = allTileFiles s.
Proof. intros H. exact (f_equal (fun c => c.1.2) H). Qed.

Lemma reachable_dense_store s : reachable_dense s -> store_ok (allTileFiles s).
Proof.
  induction 1 as [|files s s' _ IH Hs|d s _ IH].
  - apply store_ok_nil.
  - revert Hs. unfold Dense.handleFolderSelection.
    destruct (List.filter is_ply files) as [|f0 fs]; [by intros [= <-]|].
    intros (Hg & _)%dense_loadInitialTiles_inv.
    rewrite (gridOf_store _ _ Hg). apply dense_calculate_store_ok.
    by rewrite (gridOf_store _ _ (analyzeAllFiles_grid _)).
  - destruct (tiling_fields _ _ (dense_navigate_tiling d s)) as (-> & _). done.
Qed.

(** X13: the tile store of a session of the first variant.  In every
    reachable state no key of [allTileFiles] occurs twice, every entry sits
    under the key made of its own [tileX] and [tileY], and no key holds an
    empty array; so the test [allTileFiles.has(key)] of [navigate] holds
    exactly for the tiles that have a file, and a click is accepted exactly
    when the destination has a file or is a valid position. *)
Theorem X13_dense_store s :
  reachable_dense s ->
  NoDup (jsmap_keys (allTileFiles s))
  /\ (forall key tf, tf ∈ tileFilesAt key (allTileFiles s) -> key = (tileX tf, tileY tf))
  /\ (forall key, jsmap_has key (allTileFiles s) = true
                  <-> tileFilesAt key (allTileFiles s) ≠ [])
  /\ (forall d, allTileFiles s ≠ [] ->
        let dest := destination d (currentTile s) in
        currentTile (Dense.navigate d s) = dest
        <-> (dest = currentTile s
              \/ tileFilesAt dest (allTileFiles s) ≠ []
              \/ Dense.isValidTilePosition s dest.1 dest.2 = true)).
Proof.
  intros (Hnd & Hkeyed & Hpop)%reachable_dense_store.
  assert (Hhas : forall key, jsmap_has key (allTileFiles s) = true
                             <-> tileFilesAt key (allTileFiles s) ≠ []).
  { intros key. unfold jsmap_has, tileFilesAt.
    destruct (jsmap_get key (allTileFiles s)) as [l|] eqn:Hg; cbn [default from_option id].
    - split; [|done]. intros _. apply (Hpop key). by apply jsmap_get_Some_elem.
    - split; [done|]. by intros []. }
  split_and!; [done| |done|].
  - intros key tf. unfold tileFilesAt.
    destruct (jsmap_get key (allTileFiles s)) as [l|] eqn:Hg; cbn [default from_option id].
    + apply jsmap_get_Some_elem in Hg. by apply Hkeyed.
    + by intros ?%elem_of_nil.
  - intros d Hne. cbv zeta.
    destruct (dense_admissible s (destination d (currentTile s))) eqn:Hadm.
    + rewrite (dense_navigate_accepts d s Hne Hadm). split; [|done]. intros _. right.
      unfold dense_admissible in Hadm. apply orb_true_iff in Hadm as [H|H].
      * left. by apply Hhas.
      * by right.
    + rewrite (dense_navigate_rejects d s Hadm). split; [by left|].
      intros [H|[H|H]]; [done| |].
      * apply Hhas in H. unfold dense_admissible in Hadm. by rewrite H in Hadm.
      * unfold dense_admissible in Hadm. rewrite H in Hadm.
        by rewrite orb_true_r in Hadm.
Qed.

(** The theorem at the session of [scanA] and [scanB]. *)
Lemma X13_dense_store_witness :
  let s := default init_state (denseSession [scanA; scanB]) in
  NoDup (jsmap_keys (allTileFiles s))
  /\ (jsmap_has (CInt 2, CInt 0) (allTileFiles s) = true
      <-> tileFilesAt (CInt 2, CInt 0) (allTileFiles s) ≠ []).
Proof.
  set (s := default init_state (denseSession [scanA; scanB])).
  assert (Hr : reachable_dense s).
  { apply (rd_folder [scanA; scanB] init_state); [apply rd_init|by vm_compute]. }
  destruct (X13_dense_store s Hr) as (H1 & _ & H3 & _). split; [done|apply H3].
Defined.

(** ** The filter of the folder input *)

Lemma toLowerCase_app a b :
  toLowerCase (a ++ b)%string = (toLowerCase a ++ toLowerCase b)%string.
Proof. induction a as [|c a IH]; simpl; [done|]. by rewrite IH. Qed.

Lemma toLowerCase_length s : String.length (toLowerCase s) = String.length s.
Proof. induction s as [|c s IH]; simpl; [done|]. by rewrite IH. Qed.

Lemma substring_all s : substring 0 (String.length s) s = s.
Proof. induction s as [|c s IH]; simpl; [done|]. by rewrite IH. Qed.

Lemma substring_app_r a b :
  substring (String.length a) (String.length b) (a ++ b)%string = b.
Proof. induction a as [|c a IH]; simpl; [apply substring_all|done]. Qed.

Lemma string_app_length a b :
  String.length (a ++ b)%string = (String.length a + String.length b)%nat.
Proof. induction a as [|c a IH]; simpl; [done|]. by rewrite IH. Qed.

Lemma endsWith_app a b : endsWith (a ++ b)%string b = true.
Proof.
  unfold endsWith. rewrite string_app_length.
  rewrite bool_decide_eq_true_2 by lia.
  replace (String.length a + String.length b - String.length b)%nat
    with (String.length a) by lia.
  rewrite substring_app_r. apply String.eqb_refl.
Qed.

Lemma substring_split s k :
  (k <= String.length s)%nat ->
  s = (substring 0 k s ++ substring k (String.length s - k) s)%string.
Proof.
  revert k. induction s as [|c s IH]; intros k Hk.
  - simpl in Hk. assert (k = 0%nat) as -> by lia. done.
  - destruct k as [|k].
    + simpl. by rewrite substring_all.
    + simpl in *.
      change (String c s = String c (substring 0 k s
                                     ++ substring k (String.length s - k) s)%string).
      f_equal. apply IH. lia.
Qed.

Lemma toLowerCase_substring k m s :
  toLowerCase (substring k m s) = substring k m (toLowerCase s).
Proof.
  revert k m. induction s as [|c s IH]; intros k m.
  - by destruct k, m.
  - destruct k as [|k].
    + destruct m as [|m]; [done|]. cbn [substring toLowerCase]. by rewrite IH.
    + cbn [substring toLowerCase]. apply IH.
Qed.

Lemma is_ply_iff f :
  is_ply f = true
  <-> exists base ext, name f = (base ++ ext)%string /\ toLowerCase ext = ".ply"%string.
Proof.
  unfold is_ply. split.
  - unfold endsWith. rewrite toLowerCase_length.
    intros [Hlen Heq]%andb_true_iff.
    apply bool_decide_eq_true in Hlen. apply String.eqb_eq in Heq.
    change (String.length ".ply") with 4%nat in *.
    set (k := (String.length (name f) - 4)%nat) in *.
    exists (substring 0 k (name f)), (substring k 4 (name f)). split.
    + replace 4%nat with (String.length (name f) - k)%nat at 1 by lia.
      apply substring_split. lia.
    + by rewrite toLowerCase_substring.
  - intros (base & ext & -> & Hext). rewrite toLowerCase_app, Hext.
    apply endsWith_app.
Qed.

Lemma loadInitialTilesAt_plyFiles keys s :
  plyFiles (Dense.loadInitialTilesAt keys s).1 = plyFiles s.
Proof.
  revert s. induction keys as [|k keys IH]; intros s; [done|].
  cbn [Dense.loadInitialTilesAt]. unfold Dense.loadInitialTile.
  destruct (tileFilesAt k (allTileFiles s)) as [|tf rest]; [apply IH|].
  match goal with |- context [loadFileForTile tf ?s0] =>
    pose proof (loadFileForTile_catalog tf s0) as Hc;
    destruct (loadFileForTile tf s0) as [s1 ok] end.
  apply catalog_fields in Hc as (Hp & _). cbn [fst] in Hp.
  destruct ok; [by rewrite IH|done].
Qed.

Lemma dense_loadInitialTiles_plyFiles s s' :
  settled (Dense.loadInitialTiles s) = Some s' -> plyFiles s' = plyFiles s.
Proof.
  unfold Dense.loadInitialTiles.
  set (s0 := set_initialTileFiles [] (clearCurrentPointClouds s)).
  change (plyFiles s) with (plyFiles s0).
  destruct (currentTile s0) as [cx cy].
  destruct (Dense.tileRange cx) as [[|x xs]|] eqn:Hx;
    [by intros [= <-]| |].
  - destruct (Dense.tileRange cy) as [ys|]; [|done].
    pose proof (loadInitialTilesAt_plyFiles (list_prod (x :: xs) ys) s0) as Hp.
    destruct (Dense.loadInitialTilesAt _ s0) as [s1 ok].
    destruct ok; by intros [= <-].
  - destruct (Dense.tileRange cy) as [ys|]; [|done].
    pose proof (loadInitialTilesAt_plyFiles (map (pair cx) ys) s0) as Hp.
    destruct (Dense.loadInitialTilesAt _ s0) as [s1 ok].
    destruct ok; [done|by intros [= <-]].
Qed.

Lemma fixed_loadInitialTiles_plyFiles s s' :
  settled (Fixed3x3.loadInitialTiles s) = Some s' -> plyFiles s' = plyFiles s.
Proof.
  unfold Fixed3x3.loadInitialTiles.
  set (s0 := set_initialTileFiles [] (clearCurrentPointClouds s)).
  change (plyFiles s) with (plyFiles s0).
  destruct (jsmap_get (currentTile s0) (allTileFiles s0)) as [[|tf l]|];
    try (by intros [= <-]).
  match goal with |- context [loadFileForTile tf ?s1] =>
    pose proof (loadFileForTile_catalog tf s1) as Hc;
    destruct (loadFileForTile tf s1) as [s2 ok] end.
  apply catalog_fields in Hc as (Hp & _). cbn [fst] in Hp.
  destruct ok; by intros [= <-].
Qed.

Lemma fixed_calculate_plyFiles s :
  plyFiles (Fixed3x3.calculateGridOrganization s) = plyFiles s.
Proof.
  unfold Fixed3x3.calculateGridOrganization.
  destruct (fileCoordinates s) as [|e es]; [done|].
  destruct (computeGridFrame_fields Fixed3x3.multiplier s) as (Hp & _).
  rewrite <- Hp. generalize (computeGridFrame Fixed3x3.multiplier s). intros s2.
  unfold Fixed3x3.organizeFilesIntoTiles.
  set (store0 := fold_left (fun m key => jsmap_set key [] m) Fixed3x3.gridKeys
                   (allTileFiles (set_allTileFiles [] s2))).
  set (s_b := set_allTileFiles store0 (set_allTileFiles [] s2)).
  set (files := take 9 (plyFiles s_b)).
  set (s_c := if bool_decide (length files < 9)%nat
              then emit (WarnOnlyFiles (length files)) s_b else s_b).
  rewrite (assign_fold_index files Fixed3x3.gridKeys s_c 0 0) by (by left).
  set (kjs := zip Fixed3x3.gridKeys (seq 0 (length Fixed3x3.gridKeys))).
  assert (Hb : besidesStore (fold_left (assignAt files) kjs s_c) = besidesStore s_c).
  { apply (fold_left_preserve (assignAt files) besidesStore).
    intros a [key j]. apply assignAt_cases. }
  assert (Hc : besidesStore s_c = besidesStore s2).
  { subst s_c. by destruct (bool_decide _). }
  rewrite Hc in Hb.
  exact (f_equal (fun c => c.1.1.1.1.1.1.1.1.1.1) Hb).
Qed.

(** X14: the filter of the folder input.  A file of the selection is taken
    exactly when its name ends with [.ply] in any mix of upper and lower
    case; in both variants, when at least one file is taken and the
    selection settles, [plyFiles] is the list of the files taken, in the
    order of the selection. *)
Theorem X14_ply_filter :
  (forall f,
      is_ply f = true
      <-> exists base ext,
            name f = (base ++ ext)%string /\ toLowerCase ext = ".ply"%string)
  /\ (forall files s s',
        List.filter is_ply files ≠ [] ->
        settled (Dense.handleFolderSelection files s) = Some s' ->
        plyFiles s' = List.filter is_ply files)
  /\ (forall files s s',
        List.filter is_ply files ≠ [] ->
        settled (Fixed3x3.handleFolderSelection files s) = Some s' ->
        plyFiles s' = List.filter is_ply files).
Proof.
  split_and!.
  - apply is_ply_iff.
  - intros files s s' Hne. unfold Dense.handleFolderSelection.
    destruct (List.filter is_ply files) as [|f0 fs]; [done|].
    intros ->%dense_loadInitialTiles_plyFiles.
    pose proof (dense_calculate_besides
                  (analyzeAllFiles (set_initialTilesLoaded false (set_plyFiles (f0 :: fs) s))))
      as Hb.
    pose proof (f_equal (fun c => c.1.1.1.1.1.1.1.1) Hb) as Hp.
    cbn [besidesGrid fst] in Hp. rewrite Hp.
    by destruct (analyzeAllFiles_spec (set_initialTilesLoaded false (set_plyFiles (f0 :: fs) s)))
      as (_ & ->%besidesAnalysis_plyFiles & _).
  - intros files s s' Hne. unfold Fixed3x3.handleFolderSelection.
    destruct (List.filter is_ply files) as [|f0 fs]; [done|].
    intros ->%fixed_loadInitialTiles_plyFiles.
    rewrite fixed_calculate_plyFiles.
    by destruct (analyzeAllFiles_spec (set_initialTilesLoaded false (set_plyFiles (f0 :: fs) s)))
      as (_ & ->%besidesAnalysis_plyFiles & _).
Qed.

(** The theorem at a selection of [scanA], the text file [notes] and
    [scanUpper], whose extension is written [.PLY]. *)
Lemma X14_ply_filter_witness :
  is_ply scanUpper = true
  /\ (forall s', settled (Dense.handleFolderSelection [scanA; notes; scanUpper] init_state)
                 = Some s' ->
        plyFiles s' = [scanA; scanUpper]).
Proof.
  destruct X14_ply_filter as (Hiff & Hd & _). split.
  - apply Hiff. by exists "Scan"%string, ".PLY"%string.
  - intros s' Hs'.
    rewrite (Hd [scanA; notes; scanUpper] init_state s'); [by vm_compute|by vm_compute|done].
Defined.

(** ** The camera *)





Lemma fixed_organize_keyed s : keyed (allTileFiles (Fixed3x3.organizeFilesIntoTiles s)).
Proof.
  destruct (fixed_organize_spec s) as (Hkeys & Hslots & _).
  intros key l tf Hin Htf.
  assert (Hkey : key ∈ Spec.gridTile <$> seq 0 9).
  { rewrite <- Hkeys. apply list_elem_of_fmap. by exists (key, l). }
  apply list_elem_of_fmap in Hkey as (i & -> & Hi%elem_of_seq).
  assert (Hnd : NoDup (jsmap_keys (allTileFiles (Fixed3x3.organizeFilesIntoTiles s)))).
  { rewrite Hkeys. apply (bool_decide_unpack _). by vm_compute. }
  pose proof (jsmap_elem_get _ _ _ Hnd Hin) as Hget.
  specialize (Hslots i ltac:(lia)). unfold tileFilesAt in Hslots.
  rewrite Hget in Hslots. cbn [default from_option id] in Hslots. subst l.
  unfold fixedSlot in Htf. destruct (plyFiles s !! i) as [f|]; [|by apply elem_of_nil in Htf].
  destruct (jsmap_get (name f) (fileCoordinates s)); [|by apply elem_of_nil in Htf].
  apply list_elem_of_singleton in Htf as ->. cbn [tileX tileY].
  by destruct (Spec.gridTile i).
Qed.

Lemma reachable_fixed_keyed s : reachable_fixed s -> keyed (allTileFiles s).
Proof.
  induction 1 as [|files s s' _ IH Hs|d s _ IH].
  - intros key l tf Hin. by apply elem_of_nil in Hin.
  - revert Hs. unfold Fixed3x3.handleFolderSelection.
    destruct (List.filter is_ply files) as [|f0 fs]; [by intros [= <-]|].
    intros Hg%fixed_loadInitialTiles_grid. rewrite (gridOf_store _ _ Hg).
    unfold Fixed3x3.calculateGridOrganization.
    destruct (fileCoordinates _); [|apply fixed_organize_keyed].
    by rewrite (gridOf_store _ _ (analyzeAllFiles_grid _)).
  - destruct (tiling_fields _ _ (fixed_navigate_tiling d s)) as (-> & _). done.
Qed.

(** X16: where the camera looks in the 3x3 variant.  In every reachable
    state, the position [loadFileForTile] gives to the point cloud of a
    file of the current tile, [((tileX - 1) * tileSize, (tileY - 1) *
    tileSize, 0)], is the point [focusOnCurrentTile] aims the camera at;
    the camera stands at the same X and Y, at the height [2 * tileSize];
    and on the centre tile [(1,1)], with a finite tile size, that point is
    the origin. *)
Theorem X16_fixed_focus s :
  reachable_fixed s ->
  (forall tf, tf ∈ tileFilesAt (currentTile s) (allTileFiles s) ->
     Fixed3x3.pointsPosition tf s = Camera.target (Fixed3x3.focusOnCurrentTile s))
  /\ Camera.position (Fixed3x3.focusOnCurrentTile s)
     = Vector3.mk (Vector3.x (Camera.target (Fixed3x3.focusOnCurrentTile s)))
         (Vector3.y (Camera.target (Fixed3x3.focusOnCurrentTile s)))
         (num_mul (tileSize s) (Fin 2.0))
  /\ (forall ts, currentTile s = (CInt 1, CInt 1) -> tileSize s = Fin ts ->
        exists qx qy,
          Camera.target (Fixed3x3.focusOnCurrentTile s)
          = Vector3.mk (Fin qx) (Fin qy) (Fin 0)
          /\ (qx == 0)%Q /\ (qy == 0)%Q).
Proof.
  intros Hkeyed%reachable_fixed_keyed. split_and!.
  - intros tf Htf. unfold tileFilesAt in Htf.
    destruct (jsmap_get (currentTile s) (allTileFiles s)) as [l|] eqn:Hg;
      cbn [default from_option id] in Htf; [|by apply elem_of_nil in Htf].
    apply jsmap_get_Some_elem in Hg. pose proof (Hkeyed _ _ _ Hg Htf) as Hkey.
    unfold Fixed3x3.pointsPosition, Fixed3x3.focusOnCurrentTile. by rewrite Hkey.
  - done.
  - intros ts Ht Hts. unfold Fixed3x3.focusOnCurrentTile. rewrite Ht, Hts.
    eexists _, _. split; [reflexivity|]. split; ring.
Qed.

(** The theorem at the session of [scanRow]: the centre tile holds the
    fifth scan, and its point cloud stands where the camera looks. *)
Lemma X16_fixed_focus_witness :
  let s := default init_state (fixedSession scanRow) in
  Forall
    (fun tf =>
       Fixed3x3.pointsPosition tf s = Camera.target (Fixed3x3.focusOnCurrentTile s))
    (tileFilesAt (currentTile s) (allTileFiles s))
  /\ filesOfTile (currentTile s) s = [rowScan 4].
Proof.
  set (s := default init_state (fixedSession scanRow)).
  assert (Hr : reachable_fixed s).
  { apply (rf_folder scanRow init_state); [apply rf_init|by vm_compute]. }
  destruct (X16_fixed_focus s Hr) as (H & _).
  split; [apply Forall_forall; exact H|vm_compute; reflexivity].
Defined.

(** ** The status line *)

Lemma filesToLoad_activate tile s :
  Dense.filesToLoad (set_currentTile tile s)
  = if initialTilesLoaded s then tileFilesAt tile (allTileFiles s)
    else tileFilesAt tile (initialTileFiles s).
Proof. done. Qed.

(** X17: what the status line says after a click.  First variant: the
    text is written exactly when the click is accepted; it names the new
    current tile and a number of files that is the number of files asked
    for: the number of resident point clouds is at most that number, and
    equal to it when every one of these files loads.  3x3 variant: for a
    destination in the grid that holds a file the text names the new
    current tile and the file of the tile; for a destination in the grid
    without a file the text names the destination although nothing else
    changes, so that from a tile with integer coordinates the tile named is
    not the current tile; for a destination outside nothing is written. *)
Theorem X17_status_line d s :
  match Dense.navigateInfo d s with
  | Some (InfoFilesLoaded x y n) =>
      (x, y) = destination d (currentTile s)
      /\ currentTile (Dense.navigate d s) = (x, y)
      /\ n = length (Dense.filesToLoad (set_currentTile (x, y) s))
      /\ (length (currentPointClouds (Dense.navigate d s)) <= n)%nat
      /\ (allLoadable (Dense.filesToLoad (set_currentTile (x, y) s)) = true ->
          length (currentPointClouds (Dense.navigate d s)) = n)
  | Some _ => False
  | None => currentTile (Dense.navigate d s) = currentTile s
  end
  /\ match Fixed3x3.navigateInfo d s with
     | Some (InfoTileFile x y filename) =>
         (x, y) = destination d (currentTile s)
         /\ currentTile (Fixed3x3.navigate d s) = (x, y)
         /\ (name <$> head (filesOfTile (x, y) s)) = Some filename
     | Some (InfoNoFile x y) =>
         (x, y) = destination d (currentTile s)
         /\ Fixed3x3.navigate d s = s
         /\ (forall a b, currentTile s = (CInt a, CInt b) ->
               (x, y) ≠ currentTile (Fixed3x3.navigate d s))
     | Some _ => False
     | None => currentTile (Fixed3x3.navigate d s) = currentTile s
     end.
Proof.
  split.
  - unfold Dense.navigateInfo.
    destruct (allTileFiles s) as [|e es] eqn:Hall.
    { unfold Dense.navigate. by rewrite Hall. }
    rewrite <- Hall.
    destruct (destination d (currentTile s)) as [nx ny] eqn:Hdest.
    destruct (_ || _) eqn:Htest.
    + assert (Hne : allTileFiles s ≠ []) by (by rewrite Hall).
      assert (Hadm : dense_admissible s (destination d (currentTile s)) = true).
      { unfold dense_admissible. by rewrite Hdest. }
      rewrite (dense_navigate_activate d s Hne Hadm), Hdest.
      pose proof (dense_activate_resident (nx, ny) s) as Hres.
      apply (f_equal length) in Hres. unfold residentFiles in Hres.
      rewrite !length_fmap in Hres. rewrite Hres, filesToLoad_activate.
      split_and!; [done|apply dense_activate_tile|by destruct (initialTilesLoaded s)| |].
      * etrans; [apply loadablePrefix_length|]. by destruct (initialTilesLoaded s).
      * intros Hl. rewrite loadablePrefix_all; [by destruct (initialTilesLoaded s)|].
        apply Forall_forall. intros tf Htf. unfold allLoadable in Hl.
        rewrite forallb_forall in Hl. apply Hl. by apply list_elem_of_In.
    + apply dense_navigate_rejects. unfold dense_admissible. by rewrite Hdest.
  - unfold Fixed3x3.navigateInfo, Fixed3x3.navigate.
    destruct (allTileFiles s) as [|e es] eqn:Hall; [done|].
    rewrite <- Hall.
    destruct (destination d (currentTile s)) as [nx ny] eqn:Hdest.
    destruct (Fixed3x3.inGrid nx ny) eqn:Hin; [|done].
    destruct (tileFilesAt (nx, ny) (allTileFiles s)) as [|tf l] eqn:Htile.
    + split_and!; [done|done|]. intros a b Hab. rewrite Hab in Hdest |- *.
      destruct d; simpl in Hdest; injection Hdest as <- <-; intros [= ?]; lia.
    + split_and!; [done|apply (fixed_activate_tile (nx, ny) s)|].
      unfold filesOfTile. by rewrite Htile.
Qed.

(** The theorem at the sessions of [scanA] and [scanB]: in the 3x3 variant
    the click on right from [(1,1)] names tile [(2,1)], which holds no
    file, and the current tile stays [(1,1)]. *)
Lemma X17_status_line_witness :
  let sd := default init_state (denseSession [scanA; scanB]) in
  let sf := default init_state (fixedSession [scanA; scanB]) in
  (Dense.navigateInfo Left sd = Some (InfoFilesLoaded (CInt 0) (CInt 1) 0)
   /\ length (currentPointClouds (Dense.navigate Left sd)) = 0%nat)
  /\ (Fixed3x3.navigateInfo Right sf = Some (InfoNoFile (CInt 2) (CInt 1))
      /\ (CInt 2, CInt 1) ≠ currentTile (Fixed3x3.navigate Right sf)).
Proof.
  set (sd := default init_state (denseSession [scanA; scanB])).
  set (sf := default init_state (fixedSession [scanA; scanB])).
  assert (Hd : Dense.navigateInfo Left sd = Some (InfoFilesLoaded (CInt 0) (CInt 1) 0))
    by (by vm_compute).
  assert (Hf : Fixed3x3.navigateInfo Right sf = Some (InfoNoFile (CInt 2) (CInt 1)))
    by (by vm_compute).
  destruct (X17_status_line Left sd) as [H1 _]. rewrite Hd in H1.
  destruct (X17_status_line Right sf) as [_ H2]. rewrite Hf in H2.
  destruct H1 as (_ & _ & _ & _ & Hlen). destruct H2 as (_ & _ & Hne).
  split; split; [done| |done|].
  - apply Hlen. by vm_compute.
  - apply (Hne 1 1). by vm_compute.
Defined.

(** ** The viewer without tiles *)

Lemma sortInsert_perm {A} (compare : A -> A -> Z) x l :
  Viewer.sortInsert compare x l ≡ₚ x :: l.
Proof.
  induction l as [|y l IH]; simpl; [done|].
  destruct (bool_decide _); [done|]. rewrite IH. apply Permutation_swap.
Qed.

Lemma sort_perm {A} (compare : A -> A -> Z) l : Viewer.sort compare l ≡ₚ l.
Proof.
  induction l as [|x l IH]; [done|].
  unfold Viewer.sort in *. simpl. by rewrite sortInsert_perm, IH.
Qed.

Lemma sortInsert_sorted {A} (compare : A -> A -> Z) x l :
  (forall a b, compare a b <= 0 \/ compare b a <= 0) ->
  Sorted (fun a b => compare a b <= 0) l ->
  Sorted (fun a b => compare a b <= 0) (Viewer.sortInsert compare x l).
Proof.
  intros Htotal. induction l as [|y l IH]; intros Hl; simpl.
  - by repeat constructor.
  - case_bool_decide as Hxy.
    + constructor; [done|]. by constructor.
    + apply Sorted_inv in Hl as [Hl Hhd]. constructor; [by apply IH|].
      destruct l as [|z l]; simpl.
      * constructor. destruct (Htotal x y); [lia|done].
      * case_bool_decide.
        -- constructor. destruct (Htotal x y); [lia|done].
        -- constructor. by apply HdRel_inv in Hhd.
Qed.

Lemma sort_sorted {A} (compare : A -> A -> Z) l :
  (forall a b, compare a b <= 0 \/ compare b a <= 0) ->
  Sorted (fun a b => compare a b <= 0) (Viewer.sort compare l).
Proof.
  intros Htotal. induction l as [|x l IH]; [constructor|].
  unfold Viewer.sort in *. simpl. by apply sortInsert_sorted.
Qed.

Lemma NoDup_fmap_eq {A B} (f : A -> B) (l : list A) x y :
  NoDup (f <$> l) -> x ∈ l -> y ∈ l -> f x = f y -> x = y.
Proof.
  induction l as [|z l IH]; intros Hnd Hx Hy Hxy; [by apply elem_of_nil in Hx|].
  simpl in Hnd. apply NoDup_cons in Hnd as [Hz Hnd].
  apply elem_of_cons in Hx as [->|Hx]; apply elem_of_cons in Hy as [->|Hy].
  - done.
  - exfalso. apply Hz. rewrite Hxy. by apply list_elem_of_fmap_2.
  - exfalso. apply Hz. rewrite <- Hxy. by apply list_elem_of_fmap_2.
  - by apply IH.
Qed.

Lemma step_offset d s : Viewer.atOrigin (Viewer.step d s).1 = false.
Proof. by destruct d. Qed.

Lemma step_index d s :
  let n := Z.of_nat (length (Viewer.plyFiles s)) in
  0 <= Viewer.currentFileIndex s < n ->
  (Viewer.step d s).2 = (Viewer.currentFileIndex s + indexStep d) `mod` n
  /\ 0 <= (Viewer.step d s).2 < n.
Proof.
  cbv zeta. intros Hi.
  set (n := Z.of_nat (length (Viewer.plyFiles s))) in *.
  assert (Hnext : Z.rem (Viewer.currentFileIndex s + 1) n
                  = (Viewer.currentFileIndex s + 1) `mod` n).
  { apply Z.rem_mod_nonneg; lia. }
  assert (Hprev : Z.rem (Viewer.currentFileIndex s - 1 + n) n
                  = (Viewer.currentFileIndex s + -1) `mod` n).
  { rewrite Z.rem_mod_nonneg by lia.
    replace (Viewer.currentFileIndex s - 1 + n) with (Viewer.currentFileIndex s + -1 + 1 * n)
      by lia.
    apply Z.mod_add. lia. }
  assert (Hrange : forall k, 0 <= k `mod` n < n) by (intros k; apply Z.mod_pos_bound; lia).
  destruct d; cbn [Viewer.step snd indexStep]; fold n;
    rewrite ?Hnext, ?Hprev; split; try done; apply Hrange.
Qed.

Lemma fileAt_in_range i s :
  0 <= i < Z.of_nat (length (Viewer.plyFiles s)) -> is_Some (Viewer.fileAt i s).
Proof.
  intros Hi. unfold Viewer.fileAt. rewrite bool_decide_eq_true_2 by lia.
  apply lookup_lt_is_Some. lia.
Qed.

Lemma removeAdjacent_inv s :
  viewer_inv s ->
  let s1 := Viewer.removeAdjacent s in
  viewer_inv s1
  /\ Viewer.adjacentPointCloud s1 = None
  /\ Viewer.plyFiles s1 = Viewer.plyFiles s
  /\ Viewer.currentFileIndex s1 = Viewer.currentFileIndex s
  /\ Viewer.currentPointCloud s1 = Viewer.currentPointCloud s
  /\ Viewer.console s1 = Viewer.console s.
Proof.
  intros Hinv. cbv zeta. unfold Viewer.removeAdjacent.
  destruct (Viewer.adjacentPointCloud s) as [a|] eqn:Ha; [|by split_and!].
  destruct Hinv as [Hidx Hsc Hfresh Hnd Hcur Hadj Hmap]. rewrite Ha in Hsc.
  split_and!; try done.
  destruct (Hadj a Ha) as (Hfile & Hname & Hentry).
  assert (Hin_a : Viewer.Shown.points a ∈ Viewer.scene s).
  { rewrite Hsc. apply elem_of_app. right. by left. }
  assert (Hscene : sceneRemove (Viewer.Shown.points a) (Viewer.scene s)
                   = shownPoints (Viewer.currentPointCloud s)).
  { unfold sceneRemove. rewrite Hsc. rewrite Hsc in Hnd, Hin_a.
    destruct (Viewer.currentPointCloud s) as [c|]; cbn [shownPoints app] in *.
    - rewrite filter_cons_True, filter_cons_False, filter_nil; [done|by intros []|].
      simpl in Hnd. apply NoDup_cons in Hnd as [Hc _]. intros Heq. apply Hc.
      rewrite Heq. by left.
    - rewrite filter_cons_False, filter_nil; [done|by intros []]. }
  split; cbn [Viewer.plyFiles Viewer.currentFileIndex Viewer.scene Viewer.nextId
              Viewer.currentPointCloud Viewer.adjacentPointCloud
              Viewer.loadedPointClouds].
  - done.
  - rewrite Hscene. cbn [shownPoints]. by rewrite app_nil_r.
  - intros p Hp. apply Hfresh. unfold sceneRemove in Hp.
    by apply list_elem_of_filter in Hp as [_ ?].
  - unfold sceneRemove. apply (sublist_NoDup _ (pointsId <$> Viewer.scene s)); [done|].
    apply fmap_sublist, sublist_filter.
  - exact Hcur.
  - done.
  - intros nm e He. apply lookup_delete_Some in He as [Hne He].
    destruct (Hmap nm e He) as [Hin Hnm]. split; [|done].
    unfold sceneRemove. apply list_elem_of_filter. split; [|done].
    intros Hid. apply Hne. rewrite Hname, <- Hnm. f_equal. f_equal.
    symmetry. by apply (NoDup_fmap_eq pointsId (Viewer.scene s)).
Qed.

Lemma viewer_inv_info s v : viewer_inv s -> viewer_inv (Viewer.set_fileInfo v s).
Proof. intros [? ? ? ? ? ? ?]. by split. Qed.

Lemma viewer_inv_emit s e : viewer_inv s -> viewer_inv (Viewer.emit e s).
Proof. intros [? ? ? ? ? ? ?]. by split. Qed.

(** A successful load beside the current point cloud. *)
Lemma load_adjacent_inv f offset next s :
  viewer_inv s -> Viewer.adjacentPointCloud s = None ->
  Viewer.atOrigin offset = false -> loadable f = true ->
  0 <= next < Z.of_nat (length (Viewer.plyFiles s)) ->
  Viewer.fileAt next s = Some f ->
  viewer_inv (Viewer.set_currentFileIndex next (Viewer.loadAndVisualizeFile f offset s).1).
Proof.
  intros [Hidx Hsc Hfresh Hnd Hcur Hadj Hmap] Ha Hoff Hl Hnext Hfile.
  unfold Viewer.loadAndVisualizeFile. rewrite Hl, Hoff.
  rewrite Ha in Hsc. cbn [shownPoints] in Hsc. rewrite app_nil_r in Hsc.
  split; cbn [fst Viewer.set_currentFileIndex Viewer.plyFiles Viewer.currentFileIndex
              Viewer.scene Viewer.nextId Viewer.currentPointCloud
              Viewer.adjacentPointCloud Viewer.loadedPointClouds].
  - by right.
  - by rewrite Hsc.
  - intros p [Hp| ->%list_elem_of_singleton]%elem_of_app; [|simpl; lia].
    apply Hfresh in Hp. lia.
  - rewrite fmap_app. apply NoDup_app. split_and!; [done| |apply NoDup_singleton].
    intros i (p & -> & Hp)%list_elem_of_fmap [= Heq]%list_elem_of_singleton.
    apply Hfresh in Hp. lia.
  - exact Hcur.
  - intros a [= <-]. cbn [Viewer.Shown.points Viewer.Shown.name source].
    split_and!; [exact Hfile|done|]. by rewrite lookup_insert_eq.
  - intros nm e He. destruct (decide (name f = nm)) as [<-|Hne].
    + rewrite lookup_insert_eq in He. injection He as <-.
      cbn [Viewer.Entry.points source]. split; [|done].
      apply elem_of_app. right. by left.
    + rewrite lookup_insert_ne in He by done. destruct (Hmap nm e He) as [Hin Hnm].
      split; [|done]. apply elem_of_app. by left.
Qed.

(** A successful load of the first file after [clearAllPointClouds]. *)
Lemma load_first_inv f rest s :
  Viewer.plyFiles s = f :: rest -> Viewer.currentFileIndex s = 0 ->
  Viewer.scene s = [] -> Viewer.loadedPointClouds s = ∅ ->
  Viewer.currentPointCloud s = None -> Viewer.adjacentPointCloud s = None ->
  viewer_inv (Viewer.loadAndVisualizeFile f (Vector3.mk (Fin 0) (Fin 0) (Fin 0)) s).1.
Proof.
  intros Hp Hi Hsc Hmap Hcur Hadj. unfold Viewer.loadAndVisualizeFile.
  destruct (loadable f); cbn [fst].
  - change (Viewer.atOrigin (Vector3.mk (Fin 0) (Fin 0) (Fin 0))) with true.
    split; cbn [Viewer.plyFiles Viewer.currentFileIndex Viewer.scene Viewer.nextId
                Viewer.currentPointCloud Viewer.adjacentPointCloud
                Viewer.loadedPointClouds].
    + right. rewrite Hp, Hi. simpl. lia.
    + by rewrite Hsc, Hadj.
    + rewrite Hsc. intros p ->%list_elem_of_singleton. simpl. lia.
    + rewrite Hsc. apply NoDup_singleton.
    + intros c [= <-]. by rewrite Hp.
    + by rewrite Hadj.
    + rewrite Hmap, Hsc. intros nm e He.
      apply lookup_insert_Some in He as [[<- <-]|[_ He]]; [|by rewrite lookup_empty in He].
      split; [by left|done].
  - apply viewer_inv_emit.
    split; rewrite ?Hsc, ?Hmap, ?Hcur, ?Hadj; try done.
    + right. rewrite Hp, Hi. simpl. lia.
    + by intros p ?%elem_of_nil.
    + apply NoDup_nil_2.
Qed.

Lemma viewer_navigate_inv d s : viewer_inv s -> viewer_inv (Viewer.navigate d s).
Proof.
  intros Hinv. unfold Viewer.navigate.
  destruct (Viewer.plyFiles s) as [|f0 fs] eqn:Hp; [by apply viewer_inv_emit|].
  assert (Hi : 0 <= Viewer.currentFileIndex s < Z.of_nat (length (Viewer.plyFiles s))).
  { destruct (vi_index s Hinv) as [[H _]|H]; [by rewrite Hp in H|done]. }
  destruct (step_index d s Hi) as [_ Hnext]. pose proof (step_offset d s) as Hoff.
  destruct (Viewer.step d s) as [offset next]. cbn [fst snd] in Hnext, Hoff.
  destruct (removeAdjacent_inv s Hinv) as (Hinv1 & Hadj1 & Hp1 & _).
  set (s1 := Viewer.set_fileInfo Viewer.InfoLoadingAdjacent (Viewer.removeAdjacent s)).
  assert (Hinv1' : viewer_inv s1) by (by apply viewer_inv_info).
  assert (Hrange : 0 <= next < Z.of_nat (length (Viewer.plyFiles s1))).
  { change (Viewer.plyFiles s1) with (Viewer.plyFiles (Viewer.removeAdjacent s)).
    by rewrite Hp1. }
  destruct (fileAt_in_range next s1 Hrange) as [f Hf]. rewrite Hf.
  destruct (loadable f) eqn:Hl.
  - pose proof (load_adjacent_inv f offset next s1 Hinv1' Hadj1 Hoff Hl Hrange Hf) as H.
    unfold Viewer.loadAndVisualizeFile in *. rewrite Hl in *. cbn [fst] in H.
    by apply viewer_inv_info.
  - unfold Viewer.loadAndVisualizeFile. rewrite Hl.
    by apply viewer_inv_info, viewer_inv_emit, viewer_inv_emit.
Qed.

Lemma sort_cons_nonempty {A} (compare : A -> A -> Z) x l :
  exists first rest, Viewer.sort compare (x :: l) = first :: rest.
Proof.
  destruct (Viewer.sort compare (x :: l)) as [|first rest] eqn:Hs; [|by eexists _, _].
  pose proof (sort_perm compare (x :: l)) as Hperm. rewrite Hs in Hperm.
  by apply Permutation_nil_l in Hperm.
Qed.

Lemma viewer_handleFolderSelection_inv localeCompare files s :
  viewer_inv s -> viewer_inv (Viewer.handleFolderSelection localeCompare files s).
Proof.
  intros Hinv. unfold Viewer.handleFolderSelection.
  destruct (List.filter is_ply files) as [|f0 fs]; [by apply viewer_inv_emit|].
  destruct (sort_cons_nonempty (fun a b => localeCompare (name a) (name b)) f0 fs)
    as (first & rest & ->).
  by apply (load_first_inv first rest).
Qed.

Lemma viewer_inv_init : viewer_inv Viewer.init_state.
Proof.
  split; try done.
  - by left.
  - by intros p ?%elem_of_nil.
  - apply NoDup_nil_2.
Qed.

Lemma reachable_viewer_inv localeCompare s :
  Viewer.reachable localeCompare s -> viewer_inv s.
Proof.
  induction 1 as [|files s _ IH|d s _ IH].
  - apply viewer_inv_init.
  - by apply viewer_handleFolderSelection_inv.
  - by apply viewer_navigate_inv.
Qed.

(** X18: the clouds of the viewer without tiles.  In every state a session
    reaches: the index is 0 while no folder is loaded and a position of
    [plyFiles] afterwards; the scene holds the current point cloud and the
    adjacent one, each if there is one, and nothing else, so at most two
    point clouds; the current point cloud shows the first file of
    [plyFiles], whatever the clicks, and the adjacent one shows the file
    at [currentFileIndex]. *)
Theorem X18_viewer_clouds localeCompare s :
  Viewer.reachable localeCompare s ->
  ((Viewer.plyFiles s = [] /\ Viewer.currentFileIndex s = 0)
   \/ 0 <= Viewer.currentFileIndex s < Z.of_nat (length (Viewer.plyFiles s)))
  /\ Viewer.scene s
     = shownPoints (Viewer.currentPointCloud s) ++ shownPoints (Viewer.adjacentPointCloud s)
  /\ (length (Viewer.scene s) <= 2)%nat
  /\ (forall c, Viewer.currentPointCloud s = Some c ->
        Viewer.plyFiles s !! 0%nat = Some (source (Viewer.Shown.points c)))
  /\ (forall a, Viewer.adjacentPointCloud s = Some a ->
        Viewer.fileAt (Viewer.currentFileIndex s) s
        = Some (source (Viewer.Shown.points a))).
Proof.
  intros [Hidx Hsc Hfresh Hnd Hcur Hadj Hmap]%reachable_viewer_inv.
  split_and!; [done|done| | |].
  - rewrite Hsc.
    destruct (Viewer.currentPointCloud s), (Viewer.adjacentPointCloud s); simpl; lia.
  - intros c Hc. by destruct (Hcur c Hc).
  - intros a Ha. by destruct (Hadj a Ha).
Qed.

(** X19: the map of the viewer without tiles.  In every state a session
    reaches, every entry of [loadedPointClouds] sits under the name of the
    file of its point cloud, and that point cloud is in the scene; the
    adjacent point cloud, when there is one, has its entry. *)
Theorem X19_viewer_loaded localeCompare s :
  Viewer.reachable localeCompare s ->
  (forall nm e,
      Viewer.loadedPointClouds s !! nm = Some e ->
      Viewer.Entry.points e ∈ Viewer.scene s
      /\ name (source (Viewer.Entry.points e)) = nm)
  /\ (forall a, Viewer.adjacentPointCloud s = Some a ->
        Viewer.Entry.points <$> (Viewer.loadedPointClouds s !! Viewer.Shown.name a)
        = Some (Viewer.Shown.points a)).
Proof.
  intros [Hidx Hsc Hfresh Hnd Hcur Hadj Hmap]%reachable_viewer_inv.
  split; [done|]. intros a Ha. by destruct (Hadj a Ha) as (_ & _ & ?).
Qed.

Lemma viewer_navigate_index d s :
  0 <= Viewer.currentFileIndex s < Z.of_nat (length (Viewer.plyFiles s)) ->
  let next := (Viewer.currentFileIndex s + indexStep d)
              `mod` Z.of_nat (length (Viewer.plyFiles s)) in
  Viewer.plyFiles (Viewer.navigate d s) = Viewer.plyFiles s
  /\ exists f,
       Viewer.plyFiles s !! Z.to_nat next = Some f
       /\ Viewer.currentFileIndex (Viewer.navigate d s)
          = if loadable f then next else Viewer.currentFileIndex s.
Proof.
  intros Hi. cbv zeta. unfold Viewer.navigate.
  destruct (Viewer.plyFiles s) as [|f0 fs] eqn:Hp; [simpl in Hi; lia|].
  rewrite <- Hp in *.
  destruct (step_index d s Hi) as [Hnext Hrange].
  destruct (Viewer.step d s) as [offset next]. cbn [snd] in Hnext, Hrange. subst next.
  set (next := (Viewer.currentFileIndex s + indexStep d)
               `mod` Z.of_nat (length (Viewer.plyFiles s))) in *.
  set (s1 := Viewer.set_fileInfo Viewer.InfoLoadingAdjacent (Viewer.removeAdjacent s)).
  assert (Hp1 : Viewer.plyFiles s1 = Viewer.plyFiles s).
  { unfold s1, Viewer.removeAdjacent. by destruct (Viewer.adjacentPointCloud s). }
  assert (Hi1 : Viewer.currentFileIndex s1 = Viewer.currentFileIndex s).
  { unfold s1, Viewer.removeAdjacent. by destruct (Viewer.adjacentPointCloud s). }
  assert (Hrange1 : 0 <= next < Z.of_nat (length (Viewer.plyFiles s1)))
    by (by rewrite Hp1).
  destruct (fileAt_in_range next s1 Hrange1) as [f Hf]. rewrite Hf.
  unfold Viewer.fileAt in Hf. rewrite bool_decide_eq_true_2 in Hf by lia.
  rewrite Hp1 in Hf.
  unfold Viewer.loadAndVisualizeFile. destruct (loadable f) eqn:Hl.
  - cbn [Viewer.plyFiles Viewer.currentFileIndex Viewer.set_fileInfo
         Viewer.set_currentFileIndex].
    split; [done|]. exists f. by rewrite Hl.
  - cbn [Viewer.plyFiles Viewer.currentFileIndex Viewer.set_fileInfo Viewer.emit].
    split; [done|]. exists f. by rewrite Hl.
Qed.

(** X20: the index after a sequence of clicks.  When the index is a
    position of [plyFiles] and every file loads, after any sequence of
    clicks the index is the old index plus the number of clicks on right,
    up and forward minus the number of clicks on left, down and backward,
    modulo the number of files: the buttons walk a cycle, and a click
    followed by the opposite click gives the index back. *)
Theorem X20_viewer_index ds s :
  0 <= Viewer.currentFileIndex s < Z.of_nat (length (Viewer.plyFiles s)) ->
  Forall (fun f => loadable f = true) (Viewer.plyFiles s) ->
  Viewer.currentFileIndex (Viewer.navigateAll ds s)
  = (Viewer.currentFileIndex s + foldr Z.add 0 (indexStep <$> ds))
    `mod` Z.of_nat (length (Viewer.plyFiles s)).
Proof.
  revert s. induction ds as [|d ds IH]; intros s Hi Hall.
  - simpl. rewrite Z.add_0_r. symmetry. apply Z.mod_small. lia.
  - cbn [Viewer.navigateAll fold_left fmap list_fmap foldr].
    destruct (viewer_navigate_index d s Hi) as (Hp & f & Hf & Hidx).
    assert (Hl : loadable f = true).
    { rewrite Forall_forall in Hall. apply Hall. by eapply list_elem_of_lookup_2. }
    rewrite Hl in Hidx.
    assert (Hn : 0 < Z.of_nat (length (Viewer.plyFiles s))) by lia.
    fold (Viewer.navigateAll ds (Viewer.navigate d s)).
    rewrite IH.
    + rewrite Hp, Hidx, Zplus_mod_idemp_l. f_equal. lia.
    + rewrite Hp, Hidx. apply Z.mod_pos_bound. lia.
    + by rewrite Hp.
Qed.

(** The theorem at the folder of [scanS], [scanP] and [scanR] after two
    clicks on right: right, right and left lead from index 2 to index 0. *)
Lemma X20_viewer_index_witness :
  let s := Viewer.navigateAll [Viewer.Right; Viewer.Right]
             (Viewer.handleFolderSelection codeCompare [scanS; scanP; scanR]
                Viewer.init_state) in
  Viewer.currentFileIndex s = 2
  /\ Viewer.currentFileIndex
       (Viewer.navigateAll [Viewer.Right; Viewer.Right; Viewer.Left] s) = 0.
Proof.
  intros s. split; [by vm_compute|].
  rewrite (X20_viewer_index [Viewer.Right; Viewer.Right; Viewer.Left] s).
  - by vm_compute.
  - by vm_compute.
  - apply (bool_decide_unpack _). by vm_compute.
Defined.

(** The theorem at the folder of [scanS], [scanP] and [scanR] after a click
    on right: the scene holds the clouds of [scanP] and [scanR]. *)
Lemma X18_viewer_clouds_witness :
  let s := Viewer.navigate Viewer.Right
             (Viewer.handleFolderSelection codeCompare [scanS; scanP; scanR]
                Viewer.init_state) in
  (length (Viewer.scene s) <= 2)%nat
  /\ source <$> Viewer.scene s = [scanP; scanR].
Proof.
  intros s.
  assert (Hr : Viewer.reachable codeCompare s).
  { apply Viewer.r_navigate, Viewer.r_folder, Viewer.r_init. }
  destruct (X18_viewer_clouds codeCompare s Hr) as (_ & _ & Hlen & _).
  split; [exact Hlen|by vm_compute].
Defined.

(** The theorem at the same session: the adjacent point cloud, the one of
    [scanP], has its entry in the map. *)
Lemma X19_viewer_loaded_witness :
  let s := Viewer.navigate Viewer.Right
             (Viewer.handleFolderSelection codeCompare [scanS; scanP; scanR]
                Viewer.init_state) in
  exists a,
    Viewer.adjacentPointCloud s = Some a
    /\ Viewer.Entry.points <$> (Viewer.loadedPointClouds s !! Viewer.Shown.name a)
       = Some (Viewer.Shown.points a).
Proof.
  intros s.
  assert (Hr : Viewer.reachable codeCompare s).
  { apply Viewer.r_navigate, Viewer.r_folder, Viewer.r_init. }
  destruct (X19_viewer_loaded codeCompare s Hr) as (_ & H).
  destruct (Viewer.adjacentPointCloud s) as [a|] eqn:Ha; [|by vm_compute in Ha].
  exists a. split; [done|by apply H].
Defined.

(** X21: a click that cannot be served.  Without files [navigate] raises
    the alert and does nothing else.  In a reachable state with files, when
    the file the click leads to cannot be loaded, the index stays, the
    adjacent point cloud of before is gone from the scene and from
    [loadedPointClouds] and none replaces it, the status line reports the
    error and the two errors are logged. *)
Theorem X21_viewer_failed_click localeCompare d s :
  (Viewer.plyFiles s = [] ->
   Viewer.navigate d s = Viewer.emit Viewer.AlertLoadFilesFirst s)
  /\ (Viewer.reachable localeCompare s ->
      forall f,
        Viewer.plyFiles s ≠ [] ->
        Viewer.plyFiles s
          !! Z.to_nat ((Viewer.currentFileIndex s + indexStep d)
                       `mod` Z.of_nat (length (Viewer.plyFiles s))) = Some f ->
        loadable f = false ->
        let s' := Viewer.navigate d s in
        Viewer.currentFileIndex s' = Viewer.currentFileIndex s
        /\ Viewer.adjacentPointCloud s' = None
        /\ Viewer.scene s' = shownPoints (Viewer.currentPointCloud s)
        /\ (forall a, Viewer.adjacentPointCloud s = Some a ->
              Viewer.loadedPointClouds s' !! Viewer.Shown.name a = None)
        /\ Viewer.fileInfo s' = Viewer.InfoError
        /\ Viewer.console s'
           = Viewer.console s ++ [Viewer.ErrorLoadingPly; Viewer.ErrorLoadingAdjacent]).
Proof.
  split.
  { intros Hp. unfold Viewer.navigate. by rewrite Hp. }
  intros Hr f Hne Hf Hl. cbv zeta.
  pose proof (reachable_viewer_inv _ _ Hr) as Hinv.
  assert (Hi : 0 <= Viewer.currentFileIndex s < Z.of_nat (length (Viewer.plyFiles s))).
  { destruct (vi_index s Hinv) as [[H _]|H]; [done|done]. }
  unfold Viewer.navigate.
  destruct (Viewer.plyFiles s) as [|f0 fs] eqn:Hp; [done|]. rewrite <- Hp in *.
  destruct (step_index d s Hi) as [Hnext Hrange].
  destruct (Viewer.step d s) as [offset next]. cbn [snd] in Hnext, Hrange. subst next.
  set (next := (Viewer.currentFileIndex s + indexStep d)
               `mod` Z.of_nat (length (Viewer.plyFiles s))) in *.
  destruct (removeAdjacent_inv s Hinv) as (Hinv1 & Hadj1 & Hp1 & Hi1 & Hcur1 & Hcons1).
  set (s1 := Viewer.set_fileInfo Viewer.InfoLoadingAdjacent (Viewer.removeAdjacent s)).
  assert (Hfile : Viewer.fileAt next s1 = Some f).
  { unfold Viewer.fileAt. rewrite bool_decide_eq_true_2 by lia.
    change (Viewer.plyFiles s1) with (Viewer.plyFiles (Viewer.removeAdjacent s)).
    by rewrite Hp1. }
  rewrite Hfile. unfold Viewer.loadAndVisualizeFile. rewrite Hl.
  cbn [Viewer.currentFileIndex Viewer.adjacentPointCloud Viewer.scene Viewer.fileInfo
       Viewer.console Viewer.loadedPointClouds Viewer.set_fileInfo Viewer.emit s1].
  split_and!; [done|done| | |done|].
  - rewrite (vi_scene _ Hinv1), Hadj1, Hcur1. cbn [shownPoints]. by rewrite app_nil_r.
  - intros a Ha. unfold Viewer.removeAdjacent. rewrite Ha.
    cbn [Viewer.loadedPointClouds]. apply lookup_delete_eq.
  - rewrite Hcons1. by rewrite <- (assoc_L (++)).
Qed.

(** The theorem at the folder of [scanP], [scanQ] and [scanR], whose second
    file cannot be loaded. *)
Lemma X21_viewer_failed_click_witness :
  let s := Viewer.handleFolderSelection codeCompare [scanP; scanQ; scanR]
             Viewer.init_state in
  Viewer.currentFileIndex (Viewer.navigate Viewer.Right s) = 0
  /\ Viewer.fileInfo (Viewer.navigate Viewer.Right s) = Viewer.InfoError.
Proof.
  intros s.
  assert (Hr : Viewer.reachable codeCompare s) by apply Viewer.r_folder, Viewer.r_init.
  destruct (X21_viewer_failed_click codeCompare Viewer.Right s) as [_ H].
  destruct (H Hr scanQ) as (H1 & _ & _ & _ & H2 & _);
    [by vm_compute|by vm_compute|done|].
  split; [|done]. etrans; [exact H1|]. by vm_compute.
Defined.

(** X22: the selection of a folder starts afresh.  Whatever the state,
    when the selection holds a PLY file [handleFolderSelection] leaves
    index 0, no adjacent point cloud, and a scene and a map that hold the
    point cloud of the first file of the sorted list alone, or nothing when
    that file cannot be loaded: nothing of the folder of before stays. *)
Theorem X22_viewer_selection localeCompare files s :
  List.filter is_ply files ≠ [] ->
  let s' := Viewer.handleFolderSelection localeCompare files s in
  exists first rest,
    Viewer.plyFiles s' = first :: rest
    /\ Viewer.currentFileIndex s' = 0
    /\ Viewer.adjacentPointCloud s' = None
    /\ Viewer.fileInfo s' = Viewer.InfoLoaded (length (first :: rest)) (name first)
    /\ (loadable first = true ->
        let points := {| pointsId := Viewer.nextId s; source := first |} in
        Viewer.scene s' = [points]
        /\ Viewer.currentPointCloud s' = Some (Viewer.Shown.mk (name first) points)
        /\ Viewer.loadedPointClouds s'
           = {[ name first := Viewer.Entry.mk points (Vector3.mk (Fin 0) (Fin 0) (Fin 0)) ]}
        /\ Viewer.console s' = Viewer.console s)
    /\ (loadable first = false ->
        Viewer.scene s' = [] /\ Viewer.currentPointCloud s' = None
        /\ Viewer.loadedPointClouds s' = ∅
        /\ Viewer.console s' = Viewer.console s ++ [Viewer.ErrorLoadingPly]).
Proof.
  intros Hne. cbv zeta. unfold Viewer.handleFolderSelection.
  destruct (List.filter is_ply files) as [|f0 fs]; [done|].
  destruct (sort_cons_nonempty (fun a b => localeCompare (name a) (name b)) f0 fs)
    as (first & rest & ->).
  exists first, rest. unfold Viewer.loadAndVisualizeFile.
  destruct (loadable first); cbn [fst]; split_and!; try done.
Qed.

(** The theorem at the viewer that shows [scanP] and [scanR], when the
    folder of [scanC] is selected. *)
Lemma X22_viewer_selection_witness :
  let s := Viewer.navigate Viewer.Right
             (Viewer.handleFolderSelection codeCompare [scanP; scanR] Viewer.init_state) in
  source <$> Viewer.scene (Viewer.handleFolderSelection codeCompare [scanC] s) = [scanC].
Proof.
  intros s.
  destruct (X22_viewer_selection codeCompare [scanC] s) as (first & rest & Hp & _ & _ & _ & Hl & _).
  { by vm_compute. }
  assert (Hfirst : first = scanC).
  { vm_compute in Hp. by injection Hp as <- _. }
  subst first. destruct (Hl eq_refl) as (Hsc & _). by rewrite Hsc.
Defined.

(** X23: the order of the files in the viewer without tiles.  After the
    selection of a folder with a PLY file, [plyFiles] holds the PLY files
    of the selection, each as often as selected; and when the comparison of
    names is total (of two names one does not come after the other), each
    file of the list does not come after the next one. *)
Theorem X23_viewer_sorted localeCompare files s :
  List.filter is_ply files ≠ [] ->
  let s' := Viewer.handleFolderSelection localeCompare files s in
  Viewer.plyFiles s' ≡ₚ List.filter is_ply files
  /\ ((forall a b, localeCompare a b <= 0 \/ localeCompare b a <= 0) ->
      Sorted (fun f g => localeCompare (name f) (name g) <= 0) (Viewer.plyFiles s')).
Proof.
  intros Hne. cbv zeta.
  assert (Hp : Viewer.plyFiles (Viewer.handleFolderSelection localeCompare files s)
               = Viewer.sort (fun a b => localeCompare (name a) (name b))
                   (List.filter is_ply files)).
  { unfold Viewer.handleFolderSelection.
    destruct (List.filter is_ply files) as [|f0 fs]; [done|].
    destruct (sort_cons_nonempty (fun a b => localeCompare (name a) (name b)) f0 fs)
      as (first & rest & ->).
    unfold Viewer.loadAndVisualizeFile. by destruct (loadable first). }
  rewrite Hp. split; [apply sort_perm|].
  intros Htotal.
  apply (sort_sorted (fun a b => localeCompare (name a) (name b))).
  intros a b. apply Htotal.
Qed.

Lemma codeCompare_total a b : codeCompare a b <= 0 \/ codeCompare b a <= 0.
Proof.
  unfold codeCompare. rewrite (String.compare_antisym b a).
  destruct (String.compare a b); simpl; lia.
Qed.

(** The theorem at the selection of [scanS], [notes], [scanP] and [scanR],
    with the order of the character codes. *)
Lemma X23_viewer_sorted_witness :
  let s' := Viewer.handleFolderSelection codeCompare [scanS; notes; scanP; scanR]
              Viewer.init_state in
  Viewer.plyFiles s' ≡ₚ [scanS; scanP; scanR]
  /\ Sorted (fun f g => codeCompare (name f) (name g) <= 0) (Viewer.plyFiles s')
  /\ Viewer.plyFiles s' = [scanP; scanR; scanS].
Proof.
  intros s'.
  destruct (X23_viewer_sorted codeCompare [scanS; notes; scanP; scanR] Viewer.init_state)
    as [Hperm Hsorted]; [by vm_compute|].
  split_and!; [exact Hperm|exact (Hsorted codeCompare_total)|by vm_compute].
Defined.

(** ** Where the clicks of the 3x3 variant can lead *)

Lemma fixed_navigateAll_populated ds s :
  let s' := Fixed3x3.navigateAll ds s in
  currentTile s' = currentTile s
  \/ (Fixed3x3.inGrid (currentTile s').1 (currentTile s').2 = true
      /\ tileFilesAt (currentTile s') (allTileFiles s) ≠ []).
Proof.
  cbv zeta. revert s. induction ds as [|d ds IH]; intros s; [by left|].
  cbn [Fixed3x3.navigateAll fold_left]. fold (Fixed3x3.navigateAll ds (Fixed3x3.navigate d s)).
  destruct (tiling_fields _ _ (fixed_navigate_tiling d s)) as (Hstore & _).
  destruct (IH (Fixed3x3.navigate d s)) as [Hsame|[Hin Hne]].
  - rewrite Hsame.
    destruct (fixed_navigate_cases d s) as [->|(-> & Hin & Hne)]; [by left|by right].
  - right. by rewrite <- Hstore.
Qed.

Lemma inGrid_gridTile tX tY :
  Fixed3x3.inGrid tX tY = true -> exists i, (i < 9)%nat /\ (tX, tY) = Spec.gridTile i.
Proof.
  intros (x & y & [= -> ->] & Hx & Hy)%inGrid_in3x3.
  assert (Hx' : x = 0 \/ x = 1 \/ x = 2) by lia.
  assert (Hy' : y = 0 \/ y = 1 \/ y = 2) by lia.
  destruct Hx' as [->|[->| ->]], Hy' as [->|[->| ->]].
  - exists 0%nat. split; [lia|done].
  - exists 1%nat. split; [lia|done].
  - exists 2%nat. split; [lia|done].
  - exists 3%nat. split; [lia|done].
  - exists 4%nat. split; [lia|done].
  - exists 5%nat. split; [lia|done].
  - exists 6%nat. split; [lia|done].
  - exists 7%nat. split; [lia|done].
  - exists 8%nat. split; [lia|done].
Qed.

(** X24: where the clicks of the 3x3 variant can lead.  Whatever the
    sequence of clicks, the current tile is afterwards the tile the
    sequence started from or a tile of the grid that holds a file; after
    the organizer has run, the latter are the tiles number [i] whose file
    number [i], among the first nine, exists and has coordinates.  A
    centre tile without file can be left and not be entered again. *)
Theorem X24_fixed_reachable_tiles :
  (forall ds s,
      let s' := Fixed3x3.navigateAll ds s in
      currentTile s' = currentTile s
      \/ (Fixed3x3.inGrid (currentTile s').1 (currentTile s').2 = true
          /\ tileFilesAt (currentTile s') (allTileFiles s) ≠ []))
  /\ (forall ds s,
        fileCoordinates s ≠ [] ->
        let s' := Fixed3x3.navigateAll ds (Fixed3x3.calculateGridOrganization s) in
        currentTile s' = (CInt 1, CInt 1)
        \/ exists i f,
             (i < 9)%nat /\ currentTile s' = Spec.gridTile i
             /\ plyFiles s !! i = Some f
             /\ is_Some (jsmap_get (name f) (fileCoordinates s)))
  /\ (forall d ds s,
        tileFilesAt (CInt 1, CInt 1) (allTileFiles s) = [] ->
        currentTile (Fixed3x3.navigate d s) ≠ (CInt 1, CInt 1) ->
        currentTile (Fixed3x3.navigateAll ds (Fixed3x3.navigate d s)) ≠ (CInt 1, CInt 1)).
Proof.
  split_and!.
  - apply fixed_navigateAll_populated.
  - intros ds s Hne. cbv zeta. rewrite fixed_calculate_nonempty by done.
    set (s2 := computeGridFrame Fixed3x3.multiplier s).
    destruct (computeGridFrame_fields Fixed3x3.multiplier s) as (Hp & Hf & _).
    fold s2 in Hp, Hf.
    destruct (fixed_organize_spec s2) as (_ & Hslots & Htile & _).
    destruct (fixed_navigateAll_populated ds (Fixed3x3.organizeFilesIntoTiles s2))
      as [Hsame|[Hin Hfiles]].
    + left. by rewrite Hsame.
    + right.
      destruct (currentTile (Fixed3x3.navigateAll ds (Fixed3x3.organizeFilesIntoTiles s2)))
        as [tX tY] eqn:Hcur.
      cbn [fst snd] in Hin.
      destruct (inGrid_gridTile tX tY Hin) as (i & Hi & Hkey).
      rewrite Hkey, (Hslots i Hi), Hp, Hf in Hfiles. unfold fixedSlot in Hfiles.
      destruct (plyFiles s !! i) as [f|] eqn:Hfile; [|done].
      destruct (jsmap_get (name f) (fileCoordinates s)) as [c|] eqn:Hc; [|done].
      exists i, f. by split_and!.
  - intros d ds s Hempty Hleft.
    destruct (tiling_fields _ _ (fixed_navigate_tiling d s)) as (Hstore & _).
    destruct (fixed_navigateAll_populated ds (Fixed3x3.navigate d s)) as [->|[_ Hfiles]];
      [done|].
    intros Hback. rewrite Hback, Hstore in Hfiles. done.
Qed.

(** The theorem at the session of [scanA] and [scanB], whose centre tile
    holds no file: after the click on left the centre is out of reach. *)
Lemma X24_fixed_reachable_tiles_witness :
  let s := default init_state (fixedSession [scanA; scanB]) in
  currentTile (Fixed3x3.navigate Left s) = (CInt 0, CInt 1)
  /\ currentTile (Fixed3x3.navigateAll [Right; Up; Right; Down] (Fixed3x3.navigate Left s))
     ≠ (CInt 1, CInt 1).
Proof.
  intros s. destruct X24_fixed_reachable_tiles as (_ & _ & H).
  split; [by vm_compute|]. apply H; by vm_compute.
Defined.

(** ** The errors of a click *)

Lemma loadFiles_console files s :
  console (loadFiles files s).1 = console s ++ firstFailure files.
Proof.
  revert s. induction files as [|tf files IH]; intros s.
  - simpl. by rewrite app_nil_r.
  - cbn [loadFiles]. unfold firstFailure. cbn [List.find]. unfold loadFileForTile.
    destruct (loadable (file tf)); cbn [negb fst].
    + rewrite IH. done.
    + done.
Qed.

Lemma clear_console s : console (clearCurrentPointClouds s) = console s.
Proof. done. Qed.

(** X25: the errors of a click.  An activation logs nothing but the error
    of the first file of the tile whose load fails (the loads after it are
    not attempted); so a click adds at most one entry to the console: the
    alert when no tile store exists, or that error. *)
Theorem X25_click_errors :
  (forall tile s,
      console (dense_activate tile s)
      = console s ++ firstFailure (Dense.filesToLoad (set_currentTile tile s)))
  /\ (forall tile s,
        console (fixed_activate tile s)
        = console s ++ firstFailure (tileFilesAt tile (allTileFiles s)))
  /\ (forall d s,
        exists log,
          console (Dense.navigate d s) = console s ++ log /\ (length log <= 1)%nat)
  /\ (forall d s,
        exists log,
          console (Fixed3x3.navigate d s) = console s ++ log /\ (length log <= 1)%nat).
Proof.
  assert (Hlen : forall files, (length (firstFailure files) <= 1)%nat).
  { intros files. unfold firstFailure. destruct (List.find _ _); simpl; lia. }
  assert (Hd : forall tile s,
      console (dense_activate tile s)
      = console s ++ firstFailure (Dense.filesToLoad (set_currentTile tile s))).
  { intros tile s. unfold dense_activate, Dense.loadCurrentTile.
    by rewrite loadFiles_console. }
  assert (Hf : forall tile s,
      console (fixed_activate tile s)
      = console s ++ firstFailure (tileFilesAt tile (allTileFiles s))).
  { intros tile s. unfold fixed_activate, Fixed3x3.loadCurrentTile.
    by rewrite loadFiles_console. }
  split_and!; [done|done| |].
  - intros d s. unfold Dense.navigate.
    destruct (allTileFiles s) as [|e es] eqn:Hall.
    { exists [AlertLoadFilesFirst]. split; [done|simpl; lia]. }
    rewrite <- Hall. destruct (destination d (currentTile s)) as [nx ny].
    destruct (_ || _).
    + eexists. split; [apply (Hd (nx, ny) s)|apply Hlen].
    + exists []. rewrite app_nil_r. split; [done|simpl; lia].
  - intros d s. unfold Fixed3x3.navigate.
    destruct (allTileFiles s) as [|e es] eqn:Hall.
    { exists [AlertLoadFilesFirst]. split; [done|simpl; lia]. }
    rewrite <- Hall. destruct (destination d (currentTile s)) as [nx ny].
    destruct (Fixed3x3.inGrid nx ny); [|exists []; rewrite app_nil_r; split; [done|simpl; lia]].
    destruct (tileFilesAt (nx, ny) (allTileFiles s)) eqn:Htile;
      [exists []; rewrite app_nil_r; split; [done|simpl; lia]|].
    eexists. split; [apply (Hf (nx, ny) s)|apply Hlen].
Qed.
